(** * The merge pipeline of arxiv-references: beliefs, normalization, filtering

    A shallow embedding of [references/process/merge/beliefs.py] and
    [references/process/merge/normalize.py], and the properties of the
    belief engine, the field normalizer and the filter that the
    specification states.  The modules after those statements go on
    with what the code shows besides: the ranges of the scorers and of
    the beliefs, what the normalizers keep of a record, and bounds of
    the filter.

    Conventions of the embedding.
    - Python objects are values of the type [obj]; an operation that
      can raise returns a [result], whose [Raise] carries the exception
      class, so that [except ValueError] and [except Exception] can tell
      them apart.
    - A finite Python [float] is an exact rational ([Q]): every number
      the pipeline produces is a ratio of small counts, and rounding is
      not part of the model.  Equations between computed numbers are
      stated with [==].  The infinities and [nan] are values of their
      own, on which [int] raises.
    - A [str] is a [string] of ASCII code points.  Codes of 128 and above
      are treated as neither space, digit nor letter, which is not what
      [str.title] does with them: the statements on normalizing twice
      are for texts that [str.isascii] accepts.  [int] reads a literal
      of any length.
    - A record that the caller and the callee share is a location of a
      store ([filter_records]).
    - Regular expressions are terms of the type [Re.re], run by a
      backtracking matcher with the priorities of Python's [re]: the left
      alternative first, the longest repetition first. *)

From Stdlib Require Import ZArith QArith Lia Bool Ascii String List.
From stdpp Require Import gmap.
Import ListNotations.
Open Scope string_scope.

(* ================================================================== *)
(** ** Python values, exceptions and built-ins *)
(* ================================================================== *)

Module Py.

Inductive exn : Type :=
| ValueError
| TypeError
| AttributeError
| ZeroDivisionError
| StatisticsError
| OverflowError.

Inductive result (A : Type) : Type :=
| Ok (a : A)
| Raise (e : exn).
Arguments Ok {A} a.
Arguments Raise {A} e.

Definition bind {A B : Type} (r : result A) (f : A -> result B) : result B :=
  match r with
  | Ok a => f a
  | Raise e => Raise e
  end.

Notation "x <- r ;; k" := (bind r (fun x => k))
  (at level 100, r at next level, right associativity).

Section Loops.
Context {A B : Type}.

(** [[f(x) for x in xs]], stopping at the first raise. *)
Fixpoint mapM (f : A -> result B) (xs : list A) : result (list B) :=
  match xs with
  | [] => Ok []
  | x :: t => y <- f x ;; ys <- mapM f t ;; Ok (y :: ys)
  end.

(** A loop that updates an accumulator, stopping at the first raise. *)
Fixpoint foldM (f : B -> A -> result B) (b : B) (xs : list A) : result B :=
  match xs with
  | [] => Ok b
  | x :: t => b' <- f b x ;; foldM f b' t
  end.

End Loops.

#[warnings="-register-all"]
Inductive obj : Type :=
| VNone
| VInt (n : Z)
| VFloat (q : Q)
| VStr (s : string)
| VList (l : list obj)
| VDict (d : list (string * obj))
| VInf (negative : bool)
| VNan.

(** [VFloat] holds a finite float; [VInf] is [float('inf')] or
    [float('-inf')], and [VNan] is [float('nan')].

    [bool(value)]: [None], zero, the empty string and empty containers
    are falsy. *)
Definition truthy (v : obj) : bool :=
  match v with
  | VNone => false
  | VInt n => negb (n =? 0)%Z
  | VFloat q => negb (Qeq_bool q 0)
  | VStr s => negb (String.eqb s "")
  | VList l => match l with [] => false | _ => true end
  | VDict d => match d with [] => false | _ => true end
  | VInf _ | VNan => true
  end.

Definition is_none (v : obj) : bool :=
  match v with VNone => true | _ => false end.

Definition is_str (v : obj) : bool :=
  match v with VStr _ => true | _ => false end.

Definition is_int (v : obj) : bool :=
  match v with VInt _ => true | _ => false end.

(** [hasattr(value, '__len__')] *)
Definition has_len (v : obj) : bool :=
  match v with
  | VStr _ | VList _ | VDict _ => true
  | _ => false
  end.

(** [len(value)] *)
Definition len (v : obj) : result nat :=
  match v with
  | VStr s => Ok (String.length s)
  | VList l => Ok (List.length l)
  | VDict d => Ok (List.length d)
  | _ => Raise TypeError
  end.

(** [len(value) == n] *)
Definition len_is (v : obj) (n : nat) : bool :=
  match len v with
  | Ok k => (k =? n)%nat
  | Raise _ => false
  end.

(** [for x in value]: the elements of a list, the characters of a
    string, the keys of a dict. *)
Fixpoint chars (s : string) : list obj :=
  match s with
  | EmptyString => []
  | String c t => VStr (String c EmptyString) :: chars t
  end.

Definition iter (v : obj) : result (list obj) :=
  match v with
  | VList l => Ok l
  | VStr s => Ok (chars s)
  | VDict d => Ok (map (fun kv => VStr (fst kv)) d)
  | _ => Raise TypeError
  end.

(** *** Dictionaries, in insertion order *)

Fixpoint dict_lookup {A : Type} (k : string) (d : list (string * A)) : option A :=
  match d with
  | [] => None
  | (k', v) :: t => if String.eqb k k' then Some v else dict_lookup k t
  end.

(** [d[k] = v]: overwrite in place, or append a new key. *)
Fixpoint dict_set {A : Type} (k : string) (v : A) (d : list (string * A))
  : list (string * A) :=
  match d with
  | [] => [(k, v)]
  | (k', v') :: t =>
      if String.eqb k k' then (k, v) :: t else (k', v') :: dict_set k v t
  end.

(** [d.get(k, default)] *)
Definition dict_get {A : Type} (d : list (string * A)) (k : string) (default : A)
  : A :=
  match dict_lookup k d with
  | Some x => x
  | None => default
  end.

(** [obj.get(k, default)]; only a dict has the method. *)
Definition get (v : obj) (k : string) (default : obj) : result obj :=
  match v with
  | VDict d => Ok (dict_get d k default)
  | _ => Raise AttributeError
  end.

(** *** Numbers *)

(** [a / b] on numbers. *)
Definition div (a b : Q) : result Q :=
  if Qeq_bool b 0 then Raise ZeroDivisionError else Ok (a / b)%Q.

Definition Qnat (n : nat) : Q := inject_Z (Z.of_nat n).

(** [max(a, b)] and [min(a, b)] return the first argument unless the
    second is strictly beyond it. *)
Definition max (a b : Q) : Q := if Qle_bool b a then a else b.
Definition min (a b : Q) : Q := if Qle_bool a b then a else b.

Definition Qsum (l : list Q) : Q := fold_left Qplus l 0%Q.

(** *** Character classes (ASCII) *)

Definition code (c : ascii) : nat := nat_of_ascii c.

Definition between (lo hi : nat) (c : ascii) : bool :=
  (lo <=? code c)%nat && (code c <=? hi)%nat.

(** [\s] and [str.isspace]: tab, LF, VT, FF, CR, the separators
    0x1c-0x1f and the space. *)
Definition is_space (c : ascii) : bool :=
  between 9 13 c || between 28 32 c.

(** [\d] *)
Definition is_digit (c : ascii) : bool := between 48 57 c.

Definition is_upper (c : ascii) : bool := between 65 90 c.
Definition is_lower (c : ascii) : bool := between 97 122 c.
Definition is_alpha (c : ascii) : bool := is_upper c || is_lower c.

Definition upper (c : ascii) : ascii :=
  if is_lower c then ascii_of_nat (code c - 32) else c.
Definition lower (c : ascii) : ascii :=
  if is_upper c then ascii_of_nat (code c + 32) else c.

Definition digit_val (c : ascii) : Z := Z.of_nat (code c - 48).

(** *** Strings *)

(** Dropping the characters of a class from the left end, and from the
    right end. *)
Fixpoint lstrip_by (p : ascii -> bool) (s : string) : string :=
  match s with
  | EmptyString => EmptyString
  | String c t => if p c then lstrip_by p t else s
  end.

Fixpoint rstrip_by (p : ascii -> bool) (s : string) : string :=
  match s with
  | EmptyString => EmptyString
  | String c t =>
      match rstrip_by p t with
      | EmptyString => if p c then EmptyString else String c EmptyString
      | t' => String c t'
      end
  end.

(** [s.strip()] *)
Definition strip (s : string) : string :=
  rstrip_by is_space (lstrip_by is_space s).

(** [s.title()] on ASCII text: a letter is upper-cased when the
    character before it is not a letter, lower-cased otherwise.  The
    cased characters beyond ASCII, which Python maps too and not always
    to one character, are left as they are. *)
Definition case_of (previous_is_cased : bool) (c : ascii) : ascii :=
  if previous_is_cased then lower c else upper c.

Fixpoint title_from (previous_is_cased : bool) (s : string) : string :=
  match s with
  | EmptyString => EmptyString
  | String c t =>
      String (case_of previous_is_cased c) (title_from (is_alpha c) t)
  end.

Definition title (s : string) : string := title_from false s.

(** [s.startswith(p)] *)
Fixpoint startswith (p s : string) : bool :=
  match p, s with
  | EmptyString, _ => true
  | String a p', String b s' => Ascii.eqb a b && startswith p' s'
  | String _ _, EmptyString => false
  end.

(** [sub in s] *)
Fixpoint in_str (sub s : string) : bool :=
  startswith sub s ||
  match s with
  | EmptyString => false
  | String _ t => in_str sub t
  end.

(** [s.endswith(p)] *)
Fixpoint endswith (p s : string) : bool :=
  String.eqb p s ||
  match s with
  | EmptyString => false
  | String _ t => endswith p t
  end.

Fixpoint drop (n : nat) (s : string) : string :=
  match n, s with
  | O, _ => s
  | S n', String _ t => drop n' t
  | S _, EmptyString => EmptyString
  end.

Fixpoint take (n : nat) (s : string) : string :=
  match n, s with
  | O, _ => EmptyString
  | S n', String c t => String c (take n' t)
  | S _, EmptyString => EmptyString
  end.

(** [s.replace(old, new)] for a non-empty [old]: occurrences are replaced
    from the left and do not overlap.  [skip] counts the characters of
    the occurrence being replaced that are still to be passed over. *)
Fixpoint replace_from (old new : string) (skip : nat) (s : string) : string :=
  match s with
  | EmptyString => EmptyString
  | String c t =>
      match skip with
      | S k => replace_from old new k t
      | O =>
          if startswith old s
          then new ++ replace_from old new (String.length old - 1) t
          else String c (replace_from old new 0 t)
      end
  end.

Fixpoint intersperse (new : string) (s : string) : string :=
  match s with
  | EmptyString => new
  | String c t => new ++ String c (intersperse new t)
  end.

(** With an empty [old], Python puts [new] around every character. *)
Definition replace (old new s : string) : string :=
  match old with
  | EmptyString => intersperse new s
  | _ => replace_from old new 0 s
  end.

(** [s.split()]: the maximal runs of non-space characters.  [word] is
    the run being read, reversed. *)
Fixpoint rev_string (acc s : string) : string :=
  match s with
  | EmptyString => acc
  | String c t => rev_string (String c acc) t
  end.

Fixpoint split_from (word : string) (s : string) : list string :=
  match s with
  | EmptyString =>
      match word with EmptyString => [] | _ => [rev_string "" word] end
  | String c t =>
      if is_space c
      then match word with
           | EmptyString => split_from "" t
           | _ => rev_string "" word :: split_from "" t
           end
      else split_from (String c word) t
  end.

Definition split (s : string) : list string := split_from "" s.

(** [sep.join(items)] on strings. *)
Fixpoint join (sep : string) (items : list string) : string :=
  match items with
  | [] => ""
  | [x] => x
  | x :: t => x ++ sep ++ join sep t
  end.

(** *** [int(value)] *)

Inductive digits_state : Type := NoDigit | AfterDigit | AfterUnderscore.

(** Decimal digits, single underscores allowed between two digits. *)
Fixpoint parse_digits (st : digits_state) (acc : Z) (s : string) : option Z :=
  match s with
  | EmptyString =>
      match st with AfterDigit => Some acc | _ => None end
  | String c t =>
      if is_digit c then parse_digits AfterDigit (acc * 10 + digit_val c) t
      else if Ascii.eqb c "_"%char then
        match st with
        | AfterDigit => parse_digits AfterUnderscore acc t
        | _ => None
        end
      else None
  end.

(** The white space that [int] passes over around a literal: tab, LF,
    VT, FF, CR and the space.  The separators 0x1c-0x1f, which
    [str.strip] drops, are not part of it. *)
Definition is_int_space (c : ascii) : bool :=
  between 9 13 c || Ascii.eqb c " "%char.

(** Surrounding white space is dropped, and one sign may come first. *)
Definition int_of_string (s : string) : option Z :=
  match rstrip_by is_int_space (lstrip_by is_int_space s) with
  | EmptyString => None
  | String c t =>
      if Ascii.eqb c "+"%char then parse_digits NoDigit 0 t
      else if Ascii.eqb c "-"%char
           then option_map Z.opp (parse_digits NoDigit 0 t)
           else parse_digits NoDigit 0 (String c t)
  end.

(** [int(value)]: a string is parsed and raises [ValueError] when it is
    not an integer literal; a finite float is truncated toward zero, an
    infinity raises [OverflowError] and [nan] raises [ValueError]; other
    objects raise [TypeError]. *)
Definition int (v : obj) : result Z :=
  match v with
  | VInt n => Ok n
  | VFloat q => Ok (Z.quot (Qnum q) (Z.pos (Qden q)))
  | VInf _ => Raise OverflowError
  | VNan => Raise ValueError
  | VStr s =>
      match int_of_string s with
      | Some n => Ok n
      | None => Raise ValueError
      end
  | _ => Raise TypeError
  end.

End Py.


(* ================================================================== *)
(** ** Regular expressions: a backtracking matcher *)
(* ================================================================== *)

Module Re.
Import Py.

(** The constructs the patterns of the pipeline use.  A repetition
    applies to a character class, as it does in every pattern here. *)
Inductive re : Type :=
| Bol                              (* ^ *)
| Eol                              (* $ *)
| Cls (p : ascii -> bool)          (* one character of a class *)
| Plus (p : ascii -> bool)         (* class+ , greedy *)
| Star (p : ascii -> bool)         (* class* , greedy *)
| Seq (r1 r2 : re)
| Alt (r1 r2 : re)                 (* r1|r2 *)
| Opt (r : re)                     (* (?:r)? , greedy *)
| Grp (r : re).                    (* (r) , capturing *)

(** The matcher's position: the offset in the subject, the text still
    to read, and the groups captured so far. *)
Definition cont (R : Type) : Type := nat -> string -> list string -> option R.

(** The longest run first, then one character less at a time. *)
Fixpoint star {R : Type} (p : ascii -> bool)
  (pos : nat) (s : string) (caps : list string) (k : cont R) : option R :=
  match s with
  | String c t =>
      if p c then
        match star p (S pos) t caps k with
        | Some r => Some r
        | None => k pos s caps
        end
      else k pos s caps
  | EmptyString => k pos s caps
  end.

Definition plus {R : Type} (p : ascii -> bool)
  (pos : nat) (s : string) (caps : list string) (k : cont R) : option R :=
  match s with
  | String c t => if p c then star p (S pos) t caps k else None
  | EmptyString => None
  end.

(** [$] matches at the end of the subject and before a final newline. *)
Definition at_eol (s : string) : bool :=
  match s with
  | EmptyString => true
  | String c EmptyString => Ascii.eqb c "010"%char
  | _ => false
  end.

Fixpoint m {R : Type} (r : re)
  (pos : nat) (s : string) (caps : list string) (k : cont R) : option R :=
  match r with
  | Bol => if (pos =? 0)%nat then k pos s caps else None
  | Eol => if at_eol s then k pos s caps else None
  | Cls p =>
      match s with
      | String c t => if p c then k (S pos) t caps else None
      | EmptyString => None
      end
  | Plus p => plus p pos s caps k
  | Star p => star p pos s caps k
  | Seq r1 r2 => m r1 pos s caps (fun pos' s' caps' => m r2 pos' s' caps' k)
  | Alt r1 r2 =>
      match m r1 pos s caps k with
      | Some x => Some x
      | None => m r2 pos s caps k
      end
  | Opt r1 =>
      match m r1 pos s caps k with
      | Some x => Some x
      | None => k pos s caps
      end
  | Grp r1 =>
      m r1 pos s caps
        (fun pos' s' caps' => k pos' s' (caps' ++ [take (pos' - pos) s])%list)
  end.

(** One match attempt at offset [pos], where [s] is the subject from
    [pos] on: the offset where the match ends, and its groups. *)
Definition match_at (r : re) (pos : nat) (s : string) : option (nat * list string) :=
  m r pos s [] (fun pos' _ caps => Some (pos', caps)).

(** [re.match(r, s)]: a match that starts at offset 0. *)
Definition rmatch (r : re) (s : string) : option (list string) :=
  option_map snd (match_at r 0 s).

(** The matches [re.finditer] yields: each search starts where the match
    before it ended, and the leftmost offset with a match wins.  [skip]
    counts the characters still inside the match found last.  After an
    empty match the search moves on by one character; no pattern of the
    pipeline matches the empty text. *)
Fixpoint scan (r : re) (pos : nat) (s : string) (skip : nat)
  : list (nat * nat * list string) :=
  match skip with
  | S n =>
      match s with
      | String _ t => scan r (S pos) t n
      | EmptyString => []
      end
  | O =>
      match match_at r pos s with
      | Some (pos', caps) =>
          (pos, pos', caps) ::
          match s with
          | String _ t => scan r (S pos) t (pos' - pos - 1)
          | EmptyString => []
          end
      | None =>
          match s with
          | String _ t => scan r (S pos) t 0
          | EmptyString => []
          end
      end
  end.

(** [re.findall(r, s)] for a pattern with one group. *)
Definition findall (r : re) (s : string) : list string :=
  map (fun mt => nth 0 (snd mt) "") (scan r 0 s 0).

(** [re.sub(r, repl, s)] for a replacement without back-references. *)
Fixpoint sub_from (r : re) (repl : string) (pos : nat) (s : string) (skip : nat)
  : string :=
  match skip with
  | S n =>
      match s with
      | String _ t => sub_from r repl (S pos) t n
      | EmptyString => EmptyString
      end
  | O =>
      match match_at r pos s with
      | Some (pos', _) =>
          repl ++
          match s with
          | String c t =>
              if (pos' =? pos)%nat
              then String c (sub_from r repl (S pos) t 0)
              else sub_from r repl (S pos) t (pos' - pos - 1)
          | EmptyString => EmptyString
          end
      | None =>
          match s with
          | String c t => String c (sub_from r repl (S pos) t 0)
          | EmptyString => EmptyString
          end
      end
  end.

Definition sub (r : re) (repl s : string) : string := sub_from r repl 0 s 0.

(** On an object that is not a [str] the functions of [re] raise
    [TypeError]. *)
Definition findall_v (r : re) (v : obj) : result (list string) :=
  match v with
  | VStr s => Ok (findall r s)
  | _ => Raise TypeError
  end.

Definition sub_v (r : re) (repl : string) (v : obj) : result string :=
  match v with
  | VStr s => Ok (sub r repl s)
  | _ => Raise TypeError
  end.

Definition match_v (r : re) (v : obj) : result (option (list string)) :=
  match v with
  | VStr s => Ok (rmatch r s)
  | _ => Raise TypeError
  end.

(** *** What a match is, apart from the order of the attempts *)

Fixpoint all (p : ascii -> bool) (s : string) : bool :=
  match s with
  | EmptyString => true
  | String c t => p c && all p t
  end.

(** The length of the longest prefix within the class. *)
Fixpoint run (p : ascii -> bool) (s : string) : nat :=
  match s with
  | String c t => if p c then S (run p t) else 0
  | EmptyString => 0
  end.

(** [Matches r pos s caps n caps']: at offset [pos], with [s] ahead, [r]
    can consume the first [n] characters of [s] and turn the groups
    [caps] into [caps']. *)
Fixpoint Matches (r : re) (pos : nat) (s : string) (caps : list string)
  (n : nat) (caps' : list string) : Prop :=
  match r with
  | Bol => pos = 0%nat /\ n = 0%nat /\ caps' = caps
  | Eol => at_eol s = true /\ n = 0%nat /\ caps' = caps
  | Cls p =>
      n = 1%nat /\ caps' = caps /\
      exists c t, s = String c t /\ p c = true
  | Plus p =>
      (1 <= n)%nat /\ (n <= String.length s)%nat /\
      all p (take n s) = true /\ caps' = caps
  | Star p =>
      (n <= String.length s)%nat /\ all p (take n s) = true /\ caps' = caps
  | Seq r1 r2 =>
      exists n1 n2 caps1,
        Matches r1 pos s caps n1 caps1 /\
        Matches r2 (pos + n1) (drop n1 s) caps1 n2 caps' /\
        n = (n1 + n2)%nat
  | Alt r1 r2 =>
      Matches r1 pos s caps n caps' \/ Matches r2 pos s caps n caps'
  | Opt r1 =>
      Matches r1 pos s caps n caps' \/ (n = 0%nat /\ caps' = caps)
  | Grp r1 =>
      exists caps1,
        Matches r1 pos s caps n caps1 /\
        caps' = (caps1 ++ [take n s])%list
  end.

End Re.

(* ================================================================== *)
(** ** The record *)
(* ================================================================== *)

Module Domain.
Import Py.

(** Modelled from the spec: the class [Reference] of [references.domain],
    which is not among the sources.  One attribute per field of the
    record of the data model; an absent field holds [None] or an empty
    value.  [to_dict] lists the fields in the order of the data model. *)
Record Reference : Type := mkReference {
  raw : obj;
  title : obj;
  source : obj;
  year : obj;
  volume : obj;
  pages : obj;
  issue : obj;
  authors : obj;
  identifiers : obj;
  doi : obj;
  arxiv_id : obj;
  reftype : obj;
  score : obj
}.

Definition to_dict (r : Reference) : list (string * obj) :=
  [ ("raw", raw r); ("title", title r); ("source", source r);
    ("year", year r); ("volume", volume r); ("pages", pages r);
    ("issue", issue r); ("authors", authors r);
    ("identifiers", identifiers r); ("doi", doi r);
    ("arxiv_id", arxiv_id r); ("reftype", reftype r); ("score", score r) ].

(** [getattr(record, field, None)] *)
Definition getattr (r : Reference) (field : string) : obj :=
  match dict_lookup field (to_dict r) with
  | Some v => v
  | None => VNone
  end.

Definition set_score (v : obj) (r : Reference) : Reference :=
  mkReference (raw r) (title r) (source r) (year r) (volume r) (pages r)
    (issue r) (authors r) (identifiers r) (doi r) (arxiv_id r) (reftype r) v.

(** [setattr(record, field, v)] for the fields the normalizers write. *)
Definition setattr (r : Reference) (field : string) (v : obj) : Reference :=
  if String.eqb field "authors" then
    mkReference (raw r) (title r) (source r) (year r) (volume r) (pages r)
      (issue r) v (identifiers r) (doi r) (arxiv_id r) (reftype r) (score r)
  else if String.eqb field "title" then
    mkReference (raw r) v (source r) (year r) (volume r) (pages r)
      (issue r) (authors r) (identifiers r) (doi r) (arxiv_id r) (reftype r)
      (score r)
  else if String.eqb field "source" then
    mkReference (raw r) (title r) v (year r) (volume r) (pages r)
      (issue r) (authors r) (identifiers r) (doi r) (arxiv_id r) (reftype r)
      (score r)
  else if String.eqb field "arxiv_id" then
    mkReference (raw r) (title r) (source r) (year r) (volume r) (pages r)
      (issue r) (authors r) (identifiers r) (doi r) v (reftype r) (score r)
  else if String.eqb field "score" then set_score v r
  else r.

(** A record all of whose fields are empty. *)
Definition blank : Reference :=
  mkReference (VStr "") VNone VNone VNone VNone VNone VNone (VList [])
    (VList []) VNone VNone (VStr "") (VFloat 0).

End Domain.

(* ================================================================== *)
(** ** beliefs.py *)
(* ================================================================== *)

Module Beliefs.
Import Py Re Domain.

Definition RE_INTEGER : re :=
  Seq (Alt Bol (Plus is_space))
      (Seq (Grp (Plus is_digit))
           (Alt Eol (Plus is_space))).

(** The class [[\s\-._/\:]]. *)
Definition is_page_sep (c : ascii) : bool :=
  is_space c || existsb (Ascii.eqb c) ["-"; "."; "_"; "/"; ":"]%char.

(** [(\d+)(?:\s+)?[\s\-._/\:]+(?:\s+)?(\d+)] *)
Definition RE_PAGES : re :=
  Seq (Grp (Plus is_digit))
      (Seq (Opt (Plus is_space))
           (Seq (Plus is_page_sep)
                (Seq (Opt (Plus is_space))
                     (Grp (Plus is_digit))))).

(** The part of the pattern before the second group. *)
Definition pages_prefix : re :=
  Seq (Grp (Plus is_digit))
      (Seq (Opt (Plus is_space))
           (Seq (Plus is_page_sep) (Opt (Plus is_space)))).

(** What follows the prefix of the pattern: the second group, which
    takes every digit ahead. *)
Definition second_group : cont (nat * list string) :=
  fun pos s caps =>
    m (Grp (Plus is_digit)) pos s caps (fun pos' _ caps' => Some (pos', caps')).

(** A belief function: a probability, or an exception. *)
Definition belief : Type := obj -> result Q.

Definition minimum_length (length : nat) : belief := fun value =>
  n <- len value ;;
  if (n <? length)%nat && (0 <? n)%nat then Ok 0%Q else Ok 1%Q.

Definition likely (func : belief) (min_prob max_prob : Q) : belief :=
  fun value =>
    x <- func value ;;
    Ok (max (min x max_prob) min_prob).

Definition does_not_contain_arxiv : belief := fun value =>
  match value with
  | VStr s => Ok (if in_str "arxiv" s then 0%Q else 1%Q)
  | _ => Ok 0%Q
  end.

Definition contains (substring : string) (false_prob true_prob : Q) : belief :=
  fun value =>
    match value with
    | VStr s => Ok (if in_str substring s then true_prob else false_prob)
    | _ => Ok 0%Q
    end.

Definition ends_with (substring : string) (false_prob true_prob : Q) : belief :=
  fun value =>
    match value with
    | VStr s => Ok (if endswith substring s then true_prob else false_prob)
    | _ => Ok 0%Q
    end.

Definition doesnt_end_with (substring : string) (false_prob true_prob : Q)
  : belief :=
  ends_with substring true_prob false_prob.

Definition is_integer : belief := fun value =>
  match int value with
  | Ok _ => Ok 1%Q
  | Raise ValueError => Ok 0%Q
  | Raise e => Raise e
  end.

Definition is_integer_like : belief := fun value =>
  if is_none value then Ok 0%Q
  else if is_int value then Ok 1%Q
  else if has_len value && len_is value 0 then Ok 0%Q
  else
  match value with
  | VStr s =>
      let numbers := findall RE_INTEGER s in
      let leftovers := sub RE_INTEGER "" s in
      match numbers with
      | [] => Ok 0%Q
      | _ =>
          ints <- mapM (fun i => is_integer (VStr i)) numbers ;;
          frac <- div (Qsum ints) (Qnat (List.length numbers)) ;;
          part <- div (inject_Z (Z.of_nat (String.length s)
                                 - Z.of_nat (String.length leftovers)))
                      (Qnat (String.length s)) ;;
          Ok (frac * part)%Q
      end
  | _ => Ok 0%Q
  end.

Definition is_year : belief := fun value =>
  match int value with
  | Ok year =>
      if (1600 <? year)%Z && (year <? 2100)%Z then Ok 1%Q else Ok 0%Q
  | Raise ValueError => Ok 0%Q
  | Raise e => Raise e
  end.

Definition is_year_like : belief := fun value =>
  let body :=
    numbers <- findall_v RE_INTEGER value ;;
    match numbers with
    | [] => Ok 0%Q
    | _ =>
        years <- mapM (fun i => is_year (VStr i)) numbers ;;
        div (1 * Qsum years)%Q (Qnat (List.length numbers))
    end in
  match body with
  | Ok x => Ok x
  | Raise _ => Ok 0%Q
  end.

Definition is_pages : belief := fun value =>
  mt <- match_v RE_PAGES value ;;
  match mt with
  | Some groups =>
      ints <- mapM (fun i => int (VStr i)) groups ;;
      match ints with
      | [start; end_] => if (start <? end_)%Z then Ok 1%Q else Ok (1 # 2)%Q
      | _ => Raise ValueError
      end
  | None => Ok 0%Q
  end.

Definition unity : belief := fun _ => Ok 1%Q.

(** *** The words of the specification, for the scorers of text *)

(** The value of a string of decimal digits. *)
Fixpoint decimal_from (acc : Z) (s : string) : Z :=
  match s with
  | EmptyString => acc
  | String c t => decimal_from (acc * 10 + digit_val c) t
  end.

Definition decimal (s : string) : Z := decimal_from 0 s.

(** A page range read from the left: digits, then separators, then
    digits, each as long as it can be and none empty. *)
Definition page_range (s : string) : option (string * string) :=
  let d1 := run is_digit s in
  let s1 := drop d1 s in
  let sp := run is_page_sep s1 in
  let s2 := drop sp s1 in
  let d2 := run is_digit s2 in
  if (0 <? d1)%nat && (0 <? sp)%nat && (0 <? d2)%nat
  then Some (take d1 s, take d2 s2)
  else None.

(** The number of characters that the matches of [RE_INTEGER] cover. *)
Definition matched_length (s : string) : nat :=
  list_sum (map (fun mt => (snd (fst mt) - fst (fst mt))%nat)
                (scan RE_INTEGER 0 s 0)).

(** The number of tokens that [int] accepts. *)
Definition count_integers (tokens : list string) : nat :=
  List.length
    (List.filter (fun t => match int (VStr t) with Ok _ => true | Raise _ => false end)
       tokens).

Section Environment.

(** What the module imports from parts of the repository that are not
    among the sources: [clean_text] of [references.process.textutil]
    (its optional argument is [numok]); the patterns of
    [references.util.regex_identifiers] and [regex_arxiv], each given by
    the strings [re.match] accepts; and the word filters that
    [_prepare_filters_or_not] loads from the data directory, for titles
    and for authors, absent when loading fails. *)
Variable clean_text : option bool -> obj -> result string.
Variables REGEX_DOI REGEX_ISBN_10 REGEX_ISBN_13 REGEX_ARXIV_STRICT
  : string -> bool.
Variable bloom_filters : option ((string -> bool) * (string -> bool)).

Definition bloom_match (bloom_filter : string -> bool) : belief := fun value =>
  text <- clean_text (Some true) value ;;
  let score :=
    map (fun word => if bloom_filter word then 1%Q else 0%Q) (split text) in
  if (List.length score =? 0)%nat then Ok 0%Q
  else div (Qsum score) (Qnat (List.length score)).

Definition valid_doi : belief := fun value =>
  match value with
  | VStr s => Ok (if REGEX_DOI s then 1%Q else 0%Q)
  | _ => Raise TypeError
  end.

(** The body of the loop of [valid_identifier]: the new [num_good]. *)
Definition count_identifier (num_good : nat) (ID : obj) : result nat :=
  idtype <- get ID "identifier_type" (VStr "") ;;
  idvalue <- get ID "identifier" (VStr "") ;;
  match idtype with
  | VStr "isbn" =>
      match idvalue with
      | VStr s =>
          if REGEX_ISBN_10 s then Ok (S num_good)
          else if REGEX_ISBN_13 s then Ok (S num_good)
          else Ok num_good
      | _ => Raise TypeError
      end
  | _ => Ok num_good
  end.

Definition valid_identifier : belief := fun value =>
  num_identifiers <- len value ;;
  items <- iter value ;;
  num_good <- foldM count_identifier 0%nat items ;;
  div (Qnat num_good) (Qnat num_identifiers).

Definition valid_arxiv_id : belief := fun value =>
  match value with
  | VStr s => Ok (if REGEX_ARXIV_STRICT s then 1%Q else 0%Q)
  | _ => Raise TypeError
  end.

Definition words_title : belief :=
  match bloom_filters with
  | Some (title_filter, _) => bloom_match title_filter
  | None => unity
  end.

Definition words_auth : belief :=
  match bloom_filters with
  | Some (_, auth_filter) => bloom_match auth_filter
  | None => unity
  end.

Definition str_of (v : obj) : result string :=
  match v with
  | VStr s => Ok s
  | _ => Raise TypeError
  end.

(** The body of the loop of [words_author_structure]: the new
    [num_good]. *)
Definition author_score (num_good : Q) (auth : obj) : result Q :=
  match auth with
  | VDict d =>
      names <- mapM (fun kv => str_of (snd kv)) d ;;
      name <- clean_text None (VStr (join " " names)) ;;
      mod_ <- words_auth (VStr name) ;;
      surname <- get auth "surname" VNone ;;
      mod' <- (if truthy surname then
                 match surname with
                 | VStr s =>
                     w <- div 1 (Qnat (List.length (split s))) ;;
                     Ok (mod_ * w)%Q
                 | _ => Raise AttributeError
                 end
               else Ok mod_) ;;
      Ok (num_good + mod')%Q
  | _ => Raise AttributeError
  end.

Definition words_author_structure : belief := fun value =>
  auths <- iter value ;;
  num_good <- foldM author_score 0%Q auths ;;
  let num_authors := List.length auths in
  if (num_authors =? 0)%nat then Ok 0%Q
  else div num_good (Qnat num_authors).

Definition BELIEF_FUNCTIONS : list (string * list belief) :=
  [ ("title", [words_title; minimum_length 5]);
    ("raw", [words_title; words_auth]);
    ("authors", [words_author_structure]);
    ("doi", [valid_doi; contains "." 0 1; contains "/" 0 1;
             doesnt_end_with "-" 0 1]);
    ("volume", [likely is_integer_like (8 # 10) 1]);
    ("pages", [is_integer_like; is_pages]);
    ("source", [does_not_contain_arxiv]);
    ("year", [is_integer_like; is_integer; is_year_like; is_year]);
    ("identifiers", [valid_identifier]);
    ("arxiv", [valid_arxiv_id]) ].

(** What an observer of [calculate_belief] can see besides its result:
    the belief functions it calls, and the failures it logs. *)
Inductive event : Type :=
| Invoked (key : string) (i : nat)
| Logged (key : string) (e : exn).

Definition key_of (ev : event) : string :=
  match ev with
  | Invoked key _ => key
  | Logged key _ => key
  end.

(** The inner loop: [score += func(value)] under [try], a failure being
    logged and passed over.  [i] is the index of the next function. *)
Fixpoint run_funcs (key : string) (value : obj) (funcs : list belief)
  (i : nat) (score : Q) (tr : list event) : Q * list event :=
  match funcs with
  | [] => (score, tr)
  | func :: rest =>
      match func value with
      | Ok x =>
          run_funcs key value rest (S i) (score + x)%Q
            (tr ++ [Invoked key i])%list
      | Raise e =>
          run_funcs key value rest (S i) score
            (tr ++ [Invoked key i; Logged key e])%list
      end
  end.

(** The outer loop over [reference.to_dict().items()]. *)
Fixpoint score_items (items : list (string * obj))
  (output : list (string * Q)) (tr : list event)
  : result (list (string * Q) * list event) :=
  match items with
  | [] => Ok (output, tr)
  | (key, value) :: rest =>
      if negb (truthy value) then score_items rest (dict_set key 1%Q output) tr
      else
        let funcs := dict_get BELIEF_FUNCTIONS key [unity] in
        let '(score, tr') := run_funcs key value funcs 0 0%Q tr in
        b <- div score (Qnat (List.length funcs)) ;;
        score_items rest (dict_set key b output) tr'
  end.

Definition calculate_belief (reference : Reference)
  : result (list (string * Q) * list event) :=
  score_items (to_dict reference) [] [].

(** [key, value = k] for a key [k] of a dict: a string unpacks into its
    characters, and fits two names only when it has two of them. *)
Definition unpack_pair (k : string) : result (string * string) :=
  match k with
  | String a (String b EmptyString) =>
      Ok (String a EmptyString, String b EmptyString)
  | _ => Raise ValueError
  end.

(** The comprehension of [identity_belief] runs over [reference.keys()],
    not over the items: each key is unpacked into [key, value]. *)
Definition identity_belief (reference : list (string * obj))
  : result (list (string * Q)) :=
  foldM (fun output k =>
           kv <- unpack_pair k ;;
           x <- unity (VStr (snd kv)) ;;
           Ok (dict_set (fst kv) x output))
        [] (map fst reference).

(** The aligned references are lists of pairs of an extractor name and
    a record; each record is replaced by what [calculate_belief] returns
    for it. *)
Definition validate (aligned_references : list (list (string * Reference)))
  : result (list (list (string * (list (string * Q) * list event)))) :=
  mapM (fun reference =>
          mapM (fun pair =>
                  beliefs <- calculate_belief (snd pair) ;;
                  Ok (fst pair, beliefs))
               reference)
       aligned_references.

(** *** The words of the specification

    What a belief function adds to the running sum of a field: its
    output, or nothing when it raises. *)
Definition contribution (value : obj) (func : belief) : Q :=
  match func value with
  | Ok x => x
  | Raise _ => 0%Q
  end.

(** The arithmetic mean of the contributions of the functions registered
    for [key]. *)
Definition mean_belief (key : string) (value : obj) : Q :=
  let funcs := dict_get BELIEF_FUNCTIONS key [unity] in
  (Qsum (map (contribution value) funcs) / Qnat (List.length funcs))%Q.

(** The belief the loop stores for a field. *)
Definition field_belief (key : string) (value : obj) (b : Q) : Prop :=
  if truthy value then (b == mean_belief key value)%Q else b = 1%Q.

(** What the trace may hold about a field. *)
Definition field_event (items : list (string * obj)) (ev : event) : Prop :=
  exists value, In (key_of ev, value) items /\ truthy value = true /\
    match ev with
    | Invoked _ _ => True
    | Logged k e =>
        exists f, In f (dict_get BELIEF_FUNCTIONS k [unity]) /\ f value = Raise e
    end.

End Environment.

End Beliefs.

(* ================================================================== *)
(** ** normalize.py *)
(* ================================================================== *)

Module Normalize.
Import Py Re Domain.

Definition is_dot (c : ascii) : bool := Ascii.eqb c "."%char.

(** The class [[^0-9a-zA-Z]]. *)
Definition is_nonalnum (c : ascii) : bool :=
  negb (is_digit c || is_lower c || is_upper c).

(** [\.\s*] *)
Definition RE_DOTS : re := Seq (Cls is_dot) (Star is_space).
(** [^[^0-9a-zA-Z]+] *)
Definition RE_LEADING : re := Seq Bol (Plus is_nonalnum).
(** [[^0-9a-zA-Z]+$] *)
Definition RE_TRAILING : re := Seq (Plus is_nonalnum) Eol.

Definition _remove_dots (text : obj) : result string :=
  s <- sub_v RE_DOTS " " text ;;
  Ok (strip s).

(** [author.update({k: v})] *)
Definition update (author : obj) (k : string) (v : obj) : result obj :=
  match author with
  | VDict d => Ok (VDict (dict_set k v d))
  | _ => Raise AttributeError
  end.

Definition _remove_dots_from_author_names (author : obj) : result obj :=
  givennames <- get author "givennames" VNone ;;
  fullname <- get author "fullname" VNone ;;
  author <- (if negb (is_none givennames) then
               s <- _remove_dots givennames ;;
               update author "givennames" (VStr (Py.title s))
             else Ok author) ;;
  author <- (if negb (is_none fullname) then
               s <- _remove_dots fullname ;;
               update author "fullname" (VStr (Py.title s))
             else Ok author) ;;
  Ok author.

Definition _remove_leading_trailing_nonalpha (text : obj) : result obj :=
  s <- sub_v RE_LEADING "" text ;;
  Ok (VStr (sub RE_TRAILING "" s)).

Section Registry.

(** The keys of [taxonomy.ARCHIVES], of the package [arxiv], in the
    order of the dict. *)
Variable ARCHIVES : list string.

(** [typo in value], by the type of [value]. *)
Definition typo_in (typo : string) (value : obj) : result bool :=
  match value with
  | VStr s => Ok (in_str typo s)
  | VList l =>
      Ok (existsb (fun x => match x with
                            | VStr u => String.eqb typo u
                            | _ => false
                            end) l)
  | VDict d => Ok (existsb (fun kv => String.eqb typo (fst kv)) d)
  | _ => Raise TypeError
  end.

(** [value.replace(typo, category)] *)
Definition replace_v (value : obj) (old new : string) : result obj :=
  match value with
  | VStr s => Ok (VStr (replace old new s))
  | _ => Raise AttributeError
  end.

(** The loop over the categories, with its early return. *)
Fixpoint fix_in (categories : list string) (value : obj) : result obj :=
  match categories with
  | [] => Ok value
  | category :: rest =>
      let typo := replace "-" "" category in
      found <- typo_in typo value ;;
      if found then replace_v value typo category
      else fix_in rest value
  end.

Fixpoint _fix_arxiv_id (value : obj) : result obj :=
  match value with
  | VList l => l' <- mapM _fix_arxiv_id l ;; Ok (VList l')
  | _ => fix_in ARCHIVES value
  end.

(** *** The words of the specification, for the identifier repair *)


(** The first category of the registry whose form without hyphens
    occurs in the text: the one a pass repairs. *)
Fixpoint first_code (categories : list string) (s : string) : option string :=
  match categories with
  | [] => None
  | category :: rest =>
      if in_str (replace "-" "" category) s then Some category
      else first_code rest s
  end.

(** One pass of the repair over a text. *)
Definition fix_str (s : string) : string :=
  match first_code ARCHIVES s with
  | Some category => replace (replace "-" "" category) category s
  | None => s
  end.

(** A text in which a pass finds nothing to repair: no category occurs
    in it without its hyphens, or the first that does has none. *)
Definition settled (s : string) : bool :=
  match first_code ARCHIVES s with
  | Some category => negb (in_str "-" category)
  | None => true
  end.


Definition NORMALIZERS : list (string * (obj -> result obj)) :=
  [ ("authors", _remove_dots_from_author_names);
    ("title", _remove_leading_trailing_nonalpha);
    ("source", fun text => s <- _remove_dots text ;; Ok (VStr (Py.title s)));
    ("arxiv_id", _fix_arxiv_id) ].

(** One round of the loop of [normalize_record]. *)
Definition normalize_field (record : Reference)
  (entry : string * (obj -> result obj)) : result Reference :=
  let '(field, normalizer) := entry in
  let value := getattr record field in
  if is_none value then Ok record
  else
    match value with
    | VList l =>
        l' <- mapM normalizer l ;;
        Ok (setattr record field (VList l'))
    | _ =>
        v <- normalizer value ;;
        Ok (setattr record field v)
    end.

Definition normalize_record (record : Reference) : result Reference :=
  foldM normalize_field record NORMALIZERS.

(** What a round of the loop stores in the field that holds [value]. *)
Definition normalize_value (normalizer : obj -> result obj) (value : obj)
  : result obj :=
  if is_none value then Ok value
  else
    match value with
    | VList l => l' <- mapM normalizer l ;; Ok (VList l')
    | _ => normalizer value
    end.

Definition normalize_records (records : list Reference)
  : result (list Reference) :=
  mapM normalize_record records.



End Registry.

(** What the normalizer of [source] and of the names of an author does
    to a text, and what the normalizer of [title] does. *)
Definition dots_title (s : string) : string :=
  Py.title (strip (sub RE_DOTS " " s)).

Definition trim (s : string) : string :=
  sub RE_TRAILING "" (sub RE_LEADING "" s).

(** What the normalizer of authors does to the names of one author. *)
Definition clean_name (k : string) (d : list (string * obj))
  : list (string * obj) :=
  match dict_get d k VNone with
  | VStr s => dict_set k (VStr (dots_title s)) d
  | _ => d
  end.

(** An object that is neither [None] nor a list. *)
Definition scalar (v : obj) : bool :=
  match v with
  | VNone | VList _ => false
  | _ => true
  end.




(** The record with the four fields that the normalizers write. *)
Definition with_fields (r : Reference) (a t s x : obj) : Reference :=
  mkReference (raw r) t s (year r) (volume r) (pages r) (issue r) a
    (identifiers r) (doi r) x (reftype r) (score r).

(** *** Well-formed records

    A field of text is absent, a text, or a list of texts; an author is
    a dict whose given names and full name, when present, are texts; the
    authors are absent, one author, or a list of authors. *)

Definition text_or_none (v : obj) : bool := is_none v || is_str v.

Definition text_field (v : obj) : bool :=
  match v with
  | VNone | VStr _ => true
  | VList l => forallb is_str l
  | _ => false
  end.

Definition author_ok (v : obj) : bool :=
  match v with
  | VDict d =>
      text_or_none (dict_get d "givennames" VNone) &&
      text_or_none (dict_get d "fullname" VNone)
  | _ => false
  end.

Definition authors_field (v : obj) : bool :=
  match v with
  | VNone => true
  | VList l => forallb author_ok l
  | _ => author_ok v
  end.

Definition well_formed (record : Reference) : bool :=
  authors_field (authors record) && text_field (title record) &&
  text_field (source record) && text_field (arxiv_id record).

(** *** ASCII texts

    [str.isascii], and the records in which the texts that [str.title]
    reads, the source and the names of the authors, are ASCII. *)

Definition isascii (s : string) : bool :=
  all (fun c => (code c <? 128)%nat) s.

Definition ascii_text (v : obj) : bool :=
  match v with
  | VStr s => isascii s
  | _ => true
  end.

Definition ascii_author (v : obj) : bool :=
  match v with
  | VDict d =>
      ascii_text (dict_get d "givennames" VNone) &&
      ascii_text (dict_get d "fullname" VNone)
  | _ => true
  end.


(** *** filter_records

    The records are objects that the caller holds too: a record is a
    location of the store, and [ref.score = score] updates the store. *)

Abbreviation store := (gmap nat Reference).

(** [statistics.mean] *)
Definition mean (scores : list Q) : result Q :=
  match scores with
  | [] => Raise StatisticsError
  | _ => Ok (Qsum scores / Qnat (List.length scores))%Q
  end.

(** The loop of [filter_records]: [filtered] and the store after it.
    A record is a live object, so its location is in the store. *)
Fixpoint filter_loop (records : list (nat * Q)) (threshold : Q)
  (filtered : list (nat * Q)) (h : store) : list (nat * Q) * store :=
  match records with
  | [] => (filtered, h)
  | (ref, score) :: rest =>
      let h' := alter (set_score (VFloat score)) ref h in
      if Qle_bool threshold score
      then filter_loop rest threshold (filtered ++ [(ref, score)])%list h'
      else filter_loop rest threshold filtered h'
  end.

Definition filter_records (records : list (nat * Q)) (threshold : Q)
  (h : store) : result (list nat * Q) * store :=
  let '(filtered, h') := filter_loop records threshold [] h in
  if (List.length filtered =? 0)%nat then (Ok ([], 0%Q), h')
  else
    (composite <- mean (map snd filtered) ;;
     Ok (map fst filtered, composite),
     h').

(** *** The words of the specification, for the filter *)

(** [ref.score = score] for one pair. *)
Definition assign (h : store) (p : nat * Q) : store :=
  alter (set_score (VFloat (snd p))) (fst p) h.

(** The pairs whose score is at least the threshold, in their order. *)
Definition retained (threshold : Q) (records : list (nat * Q))
  : list (nat * Q) :=
  List.filter (fun p => Qle_bool threshold (snd p)) records.

End Normalize.

(* ================================================================== *)
(** ** Data for examples *)
(* ================================================================== *)

Module Examples.
Import Py Domain.

(** An environment without word filters, as when the data files are
    missing: [clean_text] returns its text, and no identifier pattern
    accepts anything. *)
Definition clean_text0 (numok : option bool) (text : obj) : result string :=
  match text with
  | VStr s => Ok s
  | _ => Raise TypeError
  end.

Definition no_match (s : string) : bool := false.

Definition no_filters : option ((string -> bool) * (string -> bool)) := None.

(** [Reference(source='Matthew', volume='uuddlrlrba', year=2011)], the
    first record of the tests. *)
Definition matthew : Reference :=
  mkReference (VStr "") VNone (VStr "Matthew") (VInt 2011)
    (VStr "uuddlrlrba") VNone VNone (VList []) (VList []) VNone VNone
    (VStr "") (VFloat 0).

(** Modelled from the spec: the registry of archive category codes,
    [taxonomy.ARCHIVES] of the package [arxiv], which is not among the
    sources.  The archives of arXiv, in alphabetical order. *)
Definition ARCHIVES : list string :=
  [ "acc-phys"; "adap-org"; "alg-geom"; "ao-sci"; "astro-ph"; "atom-ph";
    "bayes-an"; "chao-dyn"; "chem-ph"; "cmp-lg"; "comp-gas"; "cond-mat";
    "cs"; "dg-ga"; "econ"; "eess"; "funct-an"; "gr-qc"; "hep-ex";
    "hep-lat"; "hep-ph"; "hep-th"; "math"; "math-ph"; "mtrl-th"; "nlin";
    "nucl-ex"; "nucl-th"; "patt-sol"; "physics"; "plasm-ph"; "q-alg";
    "q-bio"; "q-fin"; "quant-ph"; "solv-int"; "stat"; "supr-con"; "test" ].

(** A record that cites two papers in one identifier field, each with
    the hyphen of its archive dropped. *)
Definition two_identifiers : Reference :=
  mkReference (VStr "") (VStr "Black holes") (VStr "Nucl. Phys. B")
    (VStr "1997") VNone VNone VNone (VList []) (VList []) VNone
    (VStr "hepth/9702155 hepph/9702170") (VStr "") (VFloat 0).

(** A record with one identifier. *)
Definition one_identifier : Reference :=
  mkReference (VStr "") (VStr "[1] Black holes.") (VStr "nucl. phys. b")
    (VStr "1997") VNone VNone VNone
    (VList [VDict [("givennames", VStr "j. r."); ("surname", VStr "doe")]])
    (VList []) VNone (VStr "hepth/9702155") (VStr "") (VFloat 0).

(** The records of the tests of [filter_records], [Reference(title=...)]
    with the titles bar, bat and ipsum, at the locations 0, 1 and 2 of
    the store, and their scores. *)
Definition titled (t : string) : Reference :=
  mkReference (VStr "") (VStr t) VNone VNone VNone VNone VNone (VList [])
    (VList []) VNone VNone (VStr "") (VFloat 0).

Definition test_store : gmap nat Reference :=
  <[0%nat := titled "bar"]> (<[1%nat := titled "bat"]>
    (<[2%nat := titled "ipsum"]> ∅)).

Definition test_records : list (nat * Q) :=
  [ (0%nat, 1 # 10); (1%nat, 4 # 10); (2%nat, 9 # 10) ]%Q.

(** A record with a page range, an author, an ISBN and a DOI. *)
Definition paged : Reference :=
  mkReference (VStr "") (VStr "Black holes") (VStr "Nucl. Phys. B")
    (VStr "1997") (VStr "12") (VStr "123-130") VNone
    (VList [VDict [("givennames", VStr "j. r."); ("surname", VStr "doe")]])
    (VList [VDict [("identifier_type", VStr "isbn");
                   ("identifier", VStr "0306406152")]])
    (VStr "10.1000/182") VNone (VStr "") (VFloat 0).

(** A pattern that accepts the texts of ten characters. *)
Definition ten_characters (s : string) : bool := (String.length s =? 10)%nat.

(** The number of records of the tests that [filter_records] keeps. *)
Definition kept_count (threshold : Q) : option nat :=
  match fst (Normalize.filter_records test_records threshold test_store) with
  | Ok (kept, _) => Some (List.length kept)
  | Raise _ => None
  end.

End Examples.

(* ================================================================== *)
(** ** Facts about the built-ins *)
(* ================================================================== *)

Module PyFacts.
Import Py.

(** A case for each of the 256 characters. *)
Ltac ascii_cases c := destruct c as [[] [] [] [] [] [] [] []].

(** *** Dictionaries *)

Lemma dict_lookup_set_same {A : Type} (k : string) (v : A) d :
  dict_lookup k (dict_set k v d) = Some v.
Proof.
  induction d as [|[k' v'] t IH]; simpl.
  - now rewrite String.eqb_refl.
  - destruct (String.eqb k k') eqn:E; simpl; rewrite ?String.eqb_refl, ?E; auto.
Qed.

Lemma dict_lookup_set_other {A : Type} (k k' : string) (v : A) d :
  k' <> k -> dict_lookup k' (dict_set k v d) = dict_lookup k' d.
Proof.
  intros Hne. induction d as [|[k0 v0] t IH]; simpl.
  - apply String.eqb_neq in Hne. now rewrite Hne.
  - destruct (String.eqb k k0) eqn:E; simpl.
    + apply String.eqb_eq in E as <-.
      apply String.eqb_neq in Hne. now rewrite Hne.
    + destruct (String.eqb k' k0); auto.
Qed.

Lemma dict_set_id {A : Type} (k : string) (v : A) d :
  dict_lookup k d = Some v -> dict_set k v d = d.
Proof.
  induction d as [|[k' v'] t IH]; simpl; [discriminate|].
  destruct (String.eqb k k') eqn:E.
  - apply String.eqb_eq in E as ->. now intros [= ->].
  - intros H. now rewrite IH.
Qed.

Lemma dict_get_set_same {A : Type} (k : string) (v default : A) d :
  dict_get (dict_set k v d) k default = v.
Proof. unfold dict_get. now rewrite dict_lookup_set_same. Qed.

Lemma dict_get_set_other {A : Type} (k k' : string) (v default : A) d :
  k' <> k -> dict_get (dict_set k v d) k' default = dict_get d k' default.
Proof.
  intros H. unfold dict_get. now rewrite dict_lookup_set_other.
Qed.

Lemma dict_set_twice {A : Type} (k : string) (v : A) d :
  dict_set k v (dict_set k v d) = dict_set k v d.
Proof. apply dict_set_id, dict_lookup_set_same. Qed.

(** *** Sums and counts *)

Lemma fold_Qplus_shift (l : list Q) (a : Q) :
  (fold_left Qplus l a == a + Qsum l)%Q.
Proof.
  unfold Qsum. revert a; induction l as [|x t IH]; intros a; simpl.
  - ring.
  - rewrite IH, (IH (0 + x)%Q). ring.
Qed.

Lemma Qnat_S_nonzero (n : nat) : Qeq_bool (Qnat (S n)) 0 = false.
Proof.
  apply not_true_iff_false. intros H. apply Qeq_bool_iff in H.
  unfold Qnat, Qeq in H. simpl in H. lia.
Qed.

Lemma Qnat_S (n : nat) : (Qnat (S n) == 1 + Qnat n)%Q.
Proof.
  unfold Qnat. rewrite Nat2Z.inj_succ, <- Z.add_1_l, inject_Z_plus. reflexivity.
Qed.

Lemma Qsum_cons (x : Q) (l : list Q) : (Qsum (x :: l) == x + Qsum l)%Q.
Proof.
  unfold Qsum at 1. simpl. rewrite fold_Qplus_shift. ring.
Qed.

Lemma Qnat_pos_nonzero (n : nat) : (0 < n)%nat -> Qeq_bool (Qnat n) 0 = false.
Proof.
  destruct n; [lia|]. intros _. apply Qnat_S_nonzero.
Qed.

End PyFacts.

(* ================================================================== *)
(** ** Facts about strings and the matcher *)
(* ================================================================== *)

Module ReFacts.
Import Py Re.

Lemma drop_drop (a b : nat) (s : string) : drop b (drop a s) = drop (a + b) s.
Proof.
  revert s; induction a as [|a IH]; intros s; simpl; [reflexivity|].
  destruct s as [|c t]; [destruct b; reflexivity | apply IH].
Qed.

Lemma length_drop (n : nat) (s : string) :
  String.length (drop n s) = (String.length s - n)%nat.
Proof.
  revert s; induction n as [|n IH]; intros [|c t]; simpl; auto with arith.
Qed.

Lemma append_cons (c : ascii) (s t : string) :
  String c s ++ t = String c (s ++ t).
Proof. reflexivity. Qed.

Lemma append_nil (t : string) : "" ++ t = t.
Proof. reflexivity. Qed.

Lemma length_take (n : nat) (s : string) :
  (n <= String.length s)%nat -> String.length (take n s) = n.
Proof.
  revert s; induction n as [|n IH]; intros [|c t]; simpl; intros H; auto.
  - lia.
  - rewrite IH; [reflexivity | lia].
Qed.

Lemma run_le (p : ascii -> bool) (s : string) : (run p s <= String.length s)%nat.
Proof. induction s as [|c t IH]; simpl; [lia | destruct (p c); lia]. Qed.

Lemma all_take_run (p : ascii -> bool) (s : string) :
  all p (take (run p s) s) = true.
Proof.
  induction s as [|c t IH]; simpl; [reflexivity|].
  destruct (p c) eqn:E; simpl; [now rewrite E | reflexivity].
Qed.

(** *** Repetitions *)

Section Star.
Context {R : Type} (p : ascii -> bool).

(** When what follows always succeeds, a repetition takes the longest
    run. *)
Lemma star_total (k : cont R) :
  (forall pos s caps, k pos s caps <> None) ->
  forall s pos caps,
    star p pos s caps k = k (pos + run p s)%nat (drop (run p s) s) caps.
Proof.
  intros Hk; induction s as [|c t IH]; intros pos caps; simpl.
  - now rewrite Nat.add_0_r.
  - destruct (p c).
    + rewrite IH. replace (S pos + run p t)%nat with (pos + S (run p t))%nat by lia.
      simpl. destruct (k _ _ _) eqn:E; [reflexivity | now apply Hk in E].
    + now rewrite Nat.add_0_r.
Qed.

Lemma star_sound (k : cont R) (x : R) :
  forall s pos caps,
    star p pos s caps k = Some x ->
    exists n, (n <= String.length s)%nat /\ all p (take n s) = true /\
              k (pos + n)%nat (drop n s) caps = Some x.
Proof.
  induction s as [|c t IH]; intros pos caps; simpl.
  - intros H. exists 0%nat. now rewrite Nat.add_0_r.
  - destruct (p c) eqn:E.
    + destruct (star p (S pos) t caps k) eqn:Es.
      * intros H; injection H as ->.
        destruct (IH _ _ Es) as (n & Hn & Ha & Hk).
        exists (S n). simpl. rewrite E, Ha.
        replace (pos + S n)%nat with (S pos + n)%nat by lia.
        repeat split; [lia | exact Hk].
      * intros H. exists 0%nat. rewrite Nat.add_0_r.
        repeat split; [lia | exact H].
    + intros H. exists 0%nat. rewrite Nat.add_0_r.
      repeat split; [lia | exact H].
Qed.

Lemma star_complete (k : cont R) :
  forall s pos caps n,
    (n <= String.length s)%nat -> all p (take n s) = true ->
    k (pos + n)%nat (drop n s) caps <> None ->
    star p pos s caps k <> None.
Proof.
  induction s as [|c t IH]; intros pos caps n Hn Ha Hk; simpl.
  - simpl in Hn. assert (n = 0%nat) as -> by lia.
    now rewrite Nat.add_0_r in Hk.
  - destruct n as [|n].
    + rewrite Nat.add_0_r in Hk. simpl in Hk.
      destruct (p c); [destruct (star p (S pos) t caps k)|]; congruence.
    + simpl in Hn, Ha, Hk. apply andb_true_iff in Ha as [Hc Ha]. rewrite Hc.
      replace (pos + S n)%nat with (S pos + n)%nat in Hk by lia.
      assert (Hs := IH (S pos) caps n ltac:(lia) Ha Hk).
      destruct (star p (S pos) t caps k); congruence.
Qed.

End Star.

(** *** The matcher finds a match when there is one, and only then *)

Lemma m_sound {R : Type} (r : re) :
  forall pos s caps (k : cont R) x,
    m r pos s caps k = Some x ->
    exists n caps',
      Matches r pos s caps n caps' /\ (n <= String.length s)%nat /\
      k (pos + n)%nat (drop n s) caps' = Some x.
Proof.
  induction r as [| |p|p|p|r1 IH1 r2 IH2|r1 IH1 r2 IH2|r1 IH1|r1 IH1];
    intros pos s caps k x; simpl.
  - destruct (pos =? 0)%nat eqn:E; [|discriminate].
    apply Nat.eqb_eq in E. intros H. exists 0%nat, caps.
    rewrite Nat.add_0_r. repeat split; auto. lia.
  - destruct (at_eol s) eqn:E; [|discriminate].
    intros H. exists 0%nat, caps. rewrite Nat.add_0_r. repeat split; auto. lia.
  - destruct s as [|c t]; [discriminate|]. destruct (p c) eqn:E; [|discriminate].
    intros H. exists 1%nat, caps.
    replace (pos + 1)%nat with (S pos) by lia. simpl.
    repeat split; eauto. lia.
  - unfold plus. destruct s as [|c t]; [discriminate|].
    destruct (p c) eqn:E; [|discriminate]. intros H.
    destruct (star_sound p k x _ _ _ H) as (n & Hn & Ha & Hk).
    exists (S n), caps. simpl. rewrite E, Ha.
    replace (pos + S n)%nat with (S pos + n)%nat by lia.
    repeat split; auto; lia.
  - intros H. destruct (star_sound p k x _ _ _ H) as (n & Hn & Ha & Hk).
    exists n, caps. repeat split; auto.
  - intros H. apply IH1 in H as (n1 & c1 & M1 & L1 & H).
    apply IH2 in H as (n2 & c2 & M2 & L2 & H).
    rewrite length_drop in L2. rewrite drop_drop in H.
    exists (n1 + n2)%nat, c2. rewrite Nat.add_assoc.
    repeat split; [exists n1, n2, c1; auto | lia | exact H].
  - destruct (m r1 pos s caps k) eqn:E1.
    + intros H; injection H as ->. apply IH1 in E1 as (n & c & M & L & H).
      exists n, c. auto.
    + intros H. apply IH2 in H as (n & c & M & L & H). exists n, c. auto.
  - destruct (m r1 pos s caps k) eqn:E1.
    + intros H; injection H as ->. apply IH1 in E1 as (n & c & M & L & H).
      exists n, c. auto.
    + intros H. exists 0%nat, caps. rewrite Nat.add_0_r.
      repeat split; auto. lia.
  - intros H. apply IH1 in H as (n & c & M & L & H).
    replace (pos + n - pos)%nat with n in H by lia.
    exists n, (c ++ [take n s])%list. repeat split; eauto.
Qed.

Lemma m_complete {R : Type} (r : re) :
  forall pos s caps n caps' (k : cont R),
    Matches r pos s caps n caps' ->
    k (pos + n)%nat (drop n s) caps' <> None ->
    m r pos s caps k <> None.
Proof.
  induction r as [| |p|p|p|r1 IH1 r2 IH2|r1 IH1 r2 IH2|r1 IH1|r1 IH1];
    intros pos s caps n caps' k; simpl.
  - intros (-> & -> & ->). now rewrite Nat.add_0_r.
  - intros (-> & -> & ->). now rewrite Nat.add_0_r.
  - intros (-> & -> & c & t & -> & ->).
    now replace (pos + 1)%nat with (S pos) by lia.
  - intros (H1 & Hn & Ha & ->) Hk. unfold plus.
    destruct n as [|n]; [lia|]. destruct s as [|c t]; [simpl in Hn; lia|].
    simpl in Hn, Ha, Hk. apply andb_true_iff in Ha as [-> Ha].
    replace (pos + S n)%nat with (S pos + n)%nat in Hk by lia.
    apply (star_complete p k t (S pos) caps n); auto. lia.
  - intros (Hn & Ha & ->) Hk. now apply (star_complete p k s pos caps n).
  - intros (n1 & n2 & c1 & M1 & M2 & ->) Hk.
    apply (IH1 _ _ _ _ _ _ M1). apply (IH2 _ _ _ _ _ _ M2).
    now rewrite drop_drop, <- Nat.add_assoc.
  - intros [M|M] Hk.
    + assert (H := IH1 _ _ _ _ _ k M Hk).
      destruct (m r1 pos s caps k); congruence.
    + assert (H := IH2 _ _ _ _ _ k M Hk).
      destruct (m r1 pos s caps k); congruence.
  - intros [M|(-> & ->)] Hk.
    + assert (H := IH1 _ _ _ _ _ k M Hk).
      destruct (m r1 pos s caps k); congruence.
    + rewrite Nat.add_0_r in Hk. simpl in Hk.
      destruct (m r1 pos s caps k); congruence.
  - intros (c1 & M & ->) Hk. apply (IH1 _ _ _ _ _ _ M).
    now replace (pos + n - pos)%nat with n by lia.
Qed.

(** A match ends inside the subject. *)
Lemma match_at_bounds (r : re) (pos : nat) (s : string) pos' caps :
  match_at r pos s = Some (pos', caps) ->
  (pos <= pos' <= pos + String.length s)%nat.
Proof.
  unfold match_at. intros H.
  apply m_sound in H as (n & c & _ & L & H). injection H as <- _. lia.
Qed.

End ReFacts.

(* ================================================================== *)
(** ** The belief engine *)
(* ================================================================== *)

Module BeliefFacts.
Import Py Re Domain Beliefs PyFacts.

Section Environment.

Variable clean_text : option bool -> obj -> result string.
Variables REGEX_DOI REGEX_ISBN_10 REGEX_ISBN_13 REGEX_ARXIV_STRICT
  : string -> bool.
Variable bloom_filters : option ((string -> bool) * (string -> bool)).

Local Abbreviation BELIEF_FUNCTIONS :=
  (BELIEF_FUNCTIONS clean_text REGEX_DOI REGEX_ISBN_10 REGEX_ISBN_13
     REGEX_ARXIV_STRICT bloom_filters).
Local Abbreviation calculate_belief :=
  (calculate_belief clean_text REGEX_DOI REGEX_ISBN_10 REGEX_ISBN_13
     REGEX_ARXIV_STRICT bloom_filters).
Local Abbreviation score_items :=
  (score_items clean_text REGEX_DOI REGEX_ISBN_10 REGEX_ISBN_13
     REGEX_ARXIV_STRICT bloom_filters).
Local Abbreviation mean_belief :=
  (mean_belief clean_text REGEX_DOI REGEX_ISBN_10 REGEX_ISBN_13
     REGEX_ARXIV_STRICT bloom_filters).
Local Abbreviation field_belief :=
  (field_belief clean_text REGEX_DOI REGEX_ISBN_10 REGEX_ISBN_13
     REGEX_ARXIV_STRICT bloom_filters).
Local Abbreviation field_event :=
  (field_event clean_text REGEX_DOI REGEX_ISBN_10 REGEX_ISBN_13
     REGEX_ARXIV_STRICT bloom_filters).
Local Abbreviation valid_identifier :=
  (valid_identifier REGEX_ISBN_10 REGEX_ISBN_13).
Local Abbreviation count_identifier :=
  (count_identifier REGEX_ISBN_10 REGEX_ISBN_13).

(** Every field has at least one function: the divisor is never zero. *)
Lemma registered_nonempty (key : string) :
  dict_get BELIEF_FUNCTIONS key [unity] <> [].
Proof.
  unfold dict_get, Beliefs.BELIEF_FUNCTIONS. simpl.
  repeat match goal with
         | |- context [String.eqb key ?k] => destruct (String.eqb key k)
         end; discriminate.
Qed.

(** *** The inner loop *)

Lemma run_funcs_score key value funcs :
  forall i score tr,
    (fst (run_funcs key value funcs i score tr)
     == score + Qsum (map (contribution value) funcs))%Q.
Proof.
  induction funcs as [|f rest IH]; intros i score tr; simpl.
  - unfold Qsum; simpl. ring.
  - unfold Qsum at 1. simpl. rewrite fold_Qplus_shift.
    unfold contribution at 1.
    destruct (f value) as [x|e]; rewrite IH; ring.
Qed.

(** The trace grows, and what is added speaks of [key] only: calls, and
    the exceptions that functions of the list raised on [value]. *)
Lemma run_funcs_trace key value funcs :
  forall i score tr,
    exists added,
      snd (run_funcs key value funcs i score tr) = (tr ++ added)%list /\
      Forall (fun ev =>
                match ev with
                | Invoked k _ => k = key
                | Logged k e =>
                    k = key /\ exists f, In f funcs /\ f value = Raise e
                end) added.
Proof.
  induction funcs as [|f rest IH]; intros i score tr; simpl.
  - exists []. now rewrite app_nil_r.
  - destruct (f value) as [x|e] eqn:E.
    + destruct (IH (S i) (score + x)%Q (tr ++ [Invoked key i])%list)
        as (added & Hsnd & Hall).
      exists (Invoked key i :: added). rewrite Hsnd, <- app_assoc.
      split; [reflexivity|].
      constructor; [reflexivity|].
      eapply List.Forall_impl; [|exact Hall].
      intros [k j|k e'] H; auto. destruct H as (-> & g & Hg & Hr); eauto.
    + destruct (IH (S i) score (tr ++ [Invoked key i; Logged key e])%list)
        as (added & Hsnd & Hall).
      exists (Invoked key i :: Logged key e :: added).
      rewrite Hsnd, <- app_assoc. split; [reflexivity|].
      constructor; [reflexivity|]. constructor; [eauto|].
      eapply List.Forall_impl; [|exact Hall].
      intros [k j|k e'] H; auto. destruct H as (-> & g & Hg & Hr); eauto.
Qed.

(** *** The outer loop *)

Lemma score_items_spec (items : list (string * obj)) :
  List.NoDup (map fst items) ->
  forall output tr,
    exists output' added,
      score_items items output tr = Ok (output', (tr ++ added)%list) /\
      (forall key value, In (key, value) items ->
         exists b, dict_lookup key output' = Some b /\ field_belief key value b) /\
      (forall key, ~ In key (map fst items) ->
         dict_lookup key output' = dict_lookup key output) /\
      Forall (field_event items) added.
Proof.
  induction items as [|[key value] rest IH]; intros Hnd output tr.
  - exists output, []. simpl. rewrite app_nil_r. repeat split; auto.
    intros ? ? [].
  - inversion Hnd as [|? ? Hnotin Hnd']; subst. simpl.
    destruct (truthy value) eqn:Ht; simpl.
    + destruct (run_funcs key value _ 0 0%Q tr) as [score tr'] eqn:Er.
      assert (Hs := run_funcs_score key value
                      (dict_get BELIEF_FUNCTIONS key [unity]) 0 0%Q tr).
      destruct (run_funcs_trace key value
                  (dict_get BELIEF_FUNCTIONS key [unity]) 0 0%Q tr)
        as (added1 & Htr & Hev).
      rewrite Er in Hs, Htr. simpl in Hs, Htr. subst tr'.
      assert (Hne := registered_nonempty key).
      destruct (dict_get BELIEF_FUNCTIONS key [unity]) as [|f0 fs] eqn:Ef;
        [congruence|]. clear Hne.
      unfold div. change (List.length (f0 :: fs)) with (S (List.length fs)).
      rewrite Qnat_S_nonzero. simpl.
      destruct (IH Hnd' (dict_set key (score / Qnat (S (List.length fs)))%Q output)
                  (tr ++ added1)%list)
        as (output' & added2 & Hrun & Hfields & Hother & Hev2).
      exists output', (added1 ++ added2)%list.
      rewrite app_assoc. split; [exact Hrun|]. split; [|split].
      * intros k v [Heq|Hin].
        -- injection Heq as <- <-.
           rewrite (Hother key Hnotin), dict_lookup_set_same.
           eexists; split; [reflexivity|].
           unfold Beliefs.field_belief, Beliefs.mean_belief. rewrite Ht, Ef, Hs.
           change (List.length (f0 :: fs)) with (S (List.length fs)). field.
           intros H. apply Qeq_bool_iff in H. now rewrite Qnat_S_nonzero in H.
        -- apply Hfields, Hin.
      * intros k Hk. rewrite Hother by (intros H; apply Hk; right; exact H).
        apply dict_lookup_set_other. intros ->. apply Hk. now left.
      * apply List.Forall_app. split.
        -- eapply List.Forall_impl; [|exact Hev]. intros ev H.
           exists value. destruct ev as [k j|k e].
           ++ subst k. simpl. auto.
           ++ destruct H as (-> & f & Hf & Hr). simpl. rewrite Ef. eauto 6.
        -- eapply List.Forall_impl; [|exact Hev2]. intros ev (v & Hin & Hv).
           exists v. simpl. auto.
    + destruct (IH Hnd' (dict_set key 1%Q output) tr)
        as (output' & added & Hrun & Hfields & Hother & Hev).
      exists output', added. split; [exact Hrun|]. split; [|split].
      * intros k v [Heq|Hin].
        -- injection Heq as <- <-.
           rewrite (Hother key Hnotin), dict_lookup_set_same.
           eexists; split; [reflexivity|].
           unfold Beliefs.field_belief. now rewrite Ht.
        -- apply Hfields, Hin.
      * intros k Hk. rewrite Hother by (intros H; apply Hk; right; exact H).
        apply dict_lookup_set_other. intros ->. apply Hk. now left.
      * eapply List.Forall_impl; [|exact Hev]. intros ev (v & Hin & Hv).
        exists v. simpl. auto.
Qed.

Lemma to_dict_keys (reference : Reference) :
  List.NoDup (map fst (to_dict reference)).
Proof.
  simpl. repeat (constructor; [simpl; intuition discriminate|]). constructor.
Qed.

Lemma keys_functional {A : Type} (l : list (string * A)) k v1 v2 :
  List.NoDup (map fst l) -> In (k, v1) l -> In (k, v2) l -> v1 = v2.
Proof.
  induction l as [|[k0 v0] t IH]; simpl; intros Hnd H1 H2; [contradiction|].
  inversion Hnd as [|? ? Hnotin Hnd']; subst.
  destruct H1 as [H1|H1], H2 as [H2|H2].
  - congruence.
  - injection H1 as -> ->. exfalso. apply Hnotin.
    change k with (fst (k, v2)). now apply in_map.
  - injection H2 as -> ->. exfalso. apply Hnotin.
    change k with (fst (k, v1)). now apply in_map.
  - now apply IH.
Qed.

(** With only empty fields the loop stores ones and calls nothing. *)
Lemma score_items_all_empty (items : list (string * obj)) :
  (forall key value, In (key, value) items -> truthy value = false) ->
  forall output tr,
    Forall (fun kv => snd kv = 1%Q) output ->
    exists output',
      score_items items output tr = Ok (output', tr) /\
      Forall (fun kv => snd kv = 1%Q) output'.
Proof.
  induction items as [|[key value] rest IH]; intros Hall output tr Hout; simpl.
  - eauto.
  - rewrite (Hall key value) by now left. simpl.
    apply IH; [intros k v H; apply (Hall k v); now right|].
    clear -Hout. induction Hout as [|[k v] t Hk Ht IHt]; simpl.
    + repeat constructor.
    + destruct (String.eqb key k); constructor; auto.
Qed.

(** *** The statements about [calculate_belief] *)

(** C1. For every record and every populated field, [calculate_belief]
    returns (no exception leaves it) a map that gives the field the sum
    of the outputs of the functions registered for its name, a function
    that raises adding nothing, divided by the number of those
    functions; a name without registered functions has the one function
    [unity], and the belief 1. *)
Theorem calculate_belief_mean (reference : Reference) :
  exists output tr,
    calculate_belief reference = Ok (output, tr) /\
    forall key value,
      In (key, value) (to_dict reference) -> truthy value = true ->
      exists b,
        dict_lookup key output = Some b /\
        (b == Qsum (map (contribution value)
                      (dict_get BELIEF_FUNCTIONS key [unity]))
              / Qnat (List.length (dict_get BELIEF_FUNCTIONS key [unity])))%Q /\
        (dict_lookup key BELIEF_FUNCTIONS = None -> (b == 1)%Q).
Proof.
  destruct (score_items_spec (to_dict reference) (to_dict_keys reference) [] [])
    as (output & added & Hrun & Hfields & _ & _).
  exists output, added. split; [exact Hrun|].
  intros key value Hin Ht.
  destruct (Hfields key value Hin) as (b & Hb & Hbel).
  unfold Beliefs.field_belief in Hbel. rewrite Ht in Hbel.
  exists b. split; [exact Hb|]. split; [exact Hbel|].
  intros Hnone. rewrite Hbel. unfold Beliefs.mean_belief, dict_get.
  rewrite Hnone. reflexivity.
Qed.

(** C2. A field whose value is falsy gets the belief 1.0, and the trace
    holds no call and no logged failure for it; for a record with only
    falsy fields every value of the map is 1.0 and nothing is called. *)
Theorem empty_field_belief_one (reference : Reference) :
  exists output tr,
    calculate_belief reference = Ok (output, tr) /\
    (forall key value,
       In (key, value) (to_dict reference) -> truthy value = false ->
       dict_lookup key output = Some 1%Q /\
       forall ev, In ev tr -> key_of ev <> key) /\
    ((forall key value,
        In (key, value) (to_dict reference) -> truthy value = false) ->
     Forall (fun kv => snd kv = 1%Q) output /\ tr = []).
Proof.
  destruct (score_items_spec (to_dict reference) (to_dict_keys reference) [] [])
    as (output & added & Hrun & Hfields & _ & Hev).
  exists output, added. split; [exact Hrun|]. split.
  - intros key value Hin Hf. split.
    + destruct (Hfields key value Hin) as (b & Hb & Hbel).
      unfold Beliefs.field_belief in Hbel. rewrite Hf in Hbel. now subst b.
    + intros ev Hin' Hkey. rewrite List.Forall_forall in Hev.
      destruct (Hev ev Hin') as (v & Hv & Htrue & _). rewrite Hkey in Hv.
      rewrite (keys_functional _ _ _ _ (to_dict_keys reference) Hin Hv) in Hf.
      congruence.
  - intros Hall.
    destruct (score_items_all_empty (to_dict reference) Hall [] [])
      as (output' & Hrun' & Hones); [constructor|].
    unfold Beliefs.calculate_belief in *. rewrite Hrun' in Hrun.
    injection Hrun as <- <-. auto.
Qed.

(** *** Identifiers *)





End Environment.

(** *** Years given as numbers *)

Lemma is_year_like_not_str (value : obj) :
  is_str value = false -> is_year_like value = Ok 0%Q.
Proof. destruct value; simpl; try reflexivity; discriminate. Qed.

Section Year.

Variable clean_text : option bool -> obj -> result string.
Variables REGEX_DOI REGEX_ISBN_10 REGEX_ISBN_13 REGEX_ARXIV_STRICT
  : string -> bool.
Variable bloom_filters : option ((string -> bool) * (string -> bool)).

Local Abbreviation calculate_belief :=
  (calculate_belief clean_text REGEX_DOI REGEX_ISBN_10 REGEX_ISBN_13
     REGEX_ARXIV_STRICT bloom_filters).

(** C10. On a value that is not a [str], [is_year_like] returns 0.0: the
    [TypeError] of [re.findall] is caught inside it.  So a record whose
    year is a non-zero [int] gets a year belief of 3/4 when the year is
    between 1600 and 2100, and of 1/2 otherwise, never 1.0. *)
Theorem is_year_like_non_string :
  (forall value, is_str value = false -> is_year_like value = Ok 0%Q) /\
  (forall reference n,
     year reference = VInt n -> n <> 0%Z ->
     exists output tr b,
       calculate_belief reference = Ok (output, tr) /\
       dict_lookup "year" output = Some b /\
       (b == if (1600 <? n)%Z && (n <? 2100)%Z then 3 # 4 else 1 # 2)%Q /\
       (b < 1)%Q).
Proof.
  split; [exact is_year_like_not_str|].
  intros reference n Hy Hn.
  destruct (score_items_spec clean_text REGEX_DOI REGEX_ISBN_10 REGEX_ISBN_13
              REGEX_ARXIV_STRICT bloom_filters
              (to_dict reference) (to_dict_keys reference) [] [])
    as (output & added & Hrun & Hfields & _ & _).
  destruct (Hfields "year" (VInt n)) as (b & Hb & Hbel).
  { rewrite <- Hy. simpl. tauto. }
  exists output, added, b. split; [exact Hrun|]. split; [exact Hb|].
  unfold Beliefs.field_belief in Hbel. simpl in Hbel.
  apply Z.eqb_neq in Hn. rewrite Hn in Hbel. simpl in Hbel.
  assert (Hval : (b == if (1600 <? n)%Z && (n <? 2100)%Z then 3 # 4 else 1 # 2)%Q).
  { rewrite Hbel. unfold Beliefs.mean_belief, dict_get, contribution. simpl.
    unfold is_year. simpl.
    destruct ((1600 <? n)%Z && (n <? 2100)%Z); reflexivity. }
  split; [exact Hval|]. rewrite Hval.
  destruct ((1600 <? n)%Z && (n <? 2100)%Z); reflexivity.
Qed.

End Year.

(** *** The first record of the tests

    [Reference(source='Matthew', volume='uuddlrlrba', year=2011)], scored
    without word filters. *)

Local Abbreviation calculate_belief0 :=
  (calculate_belief Examples.clean_text0 Examples.no_match Examples.no_match
     Examples.no_match Examples.no_match Examples.no_filters).

Example matthew_beliefs :
  exists tr,
    calculate_belief0 Examples.matthew
    = Ok ([ ("raw", 1); ("title", 1); ("source", 1); ("year", 3 # 4);
            ("volume", 8 # 10); ("pages", 1); ("issue", 1); ("authors", 1);
            ("identifiers", 1); ("doi", 1); ("arxiv_id", 1); ("reftype", 1);
            ("score", 1) ]%Q, tr).
Proof. eexists. vm_compute. reflexivity. Qed.

(** The mean at that record: the year, a number, gets three quarters, since
    [is_year_like] fails on it and the three other functions give 1. *)
Lemma calculate_belief_mean_witness :
  exists output tr b,
    calculate_belief0 Examples.matthew = Ok (output, tr) /\
    dict_lookup "year" output = Some b /\ (b == 3 # 4)%Q.
Proof.
  destruct (calculate_belief_mean Examples.clean_text0 Examples.no_match
              Examples.no_match Examples.no_match Examples.no_match
              Examples.no_filters Examples.matthew)
    as (output & tr & Hrun & Hfields).
  destruct (Hfields "year" (VInt 2011)) as (b & Hb & Hmean & _);
    [simpl; tauto | reflexivity |].
  exists output, tr, b. split; [exact Hrun|]. split; [exact Hb|].
  rewrite Hmean. vm_compute. reflexivity.
Defined.

(** Empty fields at that record, which has no title: the title gets 1.0; and at
    the record without any value, where every belief is 1.0. *)
Lemma empty_field_belief_one_witness :
  (exists output tr,
     calculate_belief0 Examples.matthew = Ok (output, tr) /\
     dict_lookup "title" output = Some 1%Q /\
     ~ In (Invoked "title" 0) tr) /\
  (exists output,
     calculate_belief0 blank = Ok (output, []) /\
     Forall (fun kv => snd kv = 1%Q) output).
Proof.
  split.
  - destruct (empty_field_belief_one Examples.clean_text0 Examples.no_match
                Examples.no_match Examples.no_match Examples.no_match
                Examples.no_filters Examples.matthew)
      as (output & tr & Hrun & Hempty & _).
    destruct (Hempty "title" VNone) as (Hone & Hquiet);
      [simpl; tauto | reflexivity |].
    exists output, tr. split; [exact Hrun|]. split; [exact Hone|].
    intros Hin. now apply (Hquiet _ Hin).
  - destruct (empty_field_belief_one Examples.clean_text0 Examples.no_match
                Examples.no_match Examples.no_match Examples.no_match
                Examples.no_filters blank)
      as (output & tr & Hrun & _ & Hall).
    destruct Hall as (Hones & ->).
    + intros key value Hin. simpl in Hin.
      repeat (destruct Hin as [Hin|Hin]; [injection Hin as <- <-; reflexivity|]).
      contradiction.
    + exists output. split; [exact Hrun | exact Hones].
Defined.


(** The year of that record is the number 2011. *)
Lemma is_year_like_non_string_witness :
  is_year_like (VInt 2011) = Ok 0%Q /\
  exists output tr b,
    calculate_belief0 Examples.matthew = Ok (output, tr) /\
    dict_lookup "year" output = Some b /\ (b == 3 # 4)%Q /\ (b < 1)%Q.
Proof.
  destruct (is_year_like_non_string Examples.clean_text0 Examples.no_match
              Examples.no_match Examples.no_match Examples.no_match
              Examples.no_filters) as (Hlike & Hyear).
  split; [apply Hlike; reflexivity|].
  destruct (Hyear Examples.matthew 2011%Z) as (output & tr & b & H1 & H2 & H3 & H4);
    [reflexivity | discriminate |].
  exists output, tr, b. auto.
Defined.

End BeliefFacts.

(* ================================================================== *)
(** ** The scorers of text: integers, years, pages *)
(* ================================================================== *)

Module ScorerFacts.
Import Py Re Domain Beliefs PyFacts ReFacts.

Lemma digit_not_space (c : ascii) : is_digit c = true -> is_space c = false.
Proof. ascii_cases c; vm_compute; congruence. Qed.

Lemma digit_not_sep (c : ascii) : is_digit c = true -> is_page_sep c = false.
Proof. ascii_cases c; vm_compute; congruence. Qed.

Lemma space_is_sep (c : ascii) : is_space c = true -> is_page_sep c = true.
Proof. unfold is_page_sep. now intros ->. Qed.

(** *** [int] on a run of digits *)

Lemma digit_not_int_space (c : ascii) :
  is_digit c = true -> is_int_space c = false.
Proof. ascii_cases c; vm_compute; congruence. Qed.

Lemma lstrip_digit c t :
  is_digit c = true -> lstrip_by is_int_space (String c t) = String c t.
Proof. intros H. simpl. now rewrite (digit_not_int_space c H). Qed.

Lemma rstrip_digits (s : string) :
  all is_digit s = true -> rstrip_by is_int_space s = s.
Proof.
  induction s as [|c t IH]; simpl; [reflexivity|].
  intros H. apply andb_true_iff in H as [Hc Ht]. rewrite (IH Ht).
  destruct t; [now rewrite (digit_not_int_space c Hc) | reflexivity].
Qed.

Lemma parse_digits_all (s : string) : forall acc,
  all is_digit s = true ->
  parse_digits AfterDigit acc s = Some (decimal_from acc s).
Proof.
  induction s as [|c t IH]; intros acc; simpl; [reflexivity|].
  intros H. apply andb_true_iff in H as [-> Ht]. now apply IH.
Qed.

Lemma int_digits (s : string) :
  all is_digit s = true -> s <> "" -> int (VStr s) = Ok (decimal s).
Proof.
  intros Ha Hne. destruct s as [|c t]; [congruence|].
  unfold int, int_of_string.
  assert (Hc : is_digit c = true) by (simpl in Ha; now apply andb_true_iff in Ha).
  rewrite (lstrip_digit c t Hc), (rstrip_digits _ Ha).
  destruct (Ascii.eqb c "+") eqn:E1; [apply Ascii.eqb_eq in E1; now subst|].
  destruct (Ascii.eqb c "-") eqn:E2; [apply Ascii.eqb_eq in E2; now subst|].
  simpl in Ha |- *. apply andb_true_iff in Ha as [_ Ht]. rewrite Hc.
  now rewrite parse_digits_all.
Qed.

Lemma int_str_raises (s : string) e : int (VStr s) = Raise e -> e = ValueError.
Proof. simpl. destruct (int_of_string s); congruence. Qed.

(** *** Integer-like text *)

(** What [re.sub] removes is what the matches cover. *)
Lemma sub_scan_length (r : re) (s : string) : forall pos skip,
  (skip <= String.length s)%nat ->
  (String.length (sub_from r "" pos s skip)
   + list_sum (map (fun mt => (snd (fst mt) - fst (fst mt))%nat)
                   (scan r pos s skip))
   + skip = String.length s)%nat.
Proof.
  induction s as [|c t IH]; intros pos skip Hs; simpl in Hs.
  - assert (skip = 0%nat) as -> by lia. simpl.
    destruct (match_at r pos "") as [[pos' caps]|] eqn:E; simpl; [|reflexivity].
    apply match_at_bounds in E. simpl in E. lia.
  - destruct skip as [|n]; simpl.
    + destruct (match_at r pos (String c t)) as [[pos' caps]|] eqn:E.
      * apply match_at_bounds in E. simpl in E. rewrite append_nil.
        destruct (pos' =? pos)%nat eqn:Ep.
        -- apply Nat.eqb_eq in Ep as ->. simpl.
           replace (pos - pos - 1)%nat with 0%nat by lia.
           specialize (IH (S pos) 0%nat). lia.
        -- apply Nat.eqb_neq in Ep. simpl.
           specialize (IH (S pos) (pos' - pos - 1)%nat). lia.
      * simpl. specialize (IH (S pos) 0%nat). lia.
    + specialize (IH (S pos) n). lia.
Qed.

Lemma matched_length_sub (s : string) :
  (Z.of_nat (String.length s)
   - Z.of_nat (String.length (sub RE_INTEGER "" s)))%Z
  = Z.of_nat (matched_length s).
Proof.
  unfold sub, matched_length.
  assert (H := sub_scan_length RE_INTEGER s 0 0 ltac:(lia)). lia.
Qed.

(** A token of [RE_INTEGER] is a non-empty run of digits. *)
Lemma integer_token pos s pos' caps :
  match_at RE_INTEGER pos s = Some (pos', caps) ->
  exists tok, caps = [tok] /\ all is_digit tok = true /\ tok <> "".
Proof.
  unfold match_at. intros H. apply m_sound in H as (n & c & M & _ & H).
  injection H as _ <-. simpl in M.
  destruct M as (n1 & n' & c1 & H1 & (n3 & n4 & c2 & H3 & H4 & _) & _).
  assert (c1 = []) as ->.
  { destruct H1 as [(_ & _ & ->)|(_ & _ & _ & ->)]; reflexivity. }
  destruct H3 as (c0 & (P & L & A & ->) & ->).
  assert (c = [take n3 (drop n1 s)]) as ->.
  { destruct H4 as [(_ & _ & ->)|(_ & _ & _ & ->)]; reflexivity. }
  eexists. split; [reflexivity|]. split; [exact A|].
  intros E. apply (f_equal String.length) in E.
  rewrite length_take in E by exact L. simpl in E. lia.
Qed.

Lemma scan_tokens (s : string) : forall pos skip,
  Forall (fun mt => exists tok,
            snd mt = [tok] /\ all is_digit tok = true /\ tok <> "")
         (scan RE_INTEGER pos s skip).
Proof.
  induction s as [|c t IH]; intros pos skip.
  - destruct skip; simpl; [|constructor].
    destruct (match_at RE_INTEGER pos "") as [[pos' caps]|] eqn:E;
      constructor; [|constructor].
    simpl. eapply integer_token, E.
  - destruct skip as [|n]; simpl; [|apply IH].
    destruct (match_at RE_INTEGER pos (String c t)) as [[pos' caps]|] eqn:E;
      [|apply IH].
    constructor; [|apply IH]. simpl. eapply integer_token, E.
Qed.

Lemma findall_tokens (s : string) :
  Forall (fun tok => all is_digit tok = true /\ tok <> "")
         (findall RE_INTEGER s).
Proof.
  unfold findall. assert (H := scan_tokens s 0 0).
  induction H as [|mt l (tok & E & A & N) _ IH]; simpl; constructor; auto.
  rewrite E. simpl. auto.
Qed.

(** The scores of the tokens add up to the number of tokens that parse. *)
Lemma integer_scores (tokens : list string) :
  exists ints,
    mapM (fun i => is_integer (VStr i)) tokens = Ok ints /\
    (Qsum ints == Qnat (count_integers tokens))%Q.
Proof.
  induction tokens as [|tok t (ints & E & Hsum)].
  - exists []. split; reflexivity.
  - cbn [mapM]. rewrite E. unfold is_integer, count_integers.
    cbn [List.filter]. fold (count_integers t).
    destruct (int (VStr tok)) as [n|e] eqn:Ei.
    + cbn [bind]. eexists. split; [reflexivity|].
      cbn [List.length]. fold (count_integers t).
      now rewrite Qsum_cons, Hsum, Qnat_S.
    + apply int_str_raises in Ei as ->. cbn [bind].
      eexists. split; [reflexivity|].
      fold (count_integers t). rewrite Qsum_cons, Hsum. ring.
Qed.

(** The score of a string with a token. *)
Lemma is_integer_like_tokens (s : string) :
  findall RE_INTEGER s <> [] ->
  s <> "" /\
  exists q,
    is_integer_like (VStr s) = Ok q /\
    (q == (Qnat (count_integers (findall RE_INTEGER s))
           / Qnat (List.length (findall RE_INTEGER s)))
          * (Qnat (matched_length s) / Qnat (String.length s)))%Q.
Proof.
  intros H. destruct s as [|c t]; [now elim H|]. split; [discriminate|].
  unfold is_integer_like.
  cbn [is_none is_int has_len len_is len andb].
  change (String.length (String c t) =? 0)%nat with false. cbv iota.
  destruct (findall RE_INTEGER (String c t)) as [|tok toks] eqn:Ef;
    [congruence|]. clear H.
  destruct (integer_scores (tok :: toks)) as (ints & -> & Hsum).
  cbn [bind]. unfold div.
  rewrite !Qnat_pos_nonzero by (simpl; lia). cbn [bind].
  eexists. split; [reflexivity|].
  rewrite matched_length_sub, Hsum. reflexivity.
Qed.



Lemma count_integers_digits (tokens : list string) :
  Forall (fun tok => all is_digit tok = true /\ tok <> "") tokens ->
  count_integers tokens = List.length tokens.
Proof.
  unfold count_integers.
  induction 1 as [|tok l (A & N) _ IH]; [reflexivity|].
  cbn [List.filter]. rewrite (int_digits tok A N).
  cbn [List.length]. now rewrite IH.
Qed.

(** Every token parses, so the first factor is 1: the score of a string
    with a token is the share of its length that the matches cover. *)
Corollary is_integer_like_covered (s : string) :
  findall RE_INTEGER s <> [] ->
  exists q,
    is_integer_like (VStr s) = Ok q /\
    (q == Qnat (matched_length s) / Qnat (String.length s))%Q.
Proof.
  intros H. destruct (is_integer_like_tokens s H) as (Hs & q & Hq & Heq).
  exists q. split; [exact Hq|]. rewrite Heq.
  rewrite (count_integers_digits _ (findall_tokens s)).
  assert (N1 : ~ (Qnat (String.length s) == 0)%Q).
  { intros E. apply Qeq_bool_iff in E.
    rewrite Qnat_pos_nonzero in E; [discriminate|].
    destruct s; [congruence | simpl; lia]. }
  assert (N2 : ~ (Qnat (List.length (findall RE_INTEGER s)) == 0)%Q).
  { intros E. apply Qeq_bool_iff in E.
    rewrite Qnat_pos_nonzero in E; [discriminate|].
    destruct (findall RE_INTEGER s); [congruence | simpl; lia]. }
  field. auto.
Qed.

(** *** Years *)

(** C7, as the code has it. [is_year] returns 1.0 exactly when
    [int(value)] succeeds with a result strictly between 1600 and 2100,
    and 0.0 exactly when [int(value)] succeeds outside that range or
    raises [ValueError]; that covers every [str], every [int], every
    finite [float], and [nan], on which [int] raises [ValueError].
    When [int(value)] raises another exception, [is_year] raises it
    too: [OverflowError] on an infinity, [TypeError] on [None], a list
    or a dict.  In particular [is_year(1975) == 1.0],
    [is_year(2200) == 0.0] and [is_year("abc") == 0.0]. *)
Theorem is_year_spec :
  (forall value,
     is_year value = Ok 1%Q <->
     exists n, int value = Ok n /\ (1600 < n < 2100)%Z) /\
  (forall value,
     is_year value = Ok 0%Q <->
     int value = Raise ValueError \/
     exists n, int value = Ok n /\ ~ (1600 < n < 2100)%Z) /\
  (forall value e,
     is_year value = Raise e <-> int value = Raise e /\ e <> ValueError) /\
  (forall value,
     match value with
     | VStr _ | VInt _ | VFloat _ =>
         is_year value = Ok 1%Q \/ is_year value = Ok 0%Q
     | VNan => is_year value = Ok 0%Q
     | VInf _ => is_year value = Raise OverflowError
     | VNone | VList _ | VDict _ => is_year value = Raise TypeError
     end) /\
  is_year (VInt 1975) = Ok 1%Q /\
  is_year (VInt 2200) = Ok 0%Q /\
  is_year (VStr "abc") = Ok 0%Q.
Proof.
  assert (Hrange : forall n,
             (1600 <? n)%Z && (n <? 2100)%Z = true <-> (1600 < n < 2100)%Z).
  { intros n. rewrite andb_true_iff, !Z.ltb_lt. tauto. }
  split; [|split; [|split; [|split; [|repeat split; reflexivity]]]].
  - intros value. unfold is_year. split.
    + destruct (int value) as [n|e].
      * destruct ((1600 <? n)%Z && (n <? 2100)%Z) eqn:E; [|discriminate].
        intros _. exists n. split; [reflexivity | now apply Hrange].
      * destruct e; discriminate.
    + intros (n & Hn & Hr). rewrite Hn. apply Hrange in Hr. now rewrite Hr.
  - intros value. unfold is_year. split.
    + destruct (int value) as [n|e].
      * destruct ((1600 <? n)%Z && (n <? 2100)%Z) eqn:E; [discriminate|].
        intros _. right. exists n. split; [reflexivity|].
        intros Hr. apply Hrange in Hr. congruence.
      * destruct e; try discriminate. now left.
    + intros [H|(n & Hn & Hr)]; rewrite ?H, ?Hn; [reflexivity|].
      destruct ((1600 <? n)%Z && (n <? 2100)%Z) eqn:E; [|reflexivity].
      apply Hrange in E. contradiction.
  - intros value e. unfold is_year. split.
    + destruct (int value) as [n|e'].
      * destruct ((1600 <? n)%Z && (n <? 2100)%Z); discriminate.
      * destruct e'; try discriminate; intros H; injection H as <-;
          (split; [reflexivity | discriminate]).
    + intros [H Hne]. rewrite H. destruct e; congruence.
  - intros value. destruct value as [|n|q|s|l|d|neg|]; try reflexivity; unfold is_year.
    + simpl. destruct ((1600 <? n)%Z && (n <? 2100)%Z); auto.
    + simpl. destruct ((1600 <? _)%Z && (_ <? 2100)%Z); auto.
    + destruct (int (VStr s)) as [n|e] eqn:E.
      * destruct ((1600 <? n)%Z && (n <? 2100)%Z); auto.
      * apply int_str_raises in E as ->. auto.
Qed.

(** [None] does not parse as an integer, and [is_year(None)] is not
    0.0: it raises. *)
Lemma is_year_none_raises :
  (forall n, int VNone <> Ok n) /\
  is_year VNone = Raise TypeError /\
  is_year VNone <> Ok 0%Q.
Proof.
  split; [intros n; discriminate|]. split; [reflexivity | discriminate].
Qed.

(** *** Pages *)

Lemma all_weaken (p q : ascii -> bool) (s : string) :
  (forall c, p c = true -> q c = true) -> all p s = true -> all q s = true.
Proof.
  intros Hpq. induction s as [|c t IH]; simpl; [reflexivity|].
  intros H. apply andb_true_iff in H as [Hc Ht]. now rewrite (Hpq c Hc), IH.
Qed.

Lemma all_take_add (p : ascii -> bool) (a b : nat) (s : string) :
  all p (take a s) = true -> all p (take b (drop a s)) = true ->
  all p (take (a + b) s) = true.
Proof.
  revert s; induction a as [|a IH]; intros s Ha Hb; [exact Hb|].
  destruct s as [|c t]; [reflexivity|]. simpl in *.
  apply andb_true_iff in Ha as [-> Ha]. now apply IH.
Qed.

(** A prefix within the class that cannot be extended is the longest. *)
Lemma run_exact (p : ascii -> bool) (n : nat) (s : string) :
  (n <= String.length s)%nat -> all p (take n s) = true ->
  match drop n s with
  | String c _ => p c = false
  | EmptyString => True
  end ->
  n = run p s.
Proof.
  revert s; induction n as [|n IH]; intros [|c t]; simpl; intros Hn Ha Hd;
    try reflexivity; try lia.
  - now rewrite Hd.
  - apply andb_true_iff in Ha as [-> Ha]. f_equal. apply IH; auto. lia.
Qed.

Lemma run_pos_head (p : ascii -> bool) (s : string) :
  (0 < run p s)%nat <-> exists c t, s = String c t /\ p c = true.
Proof.
  destruct s as [|c t]; simpl.
  - split; [lia | intros (? & ? & ? & _); discriminate].
  - destruct (p c) eqn:E; split; try lia; eauto.
    intros (? & ? & H & Hp). injection H as <- <-. congruence.
Qed.

Lemma second_group_run pos s caps :
  second_group pos s caps =
  if (0 <? run is_digit s)%nat
  then Some ((pos + run is_digit s)%nat,
             (caps ++ [take (run is_digit s) s])%list)
  else None.
Proof.
  unfold second_group. simpl. unfold plus.
  destruct s as [|c t]; [reflexivity|]. simpl.
  destruct (is_digit c); [|reflexivity].
  rewrite star_total by discriminate. simpl.
  replace (S (pos + run is_digit t) - pos)%nat with (S (run is_digit t)) by lia.
  now replace (S (pos + run is_digit t))%nat with (pos + S (run is_digit t))%nat
    by lia.
Qed.

Lemma pages_split pos s caps :
  m RE_PAGES pos s caps (fun pos' _ caps' => Some (pos', caps')) =
  m pages_prefix pos s caps second_group.
Proof. reflexivity. Qed.

(** The separators between the groups: a non-empty run within the class. *)
Lemma separators_run pos s caps n caps' :
  Matches (Seq (Opt (Plus is_space))
               (Seq (Plus is_page_sep) (Opt (Plus is_space))))
          pos s caps n caps' ->
  (1 <= n <= String.length s)%nat /\ all is_page_sep (take n s) = true /\
  caps' = caps.
Proof.
  simpl. intros (n2 & n' & c1 & H1 & (n3 & n4 & c2 & H3 & H4 & ->) & ->).
  assert (A1 : (n2 <= String.length s)%nat /\
               all is_page_sep (take n2 s) = true /\ c1 = caps).
  { destruct H1 as [(_ & L & A & ->)|(-> & ->)].
    - split; [exact L|]. split; [|reflexivity].
      eapply all_weaken; [exact space_is_sep | exact A].
    - split; [lia|]. split; reflexivity. }
  destruct A1 as (L2 & A2 & ->).
  destruct H3 as (P3 & L3 & A3 & ->). rewrite length_drop in L3.
  assert (A4 : (n4 <= String.length (drop n3 (drop n2 s)))%nat /\
               all is_page_sep (take n4 (drop n3 (drop n2 s))) = true /\
               caps' = caps).
  { destruct H4 as [(_ & L & A & ->)|(-> & ->)].
    - split; [exact L|]. split; [|reflexivity].
      eapply all_weaken; [exact space_is_sep | exact A].
    - split; [lia|]. split; reflexivity. }
  destruct A4 as (L4 & A4 & ->). rewrite !length_drop in L4.
  split; [lia|]. split; [|reflexivity].
  apply all_take_add; [exact A2|]. apply all_take_add; assumption.
Qed.

Lemma head_of_all (p : ascii -> bool) (n : nat) (s : string) :
  (1 <= n <= String.length s)%nat -> all p (take n s) = true ->
  exists c t, s = String c t /\ p c = true.
Proof.
  destruct n as [|n]; [lia|]. destruct s as [|c t]; simpl; [lia|].
  intros _ H. apply andb_true_iff in H as [Hc _]. eauto.
Qed.

(** Every way through the prefix that lets the second group match reads
    the longest runs. *)
Lemma pages_prefix_runs s n caps' x :
  Matches pages_prefix 0 s [] n caps' ->
  (n <= String.length s)%nat ->
  second_group n (drop n s) caps' = Some x ->
  let d1 := run is_digit s in
  let sp := run is_page_sep (drop d1 s) in
  (0 < d1)%nat /\ (0 < sp)%nat /\ n = (d1 + sp)%nat /\ caps' = [take d1 s].
Proof.
  intros (n1 & n' & c1 & (c0 & (P1 & L1 & A1 & ->) & ->) & Hsep & ->) Ln Hk.
  apply separators_run in Hsep as (Ls & As & ->).
  rewrite length_drop in Ls.
  rewrite second_group_run in Hk.
  destruct (0 <? run is_digit (drop (n1 + n') s))%nat eqn:Ed; [|discriminate].
  apply Nat.ltb_lt, run_pos_head in Ed as (c & t & Hd & Hc).
  destruct (head_of_all is_page_sep n' (drop n1 s)) as (c' & t' & Hd' & Hc');
    [rewrite length_drop; lia | exact As |].
  assert (E1 : n1 = run is_digit s).
  { apply run_exact; [exact L1 | exact A1|]. rewrite Hd'.
    destruct (is_digit c') eqn:E; [|reflexivity].
    apply digit_not_sep in E. congruence. }
  assert (E2 : n' = run is_page_sep (drop n1 s)).
  { apply run_exact; [rewrite length_drop; lia | exact As|].
    rewrite drop_drop, Hd. now apply digit_not_sep. }
  simpl. rewrite <- E1, <- E2. repeat split; auto; lia.
Qed.

(** The pattern of [is_pages] reads a page range from the left. *)
Lemma pages_match (s : string) :
  rmatch RE_PAGES s =
  option_map (fun ab => [fst ab; snd ab]) (page_range s).
Proof.
  unfold rmatch, match_at. rewrite pages_split.
  set (d1 := run is_digit s). set (sp := run is_page_sep (drop d1 s)).
  set (d2 := run is_digit (drop sp (drop d1 s))).
  assert (Hsound : forall x,
             m pages_prefix 0 s [] second_group = Some x ->
             (0 < d1)%nat /\ (0 < sp)%nat /\ (0 < d2)%nat /\
             x = ((d1 + sp + d2)%nat,
                  [take d1 s; take d2 (drop sp (drop d1 s))])).
  { intros x H. apply m_sound in H as (n & c & M & L & H). simpl in H.
    destruct (pages_prefix_runs s n c x M L H) as (P1 & P2 & -> & ->).
    fold d1 sp. rewrite second_group_run, <- drop_drop in H. fold d1 sp d2 in H.
    destruct (0 <? d2)%nat eqn:E; [|discriminate].
    apply Nat.ltb_lt in E. injection H as <-. auto. }
  unfold page_range. fold d1 sp d2.
  destruct (m pages_prefix 0 s [] second_group) as [x|] eqn:Em.
  - destruct (Hsound x eq_refl) as (P1 & P2 & P3 & ->).
    apply Nat.ltb_lt in P1, P2, P3. now rewrite P1, P2, P3.
  - destruct ((0 <? d1)%nat && (0 <? sp)%nat && (0 <? d2)%nat) eqn:E;
      [|reflexivity].
    apply andb_true_iff in E as [E P3]. apply andb_true_iff in E as [P1 P2].
    apply Nat.ltb_lt in P1, P2, P3. exfalso.
    apply (m_complete pages_prefix 0 s [] (d1 + (0 + (sp + 0)))%nat
             [take d1 s] second_group); [| |exact Em].
    + simpl. exists d1, (0 + (sp + 0))%nat, [take d1 s].
      split; [|split; [|reflexivity]].
      * exists []. split; [|reflexivity].
        repeat split; [lia | apply run_le | apply all_take_run].
      * exists 0%nat, (sp + 0)%nat, [take d1 s].
        split; [right; split; reflexivity|]. split; [|reflexivity].
        exists sp, 0%nat, [take d1 s].
        split; [|split; [right; split; reflexivity | reflexivity]].
        simpl. repeat split; [lia | apply run_le | apply all_take_run].
    + simpl. rewrite second_group_run.
      replace (d1 + (sp + 0))%nat with (d1 + sp)%nat by lia.
      rewrite <- drop_drop. fold d2. apply Nat.ltb_lt in P3. now rewrite P3.
Qed.



End ScorerFacts.

(* ================================================================== *)
(** ** The filter *)
(* ================================================================== *)

Module FilterFacts.
Import Py Domain Normalize.

Lemma filter_loop_spec (records : list (nat * Q)) (threshold : Q) :
  forall filtered h,
    filter_loop records threshold filtered h =
    ((filtered ++ retained threshold records)%list,
     fold_left assign records h).
Proof.
  induction records as [|[ref score] rest IH]; intros filtered h; simpl.
  - now rewrite app_nil_r.
  - destruct (Qle_bool threshold score); rewrite IH; [|reflexivity].
    now rewrite <- app_assoc.
Qed.

(** The assignments change the score of a record and nothing else. *)
Lemma assign_all_lookup (records : list (nat * Q)) :
  forall (h : store) ref r,
    h !! ref = Some r ->
    exists r', fold_left assign records h !! ref = Some r' /\
               forall v, set_score v r' = set_score v r.
Proof.
  induction records as [|[ref0 sc] rest IH]; intros h ref r Hr; simpl.
  - eauto.
  - unfold assign at 2. simpl.
    destruct (decide (ref0 = ref)) as [->|Hne].
    + destruct (IH (alter (set_score (VFloat sc)) ref h) ref
                  (set_score (VFloat sc) r)) as (r' & Hr' & Hs).
      { rewrite lookup_alter. case_decide; [|congruence]. now rewrite Hr. }
      exists r'. split; [exact Hr'|]. intros v. now rewrite Hs.
    + apply IH. rewrite lookup_alter. case_decide; congruence.
Qed.

Lemma assign_all_other (records : list (nat * Q)) :
  forall (h : store) ref,
    ~ In ref (map fst records) ->
    fold_left assign records h !! ref = h !! ref.
Proof.
  induction records as [|[ref0 sc] rest IH]; intros h ref Hn; simpl; [reflexivity|].
  rewrite IH by (intros H; apply Hn; now right).
  unfold assign. simpl. rewrite lookup_alter. case_decide; [|reflexivity].
  subst. exfalso. apply Hn. now left.
Qed.

Lemma fold_left_assign_app (l1 l2 : list (nat * Q)) (h : store) :
  fold_left assign (l1 ++ l2)%list h = fold_left assign l2 (fold_left assign l1 h).
Proof. apply fold_left_app. Qed.

(** The last pair of a record decides its score. *)
Lemma assign_all_last before ref sc after (h : store) r :
  ~ In ref (map fst after) ->
  h !! ref = Some r ->
  fold_left assign (before ++ (ref, sc) :: after)%list h !! ref
  = Some (set_score (VFloat sc) r).
Proof.
  intros Hn Hr. rewrite fold_left_assign_app. simpl.
  rewrite assign_all_other by exact Hn.
  destruct (assign_all_lookup before h ref r Hr) as (r' & Hr' & Hs).
  unfold assign in *. simpl. rewrite lookup_alter. case_decide; [|congruence].
  rewrite Hr'. simpl. now rewrite <- Hs.
Qed.

(** The store that [filter_records] leaves. *)
Lemma filter_records_writes (records : list (nat * Q)) (threshold : Q)
  (h : store) :
  snd (filter_records records threshold h) = fold_left assign records h.
Proof.
  unfold filter_records. rewrite filter_loop_spec. cbn [app].
  now destruct (List.length (retained threshold records) =? 0)%nat.
Qed.

(** C3. [filter_records] writes its score onto every record of the
    input, kept or dropped: the store it leaves is the one after all the
    assignments, in which a record holds the score of its last pair.
    After the call the attribute [score] of a record of the input is
    that score, as a float, and each of its other attributes is what it
    was before.  The list it returns holds the records whose score is at
    least the threshold, in the order of the input, and the composite is
    the sum of their scores divided by their number. *)
Theorem filter_records_spec (records : list (nat * Q)) (threshold : Q)
  (h : store) :
  let kept := retained threshold records in
  exists composite,
    filter_records records threshold h
    = (Ok (map fst kept, composite), fold_left assign records h) /\
    (kept <> [] ->
     (composite == Qsum (map snd kept) / Qnat (List.length kept))%Q) /\
    (kept = [] -> composite = 0%Q) /\
    (forall p, In p kept <-> In p records /\ (threshold <= snd p)%Q) /\
    (forall before ref sc after r,
       records = (before ++ (ref, sc) :: after)%list ->
       ~ In ref (map fst after) ->
       h !! ref = Some r ->
       fold_left assign records h !! ref = Some (set_score (VFloat sc) r)) /\
    (forall before ref sc after r,
       records = (before ++ (ref, sc) :: after)%list ->
       ~ In ref (map fst after) ->
       h !! ref = Some r ->
       exists r',
         snd (filter_records records threshold h) !! ref = Some r' /\
         score r' = VFloat sc /\
         raw r' = raw r /\ title r' = title r /\ source r' = source r /\
         year r' = year r /\ volume r' = volume r /\ pages r' = pages r /\
         issue r' = issue r /\ authors r' = authors r /\
         identifiers r' = identifiers r /\ doi r' = doi r /\
         arxiv_id r' = arxiv_id r /\ reftype r' = reftype r).
Proof.
  intros kept.
  assert (Hfields : forall before ref sc after r,
             records = (before ++ (ref, sc) :: after)%list ->
             ~ In ref (map fst after) -> h !! ref = Some r ->
             exists r',
               snd (filter_records records threshold h) !! ref = Some r' /\
               score r' = VFloat sc /\
               raw r' = raw r /\ title r' = title r /\ source r' = source r /\
               year r' = year r /\ volume r' = volume r /\
               pages r' = pages r /\ issue r' = issue r /\
               authors r' = authors r /\ identifiers r' = identifiers r /\
               doi r' = doi r /\ arxiv_id r' = arxiv_id r /\
               reftype r' = reftype r).
  { intros before ref sc after r -> Hn Hr.
    rewrite filter_records_writes, (assign_all_last _ _ _ _ _ _ Hn Hr).
    eexists. split; [reflexivity|]. cbn. now repeat split. }
  revert Hfields. generalize (snd (filter_records records threshold h)).
  intros final Hfields.
  unfold filter_records. rewrite filter_loop_spec. simpl.
  fold kept.
  assert (Hin : forall p, In p kept <-> In p records /\ (threshold <= snd p)%Q).
  { intros p. unfold kept, retained. rewrite filter_In, Qle_bool_iff. tauto. }
  assert (Hlast : forall before ref sc after r,
             records = (before ++ (ref, sc) :: after)%list ->
             ~ In ref (map fst after) -> h !! ref = Some r ->
             fold_left assign records h !! ref = Some (set_score (VFloat sc) r)).
  { intros before ref sc after r -> Hn Hr. now apply assign_all_last. }
  destruct kept as [|p kept'] eqn:Ek.
  - exists 0%Q. simpl. split; [reflexivity|]. split; [congruence|].
    split; [reflexivity|]. split; [exact Hin|].
    split; [exact Hlast | exact Hfields].
  - eexists. simpl List.length. cbn [Nat.eqb mean map bind].
    split; [reflexivity|].
    split; [|split; [discriminate | split; [|split]]; auto].
    intros _. cbn [List.length]. rewrite List.length_map. reflexivity.
Qed.

(** C4. On the empty list [filter_records] returns [([], 0.0)]; when no
    score reaches the threshold it returns the empty list and 0.0; and it
    never raises: [mean] is not called on an empty list. *)
Theorem filter_records_none_retained :
  (forall threshold (h : store),
     filter_records [] threshold h = (Ok ([], 0%Q), h)) /\
  (forall records threshold (h : store),
     (forall ref sc, In (ref, sc) records -> ~ (threshold <= sc)%Q) ->
     fst (filter_records records threshold h) = Ok ([], 0%Q)) /\
  (forall records threshold (h : store),
     exists kept composite,
       fst (filter_records records threshold h) = Ok (kept, composite)).
Proof.
  split; [reflexivity|]. split.
  - intros records threshold h Hnone. unfold filter_records.
    rewrite filter_loop_spec. simpl.
    assert (E : retained threshold records = []).
    { unfold retained. induction records as [|[ref sc] rest IH]; simpl; auto.
      destruct (Qle_bool threshold sc) eqn:Eq.
      - apply Qle_bool_iff in Eq. exfalso. apply (Hnone ref sc); simpl; auto.
      - apply IH. intros r s Hin. apply (Hnone r s). now right. }
    now rewrite E.
  - intros records threshold h. unfold filter_records.
    rewrite filter_loop_spec. simpl.
    destruct (retained threshold records) as [|p l]; simpl; eauto.
Qed.

(** *** The tests of the repository *)

(** [test_filter_threshold]: the numbers of records kept at the
    thresholds 0.1, 0.2, 0.4, 0.5, 0.9 and 1.0. *)
Example test_filter_threshold :
  map Examples.kept_count [1 # 10; 2 # 10; 4 # 10; 5 # 10; 9 # 10; 1]%Q
  = map Some [3; 2; 2; 1; 1; 0]%nat.
Proof. reflexivity. Qed.

(** The filter at the records of the tests, with the threshold 0.4: the records
    at 1 and 2 are kept, the composite is 0.65, and the record at 0,
    which is dropped, holds its score 0.1 and its title. *)
Lemma filter_records_spec_witness :
  exists composite h' r',
    filter_records Examples.test_records (4 # 10) Examples.test_store
    = (Ok ([1; 2]%nat, composite), h') /\
    (composite == 65 # 100)%Q /\
    h' !! 0%nat = Some r' /\
    score r' = VFloat (1 # 10) /\ title r' = VStr "bar".
Proof.
  destruct (filter_records_spec Examples.test_records (4 # 10)
              Examples.test_store)
    as (composite & Hrun & Hmean & _ & _ & _ & Hfields).
  destruct (Hfields [] 0%nat (1 # 10)%Q
              [(1%nat, (4 # 10)%Q); (2%nat, (9 # 10)%Q)]
              (Examples.titled "bar"))
    as (r' & Hr' & Hscore & _ & Htitle & _).
  - reflexivity.
  - simpl. intros [H|[H|[]]]; discriminate.
  - reflexivity.
  - exists composite,
      (fold_left assign Examples.test_records Examples.test_store), r'.
    split; [exact Hrun|]. split.
    + rewrite Hmean; [vm_compute; reflexivity | discriminate].
    + split; [|split; [exact Hscore | exact Htitle]].
      rewrite <- Hr'. now rewrite Hrun.
Defined.

(** At the records of the tests no score reaches the threshold 1. *)
Lemma filter_records_none_retained_witness :
  fst (filter_records Examples.test_records 1 Examples.test_store)
  = Ok ([], 0%Q).
Proof.
  destruct filter_records_none_retained as (_ & Hnone & _).
  apply Hnone. intros ref sc [H|[H|[H|[]]]]; injection H as <- <-;
    intros Hle; vm_compute in Hle; now apply Hle.
Defined.

End FilterFacts.

(* ================================================================== *)
(** ** The normalizer *)
(* ================================================================== *)

Module NormalizeFacts.
Import Py Re Domain Normalize PyFacts ReFacts.

(** *** Characters *)

Lemma case_of_space b c : is_space (case_of b c) = is_space c.
Proof. destruct b; ascii_cases c; reflexivity. Qed.

Lemma case_of_alpha b c : is_alpha (case_of b c) = is_alpha c.
Proof. destruct b; ascii_cases c; reflexivity. Qed.

Lemma case_of_dot b c : is_dot (case_of b c) = is_dot c.
Proof. destruct b; ascii_cases c; reflexivity. Qed.

Lemma case_of_twice b c : case_of b (case_of b c) = case_of b c.
Proof. destruct b; ascii_cases c; reflexivity. Qed.

Lemma space_not_alpha c : is_space c = true -> is_alpha c = false.
Proof. ascii_cases c; vm_compute; congruence. Qed.

(** *** Stripping a class from the ends *)

Section Strip.
Variable p : ascii -> bool.

Lemma lstrip_by_head (s : string) :
  match lstrip_by p s with
  | String c _ => p c = false
  | EmptyString => True
  end.
Proof.
  induction s as [|c t IH]; simpl; [exact I|].
  destruct (p c) eqn:E; [exact IH | exact E].
Qed.

Lemma rstrip_by_empty (s : string) :
  rstrip_by p s = "" <-> all p s = true.
Proof.
  induction s as [|c t IH]; simpl; [tauto|].
  destruct (rstrip_by p t) eqn:E.
  - destruct (p c); simpl; [tauto|]. split; discriminate.
  - split; [discriminate|]. intros H. apply andb_true_iff in H as [_ H].
    apply IH in H. discriminate.
Qed.

Lemma rstrip_by_twice (s : string) :
  rstrip_by p (rstrip_by p s) = rstrip_by p s.
Proof.
  induction s as [|c t IH]; simpl; [reflexivity|].
  destruct (rstrip_by p t) as [|a u] eqn:E.
  - destruct (p c) eqn:Ec; simpl; [reflexivity | now rewrite Ec].
  - simpl in *. now rewrite IH.
Qed.

Lemma rstrip_by_keeps_head (c : ascii) (t : string) :
  p c = false -> exists u, rstrip_by p (String c t) = String c u.
Proof.
  intros Hc. simpl. destruct (rstrip_by p t); rewrite ?Hc; eauto.
Qed.

(** Stripping both ends leaves nothing to strip. *)
Lemma strip_by_twice (s : string) :
  rstrip_by p (lstrip_by p (rstrip_by p (lstrip_by p s)))
  = rstrip_by p (lstrip_by p s).
Proof.
  assert (H := lstrip_by_head s).
  destruct (lstrip_by p s) as [|c t]; [reflexivity|].
  destruct (rstrip_by_keeps_head c t H) as (u & E).
  rewrite <- (rstrip_by_twice (String c t)) at 2.
  rewrite E. simpl lstrip_by. now rewrite H.
Qed.

Lemma lstrip_by_run (s : string) : drop (run p s) s = lstrip_by p s.
Proof.
  induction s as [|c t IH]; simpl; [reflexivity|].
  destruct (p c); [exact IH | reflexivity].
Qed.

Lemma all_lstrip_by (q : ascii -> bool) (s : string) :
  all q s = true -> all q (lstrip_by p s) = true.
Proof.
  induction s as [|c t IH]; simpl; [reflexivity|].
  intros H. destruct (p c); [|exact H].
  apply andb_true_iff in H as [_ H]. now apply IH.
Qed.

Lemma all_rstrip_by (q : ascii -> bool) (s : string) :
  all q s = true -> all q (rstrip_by p s) = true.
Proof.
  induction s as [|c t IH]; simpl; [reflexivity|].
  intros H. apply andb_true_iff in H as [Hc Ht]. specialize (IH Ht).
  destruct (rstrip_by p t).
  - destruct (p c); simpl; [reflexivity | now rewrite Hc].
  - simpl in *. now rewrite Hc, IH.
Qed.

End Strip.

Lemma strip_twice (s : string) : strip (strip s) = strip s.
Proof. apply strip_by_twice. Qed.

(** *** Title case *)

Lemma title_from_twice (s : string) : forall b,
  title_from b (title_from b s) = title_from b s.
Proof.
  induction s as [|c t IH]; intros b; [reflexivity|].
  cbn [title_from]. now rewrite case_of_twice, case_of_alpha, IH.
Qed.

Lemma lstrip_title (s : string) :
  lstrip_by is_space (title_from false s)
  = title_from false (lstrip_by is_space s).
Proof.
  induction s as [|c t IH]; [reflexivity|].
  cbn [title_from lstrip_by]. rewrite case_of_space.
  destruct (is_space c) eqn:E; [|reflexivity].
  now rewrite (space_not_alpha c E).
Qed.

Lemma rstrip_title (s : string) : forall b,
  rstrip_by is_space (title_from b s)
  = title_from b (rstrip_by is_space s).
Proof.
  induction s as [|c t IH]; intros b; [reflexivity|].
  cbn [title_from rstrip_by]. rewrite IH, case_of_space.
  destruct (rstrip_by is_space t) as [|a u]; cbn [title_from].
  - destruct (is_space c); reflexivity.
  - reflexivity.
Qed.

Lemma strip_title (s : string) : strip (Py.title s) = Py.title (strip s).
Proof. unfold strip, Py.title. now rewrite lstrip_title, rstrip_title. Qed.

Lemma all_title (s : string) : forall b,
  all (fun c => negb (is_dot c)) s = true ->
  all (fun c => negb (is_dot c)) (title_from b s) = true.
Proof.
  induction s as [|c t IH]; intros b; [reflexivity|].
  cbn [title_from all]. rewrite case_of_dot.
  intros H. apply andb_true_iff in H as [-> Ht]. now apply IH.
Qed.

(** *** The patterns of the normalizers *)

Lemma nonalnum_newline : is_nonalnum "010"%char = true.
Proof. reflexivity. Qed.

(** A repetition followed by [$], for a class that holds the newline:
    it matches when the class runs to the end. *)
Lemma star_eol (p : ascii -> bool) :
  p "010"%char = true ->
  forall s pos caps,
    star p pos s caps
      (fun pos' s' caps' =>
         if at_eol s' then Some (pos', caps') else None)
    = if all p s then Some ((pos + String.length s)%nat, caps) else None.
Proof.
  intros Hnl. induction s as [|c t IH]; intros pos caps; simpl.
  - now rewrite Nat.add_0_r.
  - destruct (p c) eqn:Ec; simpl.
    + rewrite IH. destruct (all p t) eqn:Ea.
      * f_equal. f_equal. lia.
      * destruct t; [discriminate | reflexivity].
    + destruct t; [|reflexivity].
      destruct (Ascii.eqb c "010") eqn:E; [|reflexivity].
      apply Ascii.eqb_eq in E. congruence.
Qed.

Lemma match_at_leading pos s :
  match_at RE_LEADING pos s =
  if (pos =? 0)%nat && (0 <? run is_nonalnum s)%nat
  then Some (run is_nonalnum s, [])
  else None.
Proof.
  unfold match_at. simpl. destruct (pos =? 0)%nat eqn:E; [|reflexivity].
  apply Nat.eqb_eq in E as ->. unfold plus.
  destruct s as [|c t]; [reflexivity|]. simpl.
  destruct (is_nonalnum c); [|reflexivity].
  now rewrite star_total by discriminate.
Qed.

Lemma match_at_trailing pos s :
  match_at RE_TRAILING pos s =
  match s with
  | String _ _ =>
      if all is_nonalnum s then Some ((pos + String.length s)%nat, [])
      else None
  | EmptyString => None
  end.
Proof.
  unfold match_at. simpl. unfold plus. destruct s as [|c t]; [reflexivity|].
  simpl. destruct (is_nonalnum c); [|reflexivity].
  rewrite (star_eol is_nonalnum nonalnum_newline). simpl.
  destruct (all is_nonalnum t); [|reflexivity]. f_equal. f_equal. lia.
Qed.

Lemma match_at_dots pos s :
  match_at RE_DOTS pos s =
  match s with
  | String c t =>
      if is_dot c then Some ((S pos + run is_space t)%nat, []) else None
  | EmptyString => None
  end.
Proof.
  unfold match_at. simpl. destruct s as [|c t]; [reflexivity|].
  destruct (is_dot c); [|reflexivity].
  now rewrite star_total by discriminate.
Qed.

(** [^[^0-9a-zA-Z]+] matches at the start only. *)
Lemma sub_leading_later (s : string) : forall pos skip,
  (1 <= pos)%nat -> sub_from RE_LEADING "" pos s skip = drop skip s.
Proof.
  induction s as [|c t IH]; intros pos skip Hp.
  - destruct skip; cbn [sub_from drop]; [|reflexivity].
    rewrite match_at_leading. destruct pos; [lia | reflexivity].
  - destruct skip as [|n]; cbn [sub_from drop]; [|apply IH; lia].
    rewrite match_at_leading. destruct pos; [lia|]. cbn [Nat.eqb andb].
    f_equal. rewrite IH by lia. reflexivity.
Qed.

Lemma sub_leading (s : string) :
  sub RE_LEADING "" s = lstrip_by is_nonalnum s.
Proof.
  unfold sub. destruct s as [|c t]; cbn [sub_from].
  - now rewrite match_at_leading.
  - rewrite match_at_leading. cbn [Nat.eqb andb run lstrip_by].
    destruct (is_nonalnum c).
    + cbn [Nat.ltb Nat.leb Nat.eqb]. rewrite append_nil.
      rewrite sub_leading_later by lia.
      replace (S (run is_nonalnum t) - 0 - 1)%nat with (run is_nonalnum t)
        by lia.
      apply lstrip_by_run.
    + cbn [Nat.ltb Nat.leb]. f_equal. rewrite sub_leading_later by lia.
      reflexivity.
Qed.

Lemma sub_trailing_skip (s : string) : forall pos,
  sub_from RE_TRAILING "" pos s (String.length s) = "".
Proof.
  induction s as [|c t IH]; intros pos; cbn [sub_from String.length];
    [|apply IH].
  now rewrite match_at_trailing.
Qed.

Lemma sub_trailing_from (s : string) : forall pos,
  sub_from RE_TRAILING "" pos s 0 = rstrip_by is_nonalnum s.
Proof.
  induction s as [|c t IH]; intros pos; cbn [sub_from].
  - now rewrite match_at_trailing.
  - rewrite match_at_trailing. cbn [all rstrip_by String.length].
    destruct (is_nonalnum c) eqn:Ec; cbn [andb].
    + destruct (all is_nonalnum t) eqn:Ea.
      * rewrite append_nil.
        replace (pos + S (String.length t) =? pos)%nat with false
          by (symmetry; apply Nat.eqb_neq; lia).
        replace (pos + S (String.length t) - pos - 1)%nat
          with (String.length t) by lia.
        rewrite sub_trailing_skip.
        apply rstrip_by_empty in Ea. now rewrite Ea.
      * rewrite IH. destruct (rstrip_by is_nonalnum t) eqn:Er; [|reflexivity].
        apply rstrip_by_empty in Er. congruence.
    + rewrite IH. destruct (rstrip_by is_nonalnum t); reflexivity.
Qed.

Lemma sub_trailing (s : string) :
  sub RE_TRAILING "" s = rstrip_by is_nonalnum s.
Proof. apply sub_trailing_from. Qed.

(** After [\.\s*] has been replaced no dot is left, and a text without
    dots is not changed. *)
Lemma sub_dots_no_dot (s : string) : forall pos skip,
  all (fun c => negb (is_dot c)) (sub_from RE_DOTS " " pos s skip) = true.
Proof.
  induction s as [|c t IH]; intros pos skip.
  - destruct skip; cbn [sub_from]; [|reflexivity]. now rewrite match_at_dots.
  - destruct skip as [|n]; cbn [sub_from]; [|apply IH].
    rewrite match_at_dots. destruct (is_dot c) eqn:Ec.
    + replace (S pos + run is_space t =? pos)%nat with false
        by (symmetry; apply Nat.eqb_neq; lia).
      rewrite append_cons, append_nil. cbn [all]. apply IH.
    + cbn [all]. rewrite Ec. apply IH.
Qed.

Lemma sub_dots_id (s : string) : forall pos,
  all (fun c => negb (is_dot c)) s = true ->
  sub_from RE_DOTS " " pos s 0 = s.
Proof.
  induction s as [|c t IH]; intros pos H; cbn [sub_from].
  - now rewrite match_at_dots.
  - rewrite match_at_dots. cbn [all] in H. apply andb_true_iff in H as [Hc Ht].
    apply negb_true_iff in Hc. rewrite Hc. f_equal. now apply IH.
Qed.

(** *** The normalizers of text *)

Lemma dots_title_twice (s : string) : dots_title (dots_title s) = dots_title s.
Proof.
  unfold dots_title at 1.
  assert (Hnd : all (fun c => negb (is_dot c)) (dots_title s) = true).
  { unfold dots_title, Py.title, strip.
    apply all_title, all_rstrip_by, all_lstrip_by, sub_dots_no_dot. }
  unfold sub. rewrite (sub_dots_id _ 0 Hnd).
  unfold dots_title. rewrite strip_title, strip_twice.
  unfold Py.title. apply title_from_twice.
Qed.

Lemma trim_twice (s : string) : trim (trim s) = trim s.
Proof.
  unfold trim. rewrite !sub_leading, !sub_trailing. apply strip_by_twice.
Qed.

(** *** Replacing a text by itself *)

Lemma startswith_split (x s : string) :
  startswith x s = true -> s = x ++ drop (String.length x) s.
Proof.
  revert s; induction x as [|a x IH]; intros s; [reflexivity|].
  destruct s as [|c t]; [discriminate|]. cbn [startswith String.length drop].
  intros H. apply andb_true_iff in H as [Ha Hx].
  apply Ascii.eqb_eq in Ha as ->. rewrite append_cons. f_equal. now apply IH.
Qed.

Lemma replace_from_skip (old new : string) (s : string) : forall k,
  replace_from old new k s = replace_from old new 0 (drop k s).
Proof.
  induction s as [|c t IH]; intros k.
  - destruct k; reflexivity.
  - destruct k as [|k]; [reflexivity|]. cbn [replace_from drop]. apply IH.
Qed.

Lemma replace_from_same (x : string) :
  x <> "" ->
  forall n s, (String.length s <= n)%nat -> replace_from x x 0 s = s.
Proof.
  intros Hx. induction n as [|n IH]; intros s Hn.
  - destruct s; [reflexivity | simpl in Hn; lia].
  - destruct s as [|c t]; [reflexivity|]. cbn [replace_from].
    destruct (startswith x (String c t)) eqn:E.
    + rewrite replace_from_skip.
      destruct x as [|a x']; [congruence|].
      replace (String.length (String a x') - 1)%nat with (String.length x')
        by (simpl; lia).
      change (drop (String.length x') t)
        with (drop (String.length (String a x')) (String c t)).
      rewrite IH.
      * symmetry. now apply startswith_split.
      * rewrite length_drop. simpl in *. lia.
    + f_equal. apply IH. simpl in Hn. lia.
Qed.

Lemma intersperse_empty (s : string) : intersperse "" s = s.
Proof.
  induction s as [|c t IH]; [reflexivity|].
  cbn [intersperse]. now rewrite append_nil, IH.
Qed.

Lemma replace_same (x s : string) : replace x x s = s.
Proof.
  destruct x as [|a x']; [apply intersperse_empty|].
  cbn [replace].
  apply (replace_from_same (String a x')) with (n := String.length s);
    [discriminate | lia].
Qed.

(** A category without hyphen is its own form without hyphens. *)
Lemma replace_no_hyphen (c : string) :
  in_str "-" c = false -> replace "-" "" c = c.
Proof.
  cbn [replace]. induction c as [|a t IH]; [reflexivity|].
  cbn [in_str replace_from]. intros H. apply orb_false_iff in H as [H1 H2].
  rewrite H1. f_equal. now apply IH.
Qed.

(** *** Replacing a text by a longer or a shorter one *)

Lemma length_app (a b : string) :
  String.length (a ++ b) = (String.length a + String.length b)%nat.
Proof.
  induction a as [|c a IH]; [reflexivity|].
  rewrite append_cons. simpl. now rewrite IH.
Qed.

Lemma startswith_length (x s : string) :
  startswith x s = true -> (String.length x <= String.length s)%nat.
Proof.
  intros H. apply startswith_split in H. apply (f_equal String.length) in H.
  rewrite length_app in H. lia.
Qed.

(** Replacing by a longer text makes a text with an occurrence longer,
    and replacing by a shorter text makes it shorter. *)
Lemma replace_from_length (old new : string) :
  old <> "" ->
  forall n s, (String.length s <= n)%nat ->
    let s' := replace_from old new 0 s in
    ((String.length old < String.length new)%nat ->
     (String.length s <= String.length s')%nat /\
     (in_str old s = true -> (String.length s < String.length s')%nat)) /\
    ((String.length new < String.length old)%nat ->
     (String.length s' <= String.length s)%nat /\
     (in_str old s = true -> (String.length s' < String.length s)%nat)).
Proof.
  intros Hold. induction n as [|n IH]; intros s Hn.
  - destruct s; [|simpl in Hn; lia]. destruct old; [congruence|].
    simpl. split; intros _; (split; [lia | discriminate]).
  - destruct s as [|c t].
    { destruct old; [congruence|].
      simpl. split; intros _; (split; [lia | discriminate]). }
    cbn [replace_from in_str]. destruct (startswith old (String c t)) eqn:E.
    + rewrite replace_from_skip, length_app.
      assert (Hl := startswith_length _ _ E).
      destruct old as [|a old']; [congruence|].
      replace (String.length (String a old') - 1)%nat with (String.length old')
        by (simpl; lia).
      specialize (IH (drop (String.length old') t)).
      rewrite length_drop in IH. cbn [String.length] in *.
      destruct IH as [IH1 IH2]; [lia|].
      split; intros Hlt; [destruct (IH1 Hlt) as [Hle _]
                         |destruct (IH2 Hlt) as [Hle _]];
        (split; [|intros _]); cbn [orb]; lia.
    + cbn [orb String.length]. specialize (IH t ltac:(simpl in Hn; lia)).
      destruct IH as [IH1 IH2].
      split; intros Hlt; [destruct (IH1 Hlt) as [Hle Hin]
                         |destruct (IH2 Hlt) as [Hle Hin]];
        (split; [lia | intros H; specialize (Hin H); lia]).
Qed.

Lemma length_intersperse (new s : string) :
  String.length (intersperse new s)
  = (String.length s + (String.length s + 1) * String.length new)%nat.
Proof.
  induction s as [|c t IH]; cbn [intersperse].
  - simpl. lia.
  - rewrite length_app. cbn [String.length]. rewrite IH. lia.
Qed.

(** A category with a hyphen is longer than its form without hyphens. *)
Lemma typo_shorter (c : string) :
  in_str "-" c = true ->
  (String.length (replace "-" "" c) < String.length c)%nat.
Proof.
  intros H. cbn [replace].
  destruct (replace_from_length "-" "" ltac:(discriminate)
              (String.length c) c ltac:(lia)) as [_ Hs].
  now apply Hs; [simpl; lia|].
Qed.

(** *** The repair of identifiers *)

Section Registry.
Variable ARCHIVES : list string.

Lemma fix_in_str (categories : list string) (s : string) :
  fix_in categories (VStr s) =
  Ok (VStr (match first_code categories s with
            | Some category => replace (replace "-" "" category) category s
            | None => s
            end)).
Proof.
  induction categories as [|c rest IH]; [reflexivity|].
  cbn [fix_in first_code typo_in bind].
  destruct (in_str (replace "-" "" c) s); [reflexivity | exact IH].
Qed.

Lemma fix_arxiv_id_str (s : string) :
  _fix_arxiv_id ARCHIVES (VStr s) = Ok (VStr (fix_str ARCHIVES s)).
Proof. apply fix_in_str. Qed.

(** A settled text is a fixed point of the repair. *)
Lemma fix_str_settled (s : string) :
  settled ARCHIVES s = true -> fix_str ARCHIVES s = s.
Proof.
  unfold settled, fix_str. destruct (first_code ARCHIVES s) as [c|]; [|reflexivity].
  intros H. apply negb_true_iff in H.
  rewrite (replace_no_hyphen c H). apply replace_same.
Qed.

Lemma first_code_occurs (categories : list string) (s c : string) :
  first_code categories s = Some c -> in_str (replace "-" "" c) s = true.
Proof.
  induction categories as [|c0 rest IH]; [discriminate|]. cbn [first_code].
  destruct (in_str (replace "-" "" c0) s) eqn:E; [|exact IH].
  now intros [= <-].
Qed.

(** A text that is not settled is changed by the repair. *)
Lemma fix_str_unsettled (s : string) :
  settled ARCHIVES s = false -> fix_str ARCHIVES s <> s.
Proof.
  unfold settled, fix_str.
  destruct (first_code ARCHIVES s) as [c|] eqn:E; [|discriminate].
  intros H. apply negb_false_iff in H.
  assert (Ht := typo_shorter c H). apply first_code_occurs in E.
  intros Heq. apply (f_equal String.length) in Heq. revert Heq.
  unfold replace at 1. destruct (replace "-" "" c) as [|a t] eqn:Et.
  - rewrite length_intersperse. simpl in Ht. nia.
  - destruct (replace_from_length (String a t) c ltac:(discriminate)
                (String.length s) s ltac:(lia)) as [Hl _].
    destruct (Hl Ht) as [_ Hin]. specialize (Hin E). lia.
Qed.

End Registry.

Local Abbreviation hyphen_free x := (in_str "-" x = false).
Local Abbreviation typo c := (replace "-" "" c).

(** *** Occurrences of a text in another *)














(** *** Hyphens *)










(** *** One repair *)


Section Registry.
Variable ARCHIVES : list string.



End Registry.

(** *** Authors *)

Lemma author_names (d : list (string * obj)) :
  author_ok (VDict d) = true ->
  _remove_dots_from_author_names (VDict d)
  = Ok (VDict (clean_name "fullname"
                 (match dict_get d "givennames" VNone with
                  | VStr s => dict_set "givennames" (VStr (dots_title s)) d
                  | _ => d
                  end))).
Proof.
  unfold author_ok, text_or_none, _remove_dots_from_author_names, clean_name.
  cbn [get bind]. intros H. apply andb_true_iff in H as [Hg Hf].
  destruct (dict_get d "givennames" VNone) as [| | |sg| | | |] eqn:Eg;
    try discriminate;
    destruct (dict_get d "fullname" VNone) as [| | |sf| | | |] eqn:Ef;
    try discriminate; cbn [is_none negb bind];
    rewrite ?dict_get_set_other by discriminate; rewrite ?Ef; reflexivity.
Qed.

Lemma author_twice (x : obj) :
  author_ok x = true ->
  exists x',
    _remove_dots_from_author_names x = Ok x' /\
    _remove_dots_from_author_names x' = Ok x' /\
    scalar x' = true.
Proof.
  destruct x as [| | | | |d| |]; try discriminate. intros H.
  rewrite (author_names d H). eexists. split; [reflexivity|].
  split; [|reflexivity].
  unfold author_ok, text_or_none in H. apply andb_true_iff in H as [Hg Hf].
  unfold clean_name.
  destruct (dict_get d "givennames" VNone) as [| | |sg| | | |] eqn:Eg;
    try discriminate;
    destruct (dict_get d "fullname" VNone) as [| | |sf| | | |] eqn:Ef;
    try discriminate;
    repeat (rewrite dict_get_set_same
            || (rewrite dict_get_set_other by discriminate)
            || rewrite Ef);
    (rewrite author_names;
     [|unfold author_ok, text_or_none;
       repeat (rewrite dict_get_set_same
               || (rewrite dict_get_set_other by discriminate)
               || rewrite Eg || rewrite Ef); reflexivity]);
    unfold clean_name;
    repeat (rewrite dict_get_set_same
            || (rewrite dict_get_set_other by discriminate)
            || rewrite Eg || rewrite Ef || rewrite dots_title_twice
            || rewrite dict_set_twice);
    try reflexivity.
  rewrite (dict_set_id "givennames"); [now rewrite dict_set_twice|].
  rewrite dict_lookup_set_other by discriminate.
  apply dict_lookup_set_same.
Qed.

(** *** ASCII texts stay ASCII *)

Lemma case_of_ascii b c :
  (code (case_of b c) <? 128)%nat = (code c <? 128)%nat.
Proof. destruct b; ascii_cases c; reflexivity. Qed.

Lemma isascii_title (s : string) : forall b,
  isascii s = true -> isascii (title_from b s) = true.
Proof.
  unfold isascii. induction s as [|c t IH]; intros b; [reflexivity|].
  cbn [title_from all]. rewrite case_of_ascii.
  intros H. apply andb_true_iff in H as [-> Ht]. now apply IH.
Qed.

Lemma all_sub_dots (q : ascii -> bool) (s : string) :
  q " "%char = true -> all q s = true ->
  forall pos skip, all q (sub_from RE_DOTS " " pos s skip) = true.
Proof.
  intros Hq. induction s as [|c t IH]; intros Hs pos skip.
  - destruct skip; cbn [sub_from]; [|reflexivity]. now rewrite match_at_dots.
  - cbn [all] in Hs. apply andb_true_iff in Hs as [Hc Ht].
    destruct skip as [|n]; cbn [sub_from]; [|now apply IH].
    rewrite match_at_dots. destruct (is_dot c).
    + rewrite append_cons, append_nil. cbn [all]. rewrite Hq.
      destruct (S pos + run is_space t =? pos)%nat; cbn [all andb];
        rewrite ?Hc; now apply IH.
    + cbn [all]. rewrite Hc. now apply IH.
Qed.

Lemma isascii_dots_title (s : string) :
  isascii s = true -> isascii (dots_title s) = true.
Proof.
  intros H. unfold dots_title, Py.title, strip. apply isascii_title.
  unfold isascii. apply all_rstrip_by, all_lstrip_by.
  now apply all_sub_dots.
Qed.

Lemma ascii_clean_name (k k' : string) (d : list (string * obj)) :
  ascii_text (dict_get d k VNone) = true ->
  ascii_text (dict_get d k' VNone) = true ->
  ascii_text (dict_get (clean_name k d) k' VNone) = true.
Proof.
  intros Hk Hk'. unfold clean_name.
  destruct (dict_get d k VNone) as [| | |s| | | |] eqn:E; try exact Hk'.
  destruct (String.eqb k' k) eqn:Ek.
  - apply String.eqb_eq in Ek as ->. rewrite dict_get_set_same.
    now apply isascii_dots_title.
  - apply String.eqb_neq in Ek. now rewrite dict_get_set_other.
Qed.

Lemma author_ascii (x : obj) :
  author_ok x = true -> ascii_author x = true ->
  exists x',
    _remove_dots_from_author_names x = Ok x' /\
    _remove_dots_from_author_names x' = Ok x' /\
    scalar x' = true /\ ascii_author x' = true.
Proof.
  intros Hok Ha. destruct (author_twice x Hok) as (x' & H1 & H2 & Hs).
  exists x'. repeat (split; [assumption|]).
  destruct x as [| | | | |d| |]; try discriminate.
  rewrite (author_names d Hok) in H1. injection H1 as <-.
  fold (clean_name "givennames" d).
  cbn [ascii_author] in *. apply andb_true_iff in Ha as [Hg Hf].
  apply andb_true_iff. split; apply ascii_clean_name;
    try (apply ascii_clean_name; assumption).
Qed.

(** *** One field *)

Section Field.
Variable normalizer : obj -> result obj.
Variables P Q : obj -> bool.
Hypothesis normalizer_twice :
  forall x, P x = true ->
    exists x',
      normalizer x = Ok x' /\ normalizer x' = Ok x' /\
      scalar x' = true /\ Q x' = true.



End Field.


(** A round of the loop writes the normalized value into its field. *)
Ltac round_of_loop r :=
  destruct r as [? t s ? ? ? ? a ? ? x ? ?];
  unfold normalize_field, normalize_value, with_fields;
  cbn [getattr to_dict dict_lookup authors title source arxiv_id raw year
       volume pages issue identifiers doi reftype score String.eqb Ascii.eqb
       Bool.eqb andb];
  match goal with
  | |- (if is_none ?v then _ else _) = _ -> _ =>
      let H := fresh "H" in
      destruct v; cbn [is_none]; intros H; rewrite ?H;
      try injection H as <-; try reflexivity;
      match goal with
      | |- context [mapM ?N ?l] =>
          destruct (mapM N l); [injection H as <-; reflexivity | discriminate]
      end
  end.

Lemma normalize_field_authors r N v :
  normalize_value N (authors r) = Ok v ->
  normalize_field r ("authors", N)
  = Ok (with_fields r v (title r) (source r) (arxiv_id r)).
Proof. round_of_loop r. Qed.

Lemma normalize_field_title r N v :
  normalize_value N (title r) = Ok v ->
  normalize_field r ("title", N)
  = Ok (with_fields r (authors r) v (source r) (arxiv_id r)).
Proof. round_of_loop r. Qed.

Lemma normalize_field_source r N v :
  normalize_value N (source r) = Ok v ->
  normalize_field r ("source", N)
  = Ok (with_fields r (authors r) (title r) v (arxiv_id r)).
Proof. round_of_loop r. Qed.

Lemma normalize_field_arxiv_id r N v :
  normalize_value N (arxiv_id r) = Ok v ->
  normalize_field r ("arxiv_id", N)
  = Ok (with_fields r (authors r) (title r) (source r) v).
Proof. round_of_loop r. Qed.




Section Record.
Variable ARCHIVES : list string.

Local Abbreviation N_authors := _remove_dots_from_author_names.
Local Abbreviation N_title := _remove_leading_trailing_nonalpha.
Local Abbreviation N_source :=
  (fun text => s <- _remove_dots text ;; Ok (VStr (Py.title s))).
Local Abbreviation N_arxiv_id := (_fix_arxiv_id ARCHIVES).

(** The four rounds, one after the other. *)
Lemma normalize_record_fields r a t s x :
  normalize_value N_authors (authors r) = Ok a ->
  normalize_value N_title (title r) = Ok t ->
  normalize_value N_source (source r) = Ok s ->
  normalize_value N_arxiv_id (arxiv_id r) = Ok x ->
  normalize_record ARCHIVES r = Ok (with_fields r a t s x).
Proof.
  intros Ha Ht Hs Hx. unfold normalize_record, NORMALIZERS. cbn [foldM].
  rewrite (normalize_field_authors r _ a Ha). cbn [bind].
  rewrite (normalize_field_title _ _ t) by (destruct r; exact Ht). cbn [bind].
  rewrite (normalize_field_source _ _ s) by (destruct r; exact Hs). cbn [bind].
  rewrite (normalize_field_arxiv_id _ _ x) by (destruct r; exact Hx).
  destruct r; reflexivity.
Qed.



End Record.



End NormalizeFacts.

(* ================================================================== *)
(** ** The ranges of the beliefs *)
(* ================================================================== *)

Module RangeFacts.
Import Py Re Domain Beliefs PyFacts ReFacts ScorerFacts.

(** *** Sums and ratios of probabilities *)

Lemma Qnat_nonneg (n : nat) : (0 <= Qnat n)%Q.
Proof.
  unfold Qnat, Qle. cbn. lia.
Qed.

Lemma Qnat_pos (n : nat) : (0 < n)%nat -> (0 < Qnat n)%Q.
Proof.
  intros H. unfold Qnat, Qlt. cbn. lia.
Qed.

Lemma Qsum_range (l : list Q) :
  Forall (fun x => 0 <= x <= 1)%Q l ->
  (0 <= Qsum l <= Qnat (List.length l))%Q.
Proof.
  induction 1 as [|x l [Hx0 Hx1] _ [IH0 IH1]].
  - split; apply Qle_refl.
  - rewrite Qsum_cons. cbn [List.length]. rewrite Qnat_S. split.
    + rewrite <- (Qplus_0_l 0). apply Qplus_le_compat; assumption.
    + apply Qplus_le_compat; assumption.
Qed.

Lemma div_range (a : Q) (n : nat) :
  (0 < n)%nat -> (0 <= a <= Qnat n)%Q ->
  exists q, div a (Qnat n) = Ok q /\ (0 <= q <= 1)%Q.
Proof.
  intros Hn [Ha0 Ha1]. unfold div.
  rewrite (Qnat_pos_nonzero n Hn). eexists. split; [reflexivity|].
  pose proof (Qnat_pos n Hn) as Hp. split.
  - apply Qle_shift_div_l; [assumption|]. rewrite Qmult_0_l. assumption.
  - apply Qle_shift_div_r; [assumption|]. rewrite Qmult_1_l. assumption.
Qed.

Lemma Qsum_ones {A : Type} (f : A -> bool) (l : list A) :
  forallb f l = true ->
  (Qsum (map (fun w => if f w then 1 else 0) l) == Qnat (List.length l))%Q.
Proof.
  induction l as [|w l IH]; cbn [forallb map List.length]; intros H.
  - reflexivity.
  - apply andb_true_iff in H as [Hw Hl].
    rewrite Qsum_cons, Qnat_S, Hw, (IH Hl). reflexivity.
Qed.

Lemma indicator_range {A : Type} (f : A -> bool) (l : list A) :
  Forall (fun x => 0 <= x <= 1)%Q (map (fun w => if f w then 1 else 0)%Q l).
Proof.
  induction l as [|w l IH]; cbn [map]; constructor; [|assumption].
  destruct (f w); split; discriminate.
Qed.

(** *** Substrings *)

Lemma startswith_append (x b : string) : startswith x (x ++ b) = true.
Proof.
  induction x as [|c x IH]; [reflexivity|].
  rewrite append_cons. cbn [startswith]. rewrite Ascii.eqb_refl. exact IH.
Qed.

Lemma in_str_iff (sub s : string) :
  in_str sub s = true <-> exists a b, s = a ++ sub ++ b.
Proof.
  split.
  - induction s as [|c t IH]; cbn [in_str]; intros H;
      apply orb_true_iff in H as [H|H]; try discriminate.
    + exists "", (drop (String.length sub) "").
      rewrite append_nil. apply NormalizeFacts.startswith_split, H.
    + exists "", (drop (String.length sub) (String c t)).
      rewrite append_nil. apply NormalizeFacts.startswith_split, H.
    + destruct (IH H) as (a & b & ->). exists (String c a), b.
      rewrite append_cons. reflexivity.
  - intros (a & b & ->). induction a as [|c a IH].
    + rewrite append_nil. destruct (sub ++ b) eqn:E; cbn [in_str];
        rewrite <- E, startswith_append; reflexivity.
    + rewrite append_cons. cbn [in_str]. rewrite IH. apply orb_true_r.
Qed.

Lemma endswith_iff (p s : string) :
  endswith p s = true <-> exists a, s = a ++ p.
Proof.
  split.
  - induction s as [|c t IH]; cbn [endswith]; intros H;
      apply orb_true_iff in H as [H|H]; try discriminate.
    + apply String.eqb_eq in H as ->. exists "". reflexivity.
    + apply String.eqb_eq in H as ->. exists "". rewrite append_nil. reflexivity.
    + destruct (IH H) as (a & ->). exists (String c a).
      rewrite append_cons. reflexivity.
  - intros (a & ->). induction a as [|c a IH].
    + rewrite append_nil. destruct p; cbn [endswith];
        rewrite String.eqb_refl; reflexivity.
    + rewrite append_cons. cbn [endswith]. rewrite IH. apply orb_true_r.
Qed.

(** *** [likely] *)

Lemma clamp_spec (x min_prob max_prob : Q) :
  (min_prob <= max_prob)%Q ->
  let y := Py.max (Py.min x max_prob) min_prob in
  (min_prob <= y <= max_prob)%Q /\
  ((min_prob <= x <= max_prob)%Q -> y = x) /\
  ((x < min_prob)%Q -> y = min_prob) /\
  ((max_prob < x)%Q -> y = max_prob).
Proof.
  intros Hb. unfold Py.max, Py.min.
  destruct (Qle_bool x max_prob) eqn:Hhi.
  - apply Qle_bool_iff in Hhi.
    destruct (Qle_bool min_prob x) eqn:Hlo.
    + apply Qle_bool_iff in Hlo. repeat split; try assumption.
      * intros H. exfalso. apply (Qlt_not_le _ _ H), Hlo.
      * intros H. exfalso. apply (Qlt_not_le _ _ H), Hhi.
    + assert (x < min_prob)%Q as Hlt.
      { apply Qnot_le_lt. intros H. apply Qle_bool_iff in H. congruence. }
      repeat split; try assumption; try apply Qle_refl.
      * intros [H _]. exfalso. apply (Qlt_not_le _ _ Hlt), H.
      * intros H. exfalso. apply (Qlt_not_le _ _ H), Hhi.
  - assert (max_prob < x)%Q as Hlt.
    { apply Qnot_le_lt. intros H. apply Qle_bool_iff in H. congruence. }
    assert (Qle_bool min_prob max_prob = true) as -> by (apply Qle_bool_iff, Hb).
    repeat split; try assumption; try apply Qle_refl.
    + intros [_ H]. exfalso. apply (Qlt_not_le _ _ Hlt), H.
    + intros H. exfalso.
      apply (Qlt_not_le _ _ H), (Qle_trans _ max_prob); [assumption|].
      apply Qlt_le_weak, Hlt.
Qed.

(** X1. [likely(func, min_prob, max_prob)] with [min_prob <= max_prob]
    returns the output of [func] clamped into the interval: the output
    itself when it lies inside, the nearer bound otherwise.  What
    [func] raises, it raises. *)
Theorem likely_clamps (func : belief) (min_prob max_prob : Q) (value : obj) :
  (min_prob <= max_prob)%Q ->
  match func value with
  | Ok x =>
      exists y,
        likely func min_prob max_prob value = Ok y /\
        (min_prob <= y <= max_prob)%Q /\
        ((min_prob <= x <= max_prob)%Q -> y = x) /\
        ((x < min_prob)%Q -> y = min_prob) /\
        ((max_prob < x)%Q -> y = max_prob)
  | Raise e => likely func min_prob max_prob value = Raise e
  end.
Proof.
  intros Hb. unfold likely. destruct (func value) as [x|e]; cbn [bind];
    [|reflexivity].
  eexists. split; [reflexivity|]. now apply clamp_spec.
Qed.

(** X2. The scorers that look for a substring: [contains] returns
    [true_prob] for the strings in which the substring occurs and
    [false_prob] for the others, and [does_not_contain_arxiv] is
    [contains('arxiv', 1, 0)]; [ends_with] returns [true_prob] for the
    strings that end with the substring, and [doesnt_end_with] swaps the
    two probabilities, so that with the default ones the two scores of
    a string add up to 1.  On a value that is not a string each of them
    returns 0 whatever the probabilities are: there [doesnt_end_with] is
    not the inverse of [ends_with]. *)
Theorem substring_scorers (substring : string) (false_prob true_prob : Q) :
  (forall s,
     (contains substring false_prob true_prob (VStr s) = Ok true_prob /\
      exists a b, s = a ++ substring ++ b) \/
     (contains substring false_prob true_prob (VStr s) = Ok false_prob /\
      forall a b, s <> a ++ substring ++ b)) /\
  (forall s,
     (ends_with substring false_prob true_prob (VStr s) = Ok true_prob /\
      doesnt_end_with substring false_prob true_prob (VStr s) = Ok false_prob /\
      exists a, s = a ++ substring) \/
     (ends_with substring false_prob true_prob (VStr s) = Ok false_prob /\
      doesnt_end_with substring false_prob true_prob (VStr s) = Ok true_prob /\
      forall a, s <> a ++ substring)) /\
  (forall s,
     exists x y,
       ends_with substring 0 1 (VStr s) = Ok x /\
       doesnt_end_with substring 0 1 (VStr s) = Ok y /\ (x + y == 1)%Q) /\
  (forall value,
     is_str value = false ->
     contains substring false_prob true_prob value = Ok 0%Q /\
     ends_with substring false_prob true_prob value = Ok 0%Q /\
     doesnt_end_with substring false_prob true_prob value = Ok 0%Q) /\
  (forall value, does_not_contain_arxiv value = contains "arxiv" 1 0 value).
Proof.
  split; [|split; [|split; [|split]]].
  - intros s. unfold contains.
    pose proof (in_str_iff substring s) as Hiff.
    destruct (in_str substring s).
    + left. split; [reflexivity|]. apply Hiff. reflexivity.
    + right. split; [reflexivity|]. intros a b E.
      assert (false = true) by (apply Hiff; eauto). discriminate.
  - intros s. unfold doesnt_end_with, ends_with.
    pose proof (endswith_iff substring s) as Hiff.
    destruct (endswith substring s).
    + left. split; [reflexivity|]. split; [reflexivity|].
      apply Hiff. reflexivity.
    + right. split; [reflexivity|]. split; [reflexivity|]. intros a E.
      assert (false = true) by (apply Hiff; eauto). discriminate.
  - intros s. unfold doesnt_end_with, ends_with.
    destruct (endswith substring s); do 2 eexists;
      (split; [reflexivity|]); (split; [reflexivity|]); reflexivity.
  - intros [| | | | | | |]; cbn; intros H; try (repeat split; reflexivity);
      discriminate H.
  - intros [| | | | | | |]; reflexivity.
Qed.

(** *** The scorers of numbers *)

Lemma Qnat_le (a b : nat) : (a <= b)%nat -> (Qnat a <= Qnat b)%Q.
Proof.
  intros H. unfold Qnat, Qle. cbn. lia.
Qed.

Lemma ratio_range (a b : nat) :
  (a <= b)%nat -> (0 < b)%nat -> (0 <= Qnat a / Qnat b <= 1)%Q.
Proof.
  intros Hab Hb. pose proof (Qnat_pos b Hb) as Hp. split.
  - apply Qle_shift_div_l; [assumption|]. rewrite Qmult_0_l. apply Qnat_nonneg.
  - apply Qle_shift_div_r; [assumption|]. rewrite Qmult_1_l.
    apply Qnat_le, Hab.
Qed.

Lemma matched_length_le (s : string) : (matched_length s <= String.length s)%nat.
Proof.
  pose proof (matched_length_sub s). lia.
Qed.

(** On a string [int] raises [ValueError] only, which [is_year]
    catches. *)
Lemma is_year_str (s : string) :
  is_year (VStr s) = Ok 0%Q \/ is_year (VStr s) = Ok 1%Q.
Proof.
  unfold is_year. destruct (int (VStr s)) as [n|e] eqn:E.
  - destruct ((1600 <? n)%Z && (n <? 2100)%Z); auto.
  - apply int_str_raises in E as ->. auto.
Qed.

(** A comprehension whose function returns on every element. *)
Section MapM.
Context {A B : Type} (f : A -> result B) (P : B -> Prop).

Lemma mapM_Forall (l : list A) :
  Forall (fun x => exists y, f x = Ok y /\ P y) l ->
  exists ys, mapM f l = Ok ys /\ Forall P ys /\ List.length ys = List.length l.
Proof.
  induction 1 as [|x l (y & Hy & Py) _ (ys & Hys & Pys & Hlen)];
    cbn [mapM].
  - exists []. repeat split. constructor.
  - rewrite Hy, Hys. cbn [bind]. exists (y :: ys).
    split; [reflexivity|]. split; [constructor; assumption|].
    cbn [List.length]. now rewrite Hlen.
Qed.

End MapM.

(** *** A string of digits under [RE_INTEGER]

    The matcher on a run of the class: the longest attempt comes first,
    so a continuation that accepts the end of the subject is reached
    there. *)
Lemma star_all {R : Type} (p : ascii -> bool) (k : cont R) (x : R) :
  forall s pos caps,
    all p s = true ->
    k (pos + String.length s)%nat "" caps = Some x ->
    star p pos s caps k = Some x.
Proof.
  induction s as [|c t IH]; cbn [star all String.length]; intros pos caps Hall Hk.
  - now rewrite Nat.add_0_r in Hk.
  - apply andb_true_iff in Hall as [-> Ht].
    rewrite (IH (S pos) caps Ht); [reflexivity|].
    now replace (S pos + String.length t)%nat
      with (pos + S (String.length t))%nat by lia.
Qed.

Lemma take_all (s : string) : take (String.length s) s = s.
Proof.
  induction s as [|c t IH]; cbn [take String.length]; [reflexivity|].
  now rewrite IH.
Qed.

Lemma match_at_digits (s : string) :
  all is_digit s = true -> s <> "" ->
  match_at RE_INTEGER 0 s = Some (String.length s, [s]).
Proof.
  intros Hall Hne. destruct s as [|c t]; [congruence|].
  cbn [all] in Hall. apply andb_true_iff in Hall as [Hc Ht].
  unfold match_at, RE_INTEGER. cbn [m Nat.eqb plus]. rewrite Hc.
  rewrite (star_all is_digit _ (String.length (String c t), [String c t])).
  - reflexivity.
  - exact Ht.
  - cbn [at_eol String.length Nat.add app].
    rewrite Nat.sub_0_r.
    change (S (String.length t)) with (String.length (String c t)).
    now rewrite take_all.
Qed.

Lemma drop_length (s : string) : drop (String.length s) s = "".
Proof.
  induction s as [|c t IH]; [reflexivity | exact IH].
Qed.

(** The characters inside a match are passed over. *)
Lemma scan_skip (r : re) (skip : nat) : forall s pos,
  (skip <= String.length s)%nat ->
  scan r pos s skip = scan r (pos + skip)%nat (drop skip s) 0.
Proof.
  induction skip as [|n IH]; intros s pos H.
  - now rewrite Nat.add_0_r.
  - destruct s as [|c t]; cbn [String.length] in H; [lia|].
    cbn [scan drop]. rewrite IH by lia. f_equal. lia.
Qed.

Lemma scan_digits (s : string) :
  all is_digit s = true -> s <> "" ->
  scan RE_INTEGER 0 s 0 = [(0%nat, String.length s, [s])].
Proof.
  intros Hall Hne. destruct s as [|c t]; [congruence|].
  cbn [scan]. rewrite (match_at_digits _ Hall Hne).
  cbn [String.length]. rewrite Nat.sub_0_r. cbn [Nat.sub].
  rewrite Nat.sub_0_r, scan_skip, drop_length by lia. reflexivity.
Qed.

Lemma findall_digits (s : string) :
  all is_digit s = true -> s <> "" -> findall RE_INTEGER s = [s].
Proof.
  intros Hall Hne. unfold findall. now rewrite (scan_digits s Hall Hne).
Qed.

Lemma matched_length_digits (s : string) :
  all is_digit s = true -> s <> "" -> matched_length s = String.length s.
Proof.
  intros Hall Hne. unfold matched_length. rewrite (scan_digits s Hall Hne).
  cbn. lia.
Qed.

(** *** [is_integer_like] and [is_year_like] *)

Lemma is_integer_like_total (value : obj) :
  exists q, is_integer_like value = Ok q /\ (0 <= q <= 1)%Q.
Proof.
  assert (forall q : Q, q = 0%Q \/ q = 1%Q -> (0 <= q <= 1)%Q) as Hbit.
  { intros q [-> | ->]; split; discriminate. }
  destruct value as [|n|x|s|l|d|neg|];
    try (eexists; split; [reflexivity|]; apply Hbit; auto; fail).
  - destruct (findall RE_INTEGER s) as [|tok toks] eqn:Ef.
    + exists 0%Q. split; [|apply Hbit; auto].
      unfold is_integer_like. cbn [is_none is_int has_len andb].
      rewrite Ef. now destruct (len_is (VStr s) 0).
    + destruct (is_integer_like_covered s) as (q & Hq & Heq);
        [congruence|].
      exists q. split; [exact Hq|]. rewrite Heq.
      apply ratio_range; [apply matched_length_le|].
      destruct s; [discriminate Ef | cbn; lia].
  - exists 0%Q. split; [now destruct l | apply Hbit; auto].
  - exists 0%Q. split; [now destruct d | apply Hbit; auto].
Qed.

Lemma is_integer_like_digits (s : string) :
  all is_digit s = true -> s <> "" ->
  exists q, is_integer_like (VStr s) = Ok q /\ (q == 1)%Q.
Proof.
  intros Hall Hne.
  destruct (is_integer_like_covered s) as (q & Hq & Heq).
  { rewrite (findall_digits s Hall Hne). discriminate. }
  exists q. split; [exact Hq|]. rewrite Heq.
  rewrite (matched_length_digits s Hall Hne).
  apply Qmult_inv_r. intros E. apply Qeq_bool_iff in E.
  rewrite Qnat_pos_nonzero in E; [discriminate|].
  destruct s; [congruence | cbn; lia].
Qed.

(** X3. [is_integer_like] never raises, whatever the value, and its score
    lies between 0 and 1; a non-empty string of digits scores 1. *)
Theorem is_integer_like_range :
  (forall value,
     exists q, is_integer_like value = Ok q /\ (0 <= q <= 1)%Q) /\
  (forall s,
     all is_digit s = true -> s <> "" ->
     exists q, is_integer_like (VStr s) = Ok q /\ (q == 1)%Q).
Proof.
  split; [exact is_integer_like_total | exact is_integer_like_digits].
Qed.

Lemma is_year_like_total (value : obj) :
  exists q, is_year_like value = Ok q /\ (0 <= q <= 1)%Q.
Proof.
  unfold is_year_like.
  destruct value as [| | |s| | | |]; cbn [findall_v bind];
    try (exists 0%Q; split; [reflexivity | split; discriminate]).
  destruct (findall RE_INTEGER s) as [|tok toks];
    [exists 0%Q; split; [reflexivity | split; discriminate]|].
  destruct (mapM_Forall (fun i => is_year (VStr i))
              (fun y => 0 <= y <= 1)%Q (tok :: toks))
    as (years & -> & Hyears & Hlen).
  { apply Forall_forall. intros i _.
    destruct (is_year_str i) as [-> | ->]; eexists;
      (split; [reflexivity|]); split; discriminate. }
  cbn [bind].
  destruct (div_range (1 * Qsum years) (List.length (tok :: toks)))
    as (q & -> & Hq).
  - cbn; lia.
  - rewrite Qmult_1_l, <- Hlen. now apply Qsum_range.
  - eauto.
Qed.

Lemma is_year_like_digits (s : string) :
  all is_digit s = true -> s <> "" ->
  exists q y,
    is_year_like (VStr s) = Ok q /\ is_year (VStr s) = Ok y /\ (q == y)%Q.
Proof.
  intros Hall Hne. unfold is_year_like. cbn [findall_v bind].
  rewrite (findall_digits s Hall Hne). cbn [mapM].
  assert (exists y, is_year (VStr s) = Ok y) as (y & Hy).
  { destruct (is_year_str s) as [-> | ->]; eauto. }
  rewrite Hy. cbn [bind List.length]. unfold div.
  rewrite Qnat_S_nonzero. exists (1 * Qsum [y] / Qnat 1)%Q, y.
  split; [reflexivity|]. split; [reflexivity|].
  unfold Qsum, Qnat. cbn [fold_left Z.of_nat inject_Z]. field.
Qed.

(** X4. [is_year_like] never raises, whatever the value, and its score lies
    between 0 and 1; on a non-empty string of digits it agrees with
    [is_year]. *)
Theorem is_year_like_range :
  (forall value,
     exists q, is_year_like value = Ok q /\ (0 <= q <= 1)%Q) /\
  (forall s,
     all is_digit s = true -> s <> "" ->
     exists q y,
       is_year_like (VStr s) = Ok q /\ is_year (VStr s) = Ok y /\
       (q == y)%Q).
Proof.
  split; [exact is_year_like_total | exact is_year_like_digits].
Qed.

(** X5. [is_integer] and [is_year] read the value with [int] and catch
    [ValueError] only: a plausible year is an integer, what is not an
    integer is not a year, and the two raise together, [TypeError] on
    [None], a list or a dict and [OverflowError] on an infinity.  An
    [int] and a finite [float] are integers, [nan] is not. *)
Theorem is_year_is_integer (value : obj) :
  (is_year value = Ok 1%Q -> is_integer value = Ok 1%Q) /\
  (is_integer value = Ok 0%Q -> is_year value = Ok 0%Q) /\
  (forall e, is_integer value = Raise e <-> is_year value = Raise e) /\
  match value with
  | VNone | VList _ | VDict _ => is_integer value = Raise TypeError
  | VInf _ => is_integer value = Raise OverflowError
  | VNan => is_integer value = Ok 0%Q
  | VInt _ | VFloat _ => is_integer value = Ok 1%Q
  | VStr _ => is_integer value = Ok 1%Q \/ is_integer value = Ok 0%Q
  end.
Proof.
  unfold is_year, is_integer. split; [|split; [|split]].
  - destruct (int value) as [n|[]]; try reflexivity; discriminate.
  - destruct (int value) as [n|[]]; try reflexivity; discriminate.
  - intros e. destruct (int value) as [n|[]]; try reflexivity.
    destruct ((1600 <? n)%Z && (n <? 2100)%Z); split; discriminate.
  - destruct value as [| | |s| | | |]; try reflexivity.
    destruct (int (VStr s)) as [n|e] eqn:E; [now left|].
    apply int_str_raises in E as ->. now right.
Qed.

(** *** The functions that read the environment *)

Section Environment.

Variable clean_text : option bool -> obj -> result string.
Variables REGEX_DOI REGEX_ISBN_10 REGEX_ISBN_13 REGEX_ARXIV_STRICT
  : string -> bool.
Variable bloom_filters : option ((string -> bool) * (string -> bool)).

Local Abbreviation bloom_match := (bloom_match clean_text).

(** *** [bloom_match] *)

Lemma bloom_match_unit (bloom_filter : string -> bool) (value : obj) (q : Q) :
  bloom_match bloom_filter value = Ok q -> (0 <= q <= 1)%Q.
Proof.
  unfold Beliefs.bloom_match.
  destruct (clean_text (Some true) value) as [text|e]; cbn [bind];
    [|discriminate].
  rewrite List.length_map.
  destruct (split text) as [|w ws]; cbn [List.length Nat.eqb].
  - intros [= <-]. split; discriminate.
  - pose proof (Qsum_range _ (indicator_range bloom_filter (w :: ws))) as Hr.
    rewrite List.length_map in Hr.
    destruct (div_range _ (List.length (w :: ws)) ltac:(cbn; lia) Hr)
      as (q' & Hq & Hq01).
    cbn [List.length] in Hq. rewrite Hq. now intros [= <-].
Qed.

(** X6. [bloom_match] raises only what [clean_text] raises, and never
    divides by zero: a text without a word scores 0.  Its score is a
    fraction between 0 and 1, and is 1 when the filter holds every
    word. *)
Theorem bloom_match_range (bloom_filter : string -> bool) (value : obj) :
  match bloom_match bloom_filter value with
  | Ok q =>
      (0 <= q <= 1)%Q /\
      exists text,
        clean_text (Some true) value = Ok text /\
        (split text = [] -> q = 0%Q) /\
        (split text <> [] -> forallb bloom_filter (split text) = true ->
         (q == 1)%Q)
  | Raise e => clean_text (Some true) value = Raise e
  end.
Proof.
  unfold Beliefs.bloom_match.
  destruct (clean_text (Some true) value) as [text|e]; cbn [bind];
    [|reflexivity].
  rewrite List.length_map.
  destruct (split text) as [|w ws] eqn:Hwords; cbn [List.length Nat.eqb].
  - split; [split; discriminate|].
    exists text. split; [reflexivity|]. split; [reflexivity|congruence].
  - pose proof (Qsum_range _ (indicator_range bloom_filter (w :: ws))) as Hr.
    rewrite List.length_map in Hr.
    destruct (div_range _ (List.length (w :: ws)) ltac:(cbn; lia) Hr)
      as (q & Hq & Hq01).
    cbn [List.length] in Hq. rewrite Hq. split; [assumption|].
    exists text. split; [reflexivity|]. split; [intros H; rewrite Hwords in H; discriminate H|].
    intros _ Hall. rewrite Hwords in Hall. unfold div in Hq. rewrite Qnat_S_nonzero in Hq.
    injection Hq as <-. rewrite (Qsum_ones _ _ Hall). cbn [List.length].
    apply Qmult_inv_r. intros H0.
    pose proof (Qnat_S_nonzero (List.length ws)) as Hn.
    apply Qeq_bool_neq in Hn. contradiction.
Qed.

Local Abbreviation words_auth := (words_auth clean_text bloom_filters).
Local Abbreviation words_title := (words_title clean_text bloom_filters).
Local Abbreviation author_score := (author_score clean_text bloom_filters).
Local Abbreviation words_author_structure :=
  (words_author_structure clean_text bloom_filters).
Local Abbreviation valid_identifier :=
  (valid_identifier REGEX_ISBN_10 REGEX_ISBN_13).
Local Abbreviation count_identifier :=
  (count_identifier REGEX_ISBN_10 REGEX_ISBN_13).
Local Abbreviation BELIEF_FUNCTIONS :=
  (BELIEF_FUNCTIONS clean_text REGEX_DOI REGEX_ISBN_10 REGEX_ISBN_13
     REGEX_ARXIV_STRICT bloom_filters).
Local Abbreviation score_items :=
  (score_items clean_text REGEX_DOI REGEX_ISBN_10 REGEX_ISBN_13
     REGEX_ARXIV_STRICT bloom_filters).
Local Abbreviation calculate_belief :=
  (calculate_belief clean_text REGEX_DOI REGEX_ISBN_10 REGEX_ISBN_13
     REGEX_ARXIV_STRICT bloom_filters).
Local Abbreviation validate :=
  (validate clean_text REGEX_DOI REGEX_ISBN_10 REGEX_ISBN_13
     REGEX_ARXIV_STRICT bloom_filters).

(** A belief function whose outputs are probabilities. *)
Local Abbreviation bounded :=
  (fun func : belief => forall value x, func value = Ok x -> (0 <= x <= 1)%Q).

Lemma words_auth_unit : bounded words_auth.
Proof.
  unfold Beliefs.words_auth. intros value x.
  destruct bloom_filters as [[title_filter auth_filter]|].
  - apply bloom_match_unit.
  - intros [= <-]. split; discriminate.
Qed.

Lemma words_title_unit : bounded words_title.
Proof.
  unfold Beliefs.words_title. intros value x.
  destruct bloom_filters as [[title_filter auth_filter]|].
  - apply bloom_match_unit.
  - intros [= <-]. split; discriminate.
Qed.

(** *** [valid_identifier] *)

Lemma count_identifier_step (num_good : nat) (ID : obj) (n : nat) :
  count_identifier num_good ID = Ok n ->
  (num_good <= n <= S num_good)%nat /\
  (get ID "identifier_type" (VStr "") <> Ok (VStr "isbn") -> n = num_good) /\
  exists d, ID = VDict d.
Proof.
  unfold Beliefs.count_identifier.
  destruct ID as [| | | | |d| |]; cbn [get bind]; try discriminate.
  destruct (dict_get d "identifier_type" (VStr "")) as [| | |t| | | |] eqn:Et;
    try (intros [= <-]; repeat split; eauto; lia).
  destruct (String.eqb t "isbn") eqn:E.
  - apply String.eqb_eq in E as ->.
    destruct (dict_get d "identifier" (VStr "")) as [| | |s| | | |];
      try discriminate.
    destruct (REGEX_ISBN_10 s); [|destruct (REGEX_ISBN_13 s)];
      intros [= <-]; (split; [lia|]); (split; [|eauto]);
      intros H; now elim H.
  - assert (forall n' : nat,
              match t with "isbn" => n' | _ => num_good end = num_good
              \/ t = "isbn") as Hcase.
    { intros n'. clear.
      repeat (destruct t as [|[[] [] [] [] [] [] [] []] t]; auto). }
    assert (forall (a b : result nat),
              match t with "isbn" => a | _ => b end = b) as Hsel.
    { intros a b. apply String.eqb_neq in E. clear - E.
      repeat (destruct t as [|[[] [] [] [] [] [] [] []] t];
              try reflexivity). now elim E. }
    rewrite Hsel. intros [= <-]. repeat split; eauto; lia.
Qed.

Lemma foldM_count_range (items : list obj) : forall num_good n,
  foldM count_identifier num_good items = Ok n ->
  (num_good <= n <= num_good + List.length items)%nat /\
  ((forall ID, In ID items ->
      get ID "identifier_type" (VStr "") <> Ok (VStr "isbn")) ->
   n = num_good) /\
  Forall (fun ID => exists d, ID = VDict d) items.
Proof.
  induction items as [|ID items IH]; cbn [foldM List.length]; intros num_good n.
  - intros [= <-]. repeat split; [lia|lia|constructor].
  - destruct (count_identifier num_good ID) as [n1|e] eqn:E1; cbn [bind];
      [|discriminate].
    intros H. apply IH in H as (Hr & Hz & Hd).
    apply count_identifier_step in E1 as (Hr1 & Hz1 & Hd1).
    split; [lia|]. split; [|constructor; assumption].
    intros Hno. rewrite Hz by (intros; apply Hno; now right).
    apply Hz1, Hno. now left.
Qed.

(** X7. When [valid_identifier] returns, its value is a non-empty list of
    dicts and the score is a fraction between 0 and 1; only an
    identifier of type [isbn] can count, so a list without one
    scores 0. *)
Theorem valid_identifier_range (value : obj) (q : Q) :
  valid_identifier value = Ok q ->
  (0 <= q <= 1)%Q /\
  exists l,
    value = VList l /\ l <> [] /\
    Forall (fun ID => exists d, ID = VDict d) l /\
    ((forall ID, In ID l ->
        get ID "identifier_type" (VStr "") <> Ok (VStr "isbn")) ->
     (q == 0)%Q).
Proof.
  unfold Beliefs.valid_identifier.
  assert (forall items n,
            foldM count_identifier 0%nat items = Ok n ->
            div (Qnat n) (Qnat (List.length items)) = Ok q ->
            (0 <= q <= 1)%Q /\ items <> [] /\
            Forall (fun ID => exists d, ID = VDict d) items /\
            ((forall ID, In ID items ->
                get ID "identifier_type" (VStr "") <> Ok (VStr "isbn")) ->
             (q == 0)%Q)) as Hlist.
  { intros items n Hfold Hdiv.
    apply foldM_count_range in Hfold as (Hr & Hz & Hd).
    destruct items as [|ID items]; [discriminate Hdiv|].
    unfold div in Hdiv. cbn [List.length] in Hdiv.
    rewrite Qnat_S_nonzero in Hdiv. injection Hdiv as <-.
    split; [apply ratio_range; cbn [List.length] in *; lia|].
    split; [discriminate|]. split; [assumption|].
    intros Hno. rewrite (Hz Hno). unfold Qnat, Qdiv. cbn [Z.of_nat inject_Z].
    apply Qmult_0_l. }
  destruct value as [| | |s|l|d| |]; cbn [len iter bind]; try discriminate.
  - destruct s as [|c t]; cbn [chars foldM bind String.length];
      [discriminate|].
    unfold Beliefs.count_identifier at 1. cbn [get bind]. discriminate.
  - destruct (foldM count_identifier 0%nat l) as [n|e] eqn:Hfold; cbn [bind];
      [|discriminate].
    intros Hdiv. destruct (Hlist l n Hfold Hdiv) as (Hq & Hne & Hd & Hz).
    split; [exact Hq|]. exists l. repeat split; assumption.
  - destruct d as [|[k v] d]; cbn [map foldM bind List.length];
      [discriminate|].
    unfold Beliefs.count_identifier at 1. cbn [get bind]. discriminate.
Qed.

Lemma valid_identifier_unit : bounded valid_identifier.
Proof.
  intros value x H.
  unfold Beliefs.valid_identifier in H.
  destruct (len value) as [n|] eqn:Hlen; cbn [bind] in H; [|discriminate].
  destruct (iter value) as [items|] eqn:Hiter; cbn [bind] in H; [|discriminate].
  destruct (foldM count_identifier 0%nat items) as [g|] eqn:Hfold;
    cbn [bind] in H; [|discriminate].
  apply foldM_count_range in Hfold as (Hr & _ & _).
  assert (n = List.length items) as ->.
  { destruct value; try discriminate; cbn in Hlen, Hiter;
      injection Hlen as <-; injection Hiter as <-;
      [|reflexivity|now rewrite List.length_map].
    clear. induction s as [|c t IH]; cbn; [reflexivity|now rewrite IH]. }
  unfold div in H.
  destruct (Qeq_bool (Qnat (List.length items)) 0) eqn:Ez; [discriminate|].
  injection H as <-. apply ratio_range; [lia|].
  destruct items; [discriminate Ez | cbn; lia].
Qed.

(** *** [words_author_structure] *)

Lemma unit_product (a b : Q) :
  (0 <= a <= 1)%Q -> (0 <= b <= 1)%Q -> (0 <= a * b <= 1)%Q.
Proof.
  intros [Ha0 Ha1] [Hb0 Hb1]. split.
  - apply Qmult_le_0_compat; assumption.
  - apply (Qle_trans _ (1 * b)).
    + apply Qmult_le_compat_r; assumption.
    + now rewrite Qmult_1_l.
Qed.

Lemma author_score_step (num_good : Q) (auth : obj) (n : Q) :
  author_score num_good auth = Ok n ->
  (num_good <= n <= num_good + 1)%Q.
Proof.
  unfold Beliefs.author_score.
  destruct auth as [| | | | |d| |]; try discriminate.
  destruct (mapM _ d) as [names|]; cbn [bind]; [|discriminate].
  destruct (clean_text None _) as [name|]; cbn [bind]; [|discriminate].
  destruct (words_auth (VStr name)) as [mod_|] eqn:Hmod; cbn [bind];
    [|discriminate].
  apply words_auth_unit in Hmod.
  cbn [get bind].
  assert (forall mod' : Q, (0 <= mod' <= 1)%Q ->
            Ok (num_good + mod')%Q = Ok n ->
            (num_good <= n <= num_good + 1)%Q) as Hadd.
  { intros mod' [H0 H1] [= <-]. split.
    - rewrite <- (Qplus_0_r num_good) at 1.
      apply Qplus_le_compat; [apply Qle_refl | assumption].
    - apply Qplus_le_compat; [apply Qle_refl | assumption]. }
  destruct (truthy (dict_get d "surname" VNone)); cbn [bind];
    [|now apply Hadd].
  destruct (dict_get d "surname" VNone) as [| | |s| | | |]; cbn [bind];
    try discriminate.
  unfold div.
  destruct (Qeq_bool (Qnat (List.length (split s))) 0) eqn:Ez; cbn [bind];
    [discriminate|].
  apply Hadd, unit_product; [assumption|].
  assert (0 < List.length (split s))%nat as Hpos.
  { destruct (split s); [discriminate Ez | cbn; lia]. }
  change 1%Q with (Qnat 1). apply ratio_range; lia.
Qed.

Lemma foldM_author_range (auths : list obj) : forall num_good n,
  foldM author_score num_good auths = Ok n ->
  (num_good <= n <= num_good + Qnat (List.length auths))%Q.
Proof.
  induction auths as [|auth auths IH]; cbn [foldM List.length];
    intros num_good n.
  - intros [= <-]. unfold Qnat. cbn [Z.of_nat inject_Z].
    rewrite Qplus_0_r. split; apply Qle_refl.
  - destruct (author_score num_good auth) as [n1|] eqn:E1; cbn [bind];
      [|discriminate].
    intros H. apply IH in H as [Hlo Hhi].
    apply author_score_step in E1 as [Hlo1 Hhi1]. split.
    + now apply (Qle_trans _ n1).
    + apply (Qle_trans _ _ _ Hhi). rewrite Qnat_S, (Qplus_assoc num_good).
      apply Qplus_le_compat; [assumption | apply Qle_refl].
Qed.

Lemma words_author_structure_unit : bounded words_author_structure.
Proof.
  intros value x. unfold Beliefs.words_author_structure.
  destruct (iter value) as [auths|]; cbn [bind]; [|discriminate].
  destruct (foldM author_score 0%Q auths) as [n|] eqn:Hfold; cbn [bind];
    [|discriminate].
  apply foldM_author_range in Hfold. rewrite Qplus_0_l in Hfold.
  destruct auths as [|auth auths]; cbn [List.length Nat.eqb].
  - intros [= <-]. split; discriminate.
  - intros H. destruct (div_range n (S (List.length auths))) as (q & Hq & Hr);
      [lia | exact Hfold |].
    rewrite Hq in H. now injection H as <-.
Qed.

(** X8. The score of [words_author_structure] is a fraction between 0 and
    1, and 0 for an empty list of authors.  An author one of whose
    values is not a string makes it raise [TypeError], and an author
    that is not a dict [AttributeError]. *)
Theorem words_author_structure_range :
  (forall value q,
     words_author_structure value = Ok q -> (0 <= q <= 1)%Q) /\
  words_author_structure (VList []) = Ok 0%Q /\
  (forall d rest,
     existsb (fun kv => negb (is_str (snd kv))) d = true ->
     words_author_structure (VList (VDict d :: rest)) = Raise TypeError) /\
  (forall auth rest,
     match auth with VDict _ => False | _ => True end ->
     words_author_structure (VList (auth :: rest)) = Raise AttributeError).
Proof.
  split; [exact words_author_structure_unit|].
  split; [reflexivity|]. split.
  - intros d rest Hd. unfold Beliefs.words_author_structure.
    cbn [iter bind foldM]. unfold Beliefs.author_score at 1.
    assert (mapM (fun kv : string * obj => str_of (snd kv)) d
            = Raise TypeError) as ->; [|reflexivity].
    induction d as [|[k v] d IH]; [discriminate Hd|].
    cbn [existsb snd] in Hd. cbn [mapM snd].
    destruct v; cbn [str_of bind]; try reflexivity.
    cbn [is_str negb orb] in Hd. now rewrite (IH Hd).
  - intros auth rest Hauth. unfold Beliefs.words_author_structure.
    cbn [iter bind foldM]. unfold Beliefs.author_score at 1.
    destruct auth; try reflexivity. contradiction.
Qed.

(** *** The functions of [BELIEF_FUNCTIONS] return probabilities *)

Lemma bit_unit (b : bool) : (0 <= (if b then 1 else 0) <= 1)%Q.
Proof. destruct b; split; discriminate. Qed.

Lemma minimum_length_unit (length : nat) : bounded (minimum_length length).
Proof.
  intros value x. unfold minimum_length.
  destruct (len value) as [n|]; cbn [bind]; [|discriminate].
  destruct ((n <? length)%nat && (0 <? n)%nat); intros [= <-];
    split; discriminate.
Qed.

Lemma contains_unit (substring : string) : bounded (contains substring 0 1).
Proof.
  intros value x. unfold contains.
  destruct value; intros [= <-]; try (split; discriminate).
  apply bit_unit.
Qed.

Lemma doesnt_end_with_unit (substring : string) :
  bounded (doesnt_end_with substring 0 1).
Proof.
  intros value x. unfold doesnt_end_with, ends_with.
  destruct value; intros [= <-]; try (split; discriminate).
  destruct (endswith substring s); split; discriminate.
Qed.

Lemma does_not_contain_arxiv_unit : bounded does_not_contain_arxiv.
Proof.
  intros value x. unfold does_not_contain_arxiv.
  destruct value; intros [= <-]; try (split; discriminate).
  destruct (in_str "arxiv" s); split; discriminate.
Qed.

Lemma valid_doi_unit : bounded (valid_doi REGEX_DOI).
Proof.
  intros value x. unfold valid_doi.
  destruct value; try discriminate. intros [= <-]. apply bit_unit.
Qed.

Lemma valid_arxiv_id_unit : bounded (valid_arxiv_id REGEX_ARXIV_STRICT).
Proof.
  intros value x. unfold valid_arxiv_id.
  destruct value; try discriminate. intros [= <-]. apply bit_unit.
Qed.

Lemma is_integer_unit : bounded is_integer.
Proof.
  intros value x. unfold is_integer.
  destruct (int value) as [n|[]]; try discriminate;
    intros [= <-]; split; discriminate.
Qed.

Lemma is_year_unit : bounded is_year.
Proof.
  intros value x. unfold is_year.
  destruct (int value) as [n|[]]; try discriminate.
  - destruct ((1600 <? n)%Z && (n <? 2100)%Z); intros [= <-];
      split; discriminate.
  - intros [= <-]; split; discriminate.
Qed.

Lemma is_pages_unit : bounded is_pages.
Proof.
  intros value x. unfold is_pages.
  destruct (match_v RE_PAGES value) as [[groups|]|]; cbn [bind];
    try discriminate.
  - destruct (mapM _ groups) as [[|a [|b [|c ints]]]|]; cbn [bind];
      try discriminate.
    destruct (a <? b)%Z; intros [= <-]; split; discriminate.
  - intros [= <-]; split; discriminate.
Qed.

Lemma is_integer_like_unit : bounded is_integer_like.
Proof.
  intros value x H. destruct (is_integer_like_total value) as (q & Hq & Hr).
  rewrite Hq in H. now injection H as <-.
Qed.

Lemma is_year_like_unit : bounded is_year_like.
Proof.
  intros value x H. destruct (is_year_like_total value) as (q & Hq & Hr).
  rewrite Hq in H. now injection H as <-.
Qed.

Lemma likely_unit (func : belief) (min_prob : Q) :
  (0 <= min_prob <= 1)%Q -> bounded (likely func min_prob 1).
Proof.
  intros [H0 H1] value x. unfold likely.
  destruct (func value) as [y|]; cbn [bind]; [|discriminate].
  intros [= <-]. unfold Py.max, Py.min.
  destruct (Qle_bool y 1) eqn:Hy.
  - apply Qle_bool_iff in Hy.
    destruct (Qle_bool min_prob y) eqn:Hm; [|now split].
    apply Qle_bool_iff in Hm. split; [|assumption].
    now apply (Qle_trans _ min_prob).
  - destruct (Qle_bool min_prob 1); [split; discriminate | now split].
Qed.

Lemma registered_bounded (key : string) :
  Forall bounded (dict_get BELIEF_FUNCTIONS key [unity]).
Proof.
  assert (bounded unity) as Hunity.
  { intros value x [= <-]. split; discriminate. }
  unfold dict_get, Beliefs.BELIEF_FUNCTIONS. cbn [dict_lookup].
  repeat
    match goal with
    | |- context [String.eqb key ?k] => destruct (String.eqb key k)
    end;
    repeat
      match goal with
      | |- Forall _ (_ :: _) => constructor
      | |- Forall _ [] => constructor
      end;
    first
      [ exact Hunity | apply words_title_unit | apply words_auth_unit
      | apply minimum_length_unit | apply words_author_structure_unit
      | apply valid_doi_unit | apply contains_unit
      | apply doesnt_end_with_unit | apply is_integer_like_unit
      | apply is_pages_unit | apply does_not_contain_arxiv_unit
      | apply is_integer_unit | apply is_year_like_unit | apply is_year_unit
      | apply valid_identifier_unit | apply valid_arxiv_id_unit
      | apply likely_unit; split; discriminate ].
Qed.

(** *** The range of the output *)

Lemma contribution_unit (value : obj) (funcs : list belief) :
  Forall bounded funcs ->
  Forall (fun x => 0 <= x <= 1)%Q (map (contribution value) funcs).
Proof.
  induction 1 as [|func funcs Hf _ IH]; cbn [map]; constructor;
    [|assumption].
  unfold contribution. destruct (func value) as [x|] eqn:E.
  - now apply (Hf value).
  - split; discriminate.
Qed.

Lemma dict_set_Forall {A : Type} (P : string * A -> Prop) k v d :
  P (k, v) -> Forall P d -> Forall P (dict_set k v d).
Proof.
  intros Hv. induction 1 as [|[k' v'] d Hx Hd IH]; cbn [dict_set].
  - repeat constructor. assumption.
  - destruct (String.eqb k k'); constructor; assumption.
Qed.

Lemma score_items_range (items : list (string * obj)) :
  forall output tr,
    Forall (fun kv => 0 <= snd kv <= 1)%Q output ->
    exists output' tr',
      score_items items output tr = Ok (output', tr') /\
      Forall (fun kv => 0 <= snd kv <= 1)%Q output'.
Proof.
  induction items as [|[key value] items IH]; intros output tr Hout;
    cbn [Beliefs.score_items].
  - eauto.
  - destruct (truthy value); cbn [negb].
    + destruct (run_funcs key value _ 0 0 tr) as [score tr'] eqn:Erun.
      pose proof (BeliefFacts.run_funcs_score key value
                    (dict_get BELIEF_FUNCTIONS key [unity]) 0 0 tr) as Hs.
      rewrite Erun, Qplus_0_l in Hs. cbn [fst] in Hs.
      pose proof (Qsum_range _
                    (contribution_unit value _ (registered_bounded key))) as Hr.
      rewrite List.length_map, <- Hs in Hr.
      destruct (div_range score
                  (List.length (dict_get BELIEF_FUNCTIONS key [unity])))
        as (b & -> & Hb); [|exact Hr|].
      * pose proof (BeliefFacts.registered_nonempty clean_text REGEX_DOI
                      REGEX_ISBN_10 REGEX_ISBN_13 REGEX_ARXIV_STRICT
                      bloom_filters key) as Hne.
        destruct (dict_get BELIEF_FUNCTIONS key [unity]);
          [congruence | cbn; lia].
      * cbn [bind]. apply IH, dict_set_Forall; assumption.
    + apply IH, dict_set_Forall; [|assumption]. split; discriminate.
Qed.

(** X9. [calculate_belief] returns, for every record, a dict of
    probabilities: each value lies between 0 and 1. *)
Theorem calculate_belief_range (reference : Reference) :
  exists output tr,
    calculate_belief reference = Ok (output, tr) /\
    Forall (fun kv => 0 <= snd kv <= 1)%Q output.
Proof.
  apply score_items_range. constructor.
Qed.

(** *** The structure of the output *)

Lemma dict_set_keys_fresh {A : Type} (k : string) (v : A) d :
  ~ In k (map fst d) -> map fst (dict_set k v d) = (map fst d ++ [k])%list.
Proof.
  induction d as [|[k' v'] d IH]; cbn [dict_set map fst app In];
    intros Hk; [reflexivity|].
  destruct (String.eqb k k') eqn:E.
  - apply String.eqb_eq in E. elim Hk. now left.
  - cbn [map fst]. rewrite IH; [reflexivity|]. intros H. apply Hk. now right.
Qed.

Lemma score_items_keys (items : list (string * obj)) :
  forall output tr output' tr',
    score_items items output tr = Ok (output', tr') ->
    List.NoDup (map fst output ++ map fst items)%list ->
    map fst output' = (map fst output ++ map fst items)%list.
Proof.
  induction items as [|[key value] items IH];
    intros output tr output' tr'; cbn [Beliefs.score_items map fst].
  - intros [= <- _] _. now rewrite app_nil_r.
  - intros Hrun Hnd.
    assert (~ In key (map fst output)) as Hfresh.
    { apply List.NoDup_remove_2 in Hnd. intros H. apply Hnd, in_or_app.
      now left. }
    assert (forall b tr1,
              score_items items (dict_set key b output) tr1 = Ok (output', tr') ->
              map fst output' = (map fst output ++ key :: map fst items)%list)
      as Hstep.
    { intros b tr1 H. apply IH in H.
      - now rewrite H, dict_set_keys_fresh, <- app_assoc.
      - rewrite dict_set_keys_fresh, <- app_assoc by assumption. exact Hnd. }
    destruct (truthy value); cbn [negb] in Hrun; [|now apply Hstep in Hrun].
    destruct (run_funcs key value _ 0 0 tr) as [score tr1].
    destruct (div score _) as [b|]; cbn [bind] in Hrun; [|discriminate].
    now apply Hstep in Hrun.
Qed.

(** X10. The dict that [calculate_belief] returns has the structure of its
    input: the keys of [reference.to_dict()], in the same order. *)
Theorem calculate_belief_keys (reference : Reference) :
  exists output tr,
    calculate_belief reference = Ok (output, tr) /\
    map fst output = map fst (to_dict reference).
Proof.
  destruct (score_items_range (to_dict reference) [] [])
    as (output & tr & Hrun & _); [constructor|].
  exists output, tr. split; [exact Hrun|].
  apply score_items_keys in Hrun; [exact Hrun|].
  apply BeliefFacts.to_dict_keys.
Qed.

(** *** The calls that [calculate_belief] makes *)

Lemma run_funcs_calls key value (funcs : list belief) :
  forall i score tr,
    (forall ev, In ev tr -> In ev (snd (run_funcs key value funcs i score tr))) /\
    forall j func,
      nth_error funcs j = Some func ->
      In (Invoked key (i + j)) (snd (run_funcs key value funcs i score tr)) /\
      forall e,
        func value = Raise e ->
        In (Logged key e) (snd (run_funcs key value funcs i score tr)).
Proof.
  induction funcs as [|f funcs IH]; intros i score tr; cbn [run_funcs snd].
  - split; [auto|]. intros [|j] func H; discriminate H.
  - assert (forall score' more,
              (forall ev, In ev (tr ++ Invoked key i :: more)%list ->
                 In ev (snd (run_funcs key value funcs (S i) score'
                               (tr ++ Invoked key i :: more)%list))) /\
              forall j func,
                nth_error funcs j = Some func ->
                In (Invoked key (i + S j))
                   (snd (run_funcs key value funcs (S i) score'
                           (tr ++ Invoked key i :: more)%list)) /\
                forall e,
                  func value = Raise e ->
                  In (Logged key e)
                     (snd (run_funcs key value funcs (S i) score'
                             (tr ++ Invoked key i :: more)%list))) as Hrest.
    { intros score' more.
      destruct (IH (S i) score' (tr ++ Invoked key i :: more)%list)
        as [Hkeep Hcalls].
      split; [exact Hkeep|]. intros j func Hj.
      replace (i + S j)%nat with (S i + j)%nat by lia. now apply Hcalls. }
    destruct (f value) as [x|e0] eqn:Ef.
    + destruct (Hrest (score + x)%Q []) as [Hkeep Hcalls]. split.
      * intros ev Hev. apply Hkeep, in_or_app. now left.
      * intros [|j] func Hj; [|now apply Hcalls].
        injection Hj as <-. rewrite Nat.add_0_r. split.
        -- apply Hkeep, in_or_app. right. now left.
        -- intros e He. congruence.
    + destruct (Hrest score [Logged key e0]) as [Hkeep Hcalls]. split.
      * intros ev Hev. apply Hkeep, in_or_app. now left.
      * intros [|j] func Hj; [|now apply Hcalls].
        injection Hj as <-. rewrite Nat.add_0_r. split.
        -- apply Hkeep, in_or_app. right. now left.
        -- intros e He. apply Hkeep, in_or_app. right. right. left.
           congruence.
Qed.

Lemma score_items_calls (items : list (string * obj)) :
  forall output tr output' tr',
    score_items items output tr = Ok (output', tr') ->
    (forall ev, In ev tr -> In ev tr') /\
    forall key value,
      In (key, value) items -> truthy value = true ->
      forall j func,
        nth_error (dict_get BELIEF_FUNCTIONS key [unity]) j = Some func ->
        In (Invoked key j) tr' /\
        forall e, func value = Raise e -> In (Logged key e) tr'.
Proof.
  induction items as [|[key value] items IH];
    intros output tr output' tr'; cbn [Beliefs.score_items].
  - intros [= _ <-]. split; [auto|]. intros ? ? [].
  - destruct (truthy value) eqn:Ht; cbn [negb].
    + pose proof (run_funcs_calls key value
                    (dict_get BELIEF_FUNCTIONS key [unity]) 0 0%Q tr)
        as [Hkeep Hcalls].
      destruct (run_funcs key value _ 0 0 tr) as [score tr1].
      cbn [snd] in Hkeep, Hcalls.
      destruct (div score _) as [b|]; cbn [bind]; [|discriminate].
      intros Hrun. apply IH in Hrun as [Hkeep' Hcalls']. split; [auto|].
      intros k v [[= <- <-]|Hin] Hv j func Hj.
      * destruct (Hcalls j func Hj) as [Hc Hl]. split; [auto|].
        intros e He. auto.
      * now apply (Hcalls' k v).
    + intros Hrun. apply IH in Hrun as [Hkeep' Hcalls']. split; [auto|].
      intros k v [[= <- <-]|Hin] Hv; [congruence|]. now apply (Hcalls' k v).
Qed.

(** X11. [calculate_belief] is not derailed by a function that fails: for
    every field of the record that is not blank it calls every function
    registered for the field, and logs every exception that one of
    them raises. *)
Theorem calculate_belief_calls_all (reference : Reference) :
  exists output tr,
    calculate_belief reference = Ok (output, tr) /\
    forall key value,
      In (key, value) (to_dict reference) -> truthy value = true ->
      forall j func,
        nth_error (dict_get BELIEF_FUNCTIONS key [unity]) j = Some func ->
        In (Invoked key j) tr /\
        forall e, func value = Raise e -> In (Logged key e) tr.
Proof.
  destruct (score_items_range (to_dict reference) [] [])
    as (output & tr & Hrun & _); [constructor|].
  exists output, tr. split; [exact Hrun|].
  now apply score_items_calls in Hrun as [_ Hcalls].
Qed.

(** *** The belief in a field *)

Local Abbreviation mean_belief :=
  (mean_belief clean_text REGEX_DOI REGEX_ISBN_10 REGEX_ISBN_13
     REGEX_ARXIV_STRICT bloom_filters).

Lemma field_lookup (reference : Reference) (key : string) (value : obj) :
  In (key, value) (to_dict reference) -> truthy value = true ->
  exists output tr b,
    calculate_belief reference = Ok (output, tr) /\
    dict_lookup key output = Some b /\
    (b == mean_belief key value)%Q.
Proof.
  intros Hin Ht.
  destruct (BeliefFacts.score_items_spec clean_text REGEX_DOI REGEX_ISBN_10
              REGEX_ISBN_13 REGEX_ARXIV_STRICT bloom_filters
              (to_dict reference) (BeliefFacts.to_dict_keys reference) [] [])
    as (output & added & Hrun & Hfields & _).
  destruct (Hfields key value Hin) as (b & Hb & Hfield).
  unfold field_belief in Hfield. rewrite Ht in Hfield.
  exists output, ([] ++ added)%list, b. auto.
Qed.

Lemma Qsum_one (x : Q) : (Qsum [x] / Qnat 1 == x)%Q.
Proof.
  unfold Qsum, Qnat. cbn [fold_left Z.of_nat inject_Z]. field.
Qed.

(** X12. A volume that is not blank never has a belief below 0.8: its only
    function is [likely(is_integer_like, min_prob=0.8)], and
    [is_integer_like] never raises. *)
Theorem volume_belief_floor (reference : Reference) :
  truthy (volume reference) = true ->
  exists output tr b,
    calculate_belief reference = Ok (output, tr) /\
    dict_lookup "volume" output = Some b /\
    (8 # 10 <= b <= 1)%Q.
Proof.
  intros Ht.
  destruct (field_lookup reference "volume" (volume reference))
    as (output & tr & b & Hrun & Hb & Hmean); [cbn; auto 10 | exact Ht |].
  exists output, tr, b. split; [exact Hrun|]. split; [exact Hb|].
  rewrite Hmean. unfold Beliefs.mean_belief.
  change (dict_get BELIEF_FUNCTIONS "volume" [unity])
    with [likely is_integer_like (8 # 10) 1].
  cbn [map List.length]. rewrite Qsum_one.
  unfold contribution, likely.
  destruct (is_integer_like_total (volume reference)) as (q & -> & _).
  cbn [bind]. apply clamp_spec. discriminate.
Qed.

(** X13. A year written as a non-empty string of digits has belief 1 when
    the number lies strictly between 1600 and 2100, and 1/2 otherwise:
    [is_integer_like] and [is_integer] give 1, [is_year_like] and
    [is_year] agree. *)
Theorem year_digits_belief (reference : Reference) (s : string) :
  year reference = VStr s -> all is_digit s = true -> s <> "" ->
  exists output tr b,
    calculate_belief reference = Ok (output, tr) /\
    dict_lookup "year" output = Some b /\
    (b == if (1600 <? decimal s)%Z && (decimal s <? 2100)%Z
          then 1 else 1 # 2)%Q.
Proof.
  intros Hy Hall Hne.
  destruct (field_lookup reference "year" (VStr s))
    as (output & tr & b & Hrun & Hb & Hmean).
  { rewrite <- Hy. cbn. auto 10. }
  { destruct s; [congruence | reflexivity]. }
  exists output, tr, b. split; [exact Hrun|]. split; [exact Hb|].
  rewrite Hmean. unfold Beliefs.mean_belief.
  change (dict_get BELIEF_FUNCTIONS "year" [unity])
    with [is_integer_like; is_integer; is_year_like; is_year].
  cbn [map List.length]. unfold contribution.
  destruct (is_integer_like_digits s Hall Hne) as (q1 & -> & Hq1).
  destruct (is_year_like_digits s Hall Hne) as (q3 & y & -> & Hyr & Hq3).
  rewrite Hyr. unfold is_integer. rewrite (int_digits s Hall Hne).
  unfold is_year in Hyr. rewrite (int_digits s Hall Hne) in Hyr.
  rewrite !Qsum_cons, Hq1, Hq3.
  destruct ((1600 <? decimal s)%Z && (decimal s <? 2100)%Z);
    injection Hyr as <-; reflexivity.
Qed.

(** X14. A title of one to four characters has a belief of at most 1/2,
    since [minimum_length(5)] gives it 0; without word filters the
    belief is exactly 1/2. *)
Theorem short_title_belief (reference : Reference) (s : string) :
  title reference = VStr s -> (0 < String.length s < 5)%nat ->
  exists output tr b,
    calculate_belief reference = Ok (output, tr) /\
    dict_lookup "title" output = Some b /\
    (0 <= b <= 1 # 2)%Q /\
    (bloom_filters = None -> (b == 1 # 2)%Q).
Proof.
  intros Ht Hlen.
  destruct (field_lookup reference "title" (VStr s))
    as (output & tr & b & Hrun & Hb & Hmean).
  { rewrite <- Ht. cbn. auto 10. }
  { destruct s; [cbn in Hlen; lia | reflexivity]. }
  exists output, tr, b. split; [exact Hrun|]. split; [exact Hb|].
  assert (minimum_length 5 (VStr s) = Ok 0%Q) as Hmin.
  { unfold minimum_length. cbn [len bind].
    destruct (String.length s <? 5)%nat eqn:E1; [|apply Nat.ltb_ge in E1; lia].
    destruct (0 <? String.length s)%nat eqn:E2; [reflexivity|].
    apply Nat.ltb_ge in E2; lia. }
  assert (b == contribution (VStr s) words_title / (2 # 1))%Q as Hb2.
  { rewrite Hmean. unfold Beliefs.mean_belief.
    change (dict_get BELIEF_FUNCTIONS "title" [unity])
      with [words_title; minimum_length 5].
    cbn [map List.length]. rewrite !Qsum_cons.
    unfold contribution at 2. rewrite Hmin.
    unfold Qsum, Qnat. cbn [fold_left Z.of_nat inject_Z Pos.of_succ_nat
                             Pos.succ].
    field. }
  split.
  - rewrite Hb2.
    assert (0 <= contribution (VStr s) words_title <= 1)%Q as [H0 H1].
    { unfold contribution.
      destruct (words_title (VStr s)) as [x|] eqn:E;
        [now apply (words_title_unit (VStr s)) | split; discriminate]. }
    split.
    + apply Qle_shift_div_l; [reflexivity|]. now rewrite Qmult_0_l.
    + apply Qle_shift_div_r; [reflexivity|].
      apply (Qle_trans _ 1); [assumption|]. unfold Qle. cbn. lia.
  - intros Hnone. rewrite Hb2. unfold contribution, Beliefs.words_title.
    rewrite Hnone. reflexivity.
Qed.

Lemma bit_sum_one (a b c d : bool) :
  ((Qsum [if a then 1 else 0; if b then 1 else 0; if c then 1 else 0;
          if d then 1 else 0] / Qnat 4 == 1)%Q
   <-> a = true /\ b = true /\ c = true /\ d = true).
Proof.
  destruct a, b, c, d; split;
    try (intros _; repeat split; reflexivity; fail);
    try (intros H; exfalso; revert H; vm_compute; discriminate; fail);
    try (intros (? & ? & ? & ?); discriminate; fail).
Qed.

(** X15. The belief in a DOI that is a string is the share of four checks
    that it passes: the pattern of DOIs, a dot, a slash, no hyphen at
    the end; it is 1 exactly when it passes all four.  A DOI that is
    not blank and not a string gets 0: the pattern raises on it, and
    the three other functions return 0. *)
Theorem doi_belief (reference : Reference) :
  truthy (doi reference) = true ->
  exists output tr b,
    calculate_belief reference = Ok (output, tr) /\
    dict_lookup "doi" output = Some b /\
    match doi reference with
    | VStr s =>
        (b == Qsum [if REGEX_DOI s then 1 else 0;
                    if in_str "." s then 1 else 0;
                    if in_str "/" s then 1 else 0;
                    if negb (endswith "-" s) then 1 else 0] / Qnat 4)%Q /\
        ((b == 1)%Q <->
         REGEX_DOI s = true /\ in_str "." s = true /\ in_str "/" s = true /\
         endswith "-" s = false)
    | _ => (b == 0)%Q
    end.
Proof.
  intros Ht.
  destruct (field_lookup reference "doi" (doi reference))
    as (output & tr & b & Hrun & Hb & Hmean); [cbn; auto 20 | exact Ht |].
  exists output, tr, b. split; [exact Hrun|]. split; [exact Hb|].
  unfold Beliefs.mean_belief in Hmean.
  change (dict_get BELIEF_FUNCTIONS "doi" [unity])
    with [valid_doi REGEX_DOI; contains "." 0 1; contains "/" 0 1;
          doesnt_end_with "-" 0 1] in Hmean.
  cbn [map List.length] in Hmean.
  destruct (doi reference) as [|n|q|s|l|d|neg|];
    try (rewrite Hmean; vm_compute; reflexivity).
  assert (b == Qsum [if REGEX_DOI s then 1 else 0;
                     if in_str "." s then 1 else 0;
                     if in_str "/" s then 1 else 0;
                     if negb (endswith "-" s) then 1 else 0] / Qnat 4)%Q
    as Hval.
  { rewrite Hmean.
    unfold contribution, valid_doi, contains, doesnt_end_with, ends_with.
    now destruct (REGEX_DOI s), (in_str "." s), (in_str "/" s),
      (endswith "-" s). }
  split; [exact Hval|]. rewrite Hval, bit_sum_one.
  rewrite negb_true_iff. reflexivity.
Qed.

(** X16. The record names its arXiv identifier [arxiv_id], as the
    normalizers do, and [BELIEF_FUNCTIONS] registers [valid_arxiv_id]
    under [arxiv]: the loop finds no function for the field, so its
    belief is 1 whatever it holds, and nothing is ever scored or logged
    under the key [arxiv]. *)
Theorem arxiv_id_belief_one (reference : Reference) :
  exists output tr b,
    calculate_belief reference = Ok (output, tr) /\
    dict_lookup "arxiv_id" output = Some b /\ (b == 1)%Q /\
    dict_lookup "arxiv" output = None /\
    dict_lookup "arxiv_id" BELIEF_FUNCTIONS = None /\
    forall ev, In ev tr -> key_of ev <> "arxiv".
Proof.
  destruct (BeliefFacts.score_items_spec clean_text REGEX_DOI REGEX_ISBN_10
              REGEX_ISBN_13 REGEX_ARXIV_STRICT bloom_filters
              (to_dict reference) (BeliefFacts.to_dict_keys reference) [] [])
    as (output & added & Hrun & Hfields & Hother & Hev).
  destruct (Hfields "arxiv_id" (arxiv_id reference)) as (b & Hb & Hfield);
    [cbn; auto 20|].
  exists output, ([] ++ added)%list, b.
  split; [exact Hrun|]. split; [exact Hb|]. split; [|split; [|split]].
  - unfold field_belief in Hfield.
    destruct (truthy (arxiv_id reference)); [|now rewrite Hfield].
    rewrite Hfield. unfold Beliefs.mean_belief.
    change (dict_get BELIEF_FUNCTIONS "arxiv_id" [unity]) with [unity].
    cbn [map List.length]. apply Qsum_one.
  - rewrite Hother; [reflexivity|]. cbn. intuition discriminate.
  - reflexivity.
  - intros ev Hin. cbn [app] in Hin.
    rewrite List.Forall_forall in Hev.
    destruct (Hev ev Hin) as (value & Hkey & _).
    intros E. rewrite E in Hkey. cbn in Hkey. intuition discriminate.
Qed.

(** *** [validate] *)

Lemma mapM_Forall2 {A B : Type} (f : A -> result B) (R : A -> B -> Prop)
  (l : list A) :
  Forall (fun x => exists y, f x = Ok y /\ R x y) l ->
  exists ys, mapM f l = Ok ys /\ Forall2 R l ys.
Proof.
  induction 1 as [|x l (y & Hy & Rxy) _ (ys & Hys & HR)]; cbn [mapM].
  - exists []. split; [reflexivity | constructor].
  - rewrite Hy, Hys. cbn [bind]. exists (y :: ys).
    split; [reflexivity | now constructor].
Qed.

Lemma Forall2_map_fst {A B C : Type} (R : A * B -> A * C -> Prop)
  (l : list (A * B)) (l' : list (A * C)) :
  Forall2 R l l' -> (forall x y, R x y -> fst y = fst x) ->
  map fst l' = map fst l.
Proof.
  intros H HR. induction H as [|x y l l' Hxy _ IH]; cbn [map];
    [reflexivity|].
  now rewrite (HR x y Hxy), IH.
Qed.

(** X17. [validate] never raises, and its result has the shape of the
    aligned references: as many references, each with as many pairs,
    the extractor names in place, each record replaced by the dict of
    probabilities that [calculate_belief] returns for it. *)
Theorem validate_shape (aligned_references : list (list (string * Reference))) :
  exists result,
    validate aligned_references = Ok result /\
    map (map fst) result = map (map fst) aligned_references /\
    Forall2
      (Forall2 (fun pair scored =>
                  fst scored = fst pair /\
                  calculate_belief (snd pair) = Ok (snd scored) /\
                  Forall (fun kv => 0 <= snd kv <= 1)%Q (fst (snd scored))))
      aligned_references result.
Proof.
  unfold Beliefs.validate.
  match goal with
  | |- exists result, mapM ?f _ = _ /\ _ /\ Forall2 ?R _ _ =>
      destruct (mapM_Forall2 f R aligned_references) as (result & Hrun & HR)
  end.
  - apply Forall_forall. intros reference _.
    apply mapM_Forall2, Forall_forall. intros [extractor metadatum] _.
    destruct (score_items_range (to_dict metadatum) [] [])
      as (output & tr & Hrun & Hrange); [constructor|].
    cbn [fst snd]. unfold Beliefs.calculate_belief. rewrite Hrun.
    cbn [bind]. eexists. split; [reflexivity|]. cbn [fst snd]. auto.
  - exists result. split; [exact Hrun|]. split; [|exact HR].
    clear Hrun. induction HR as [|reference scored l l' Hrs _ IH];
      cbn [map]; [reflexivity|].
    rewrite IH. f_equal.
    apply (Forall2_map_fst _ _ _ Hrs). now intros x y (H & _).
Qed.

End Environment.

(** *** [identity_belief] *)

Lemma unpack_pair_cases (k : string) :
  match unpack_pair k with
  | Ok _ => String.length k = 2%nat
  | Raise e => e = ValueError /\ String.length k <> 2%nat
  end.
Proof.
  destruct k as [|a [|b [|c k]]]; cbn; auto.
Qed.

Lemma identity_fold (reference : list (string * obj)) :
  forall output,
    Forall (fun kv => snd kv = 1%Q) output ->
    match foldM (fun output k =>
                   kv <- unpack_pair k ;;
                   x <- unity (VStr (snd kv)) ;;
                   Ok (dict_set (fst kv) x output))
                output (map fst reference) with
    | Ok output' =>
        Forall (fun kv => String.length (fst kv) = 2%nat) reference /\
        Forall (fun kv => snd kv = 1%Q) output'
    | Raise e =>
        e = ValueError /\
        Exists (fun kv => String.length (fst kv) <> 2%nat) reference
    end.
Proof.
  induction reference as [|[k v] reference IH]; intros output Hout;
    cbn [map fst foldM].
  - split; [constructor | assumption].
  - pose proof (unpack_pair_cases k) as Hk.
    destruct (unpack_pair k) as [[key value]|e]; cbn [bind unity fst snd].
    + specialize (IH (dict_set key 1%Q output)).
      destruct (foldM _ (dict_set key 1%Q output) (map fst reference)).
      * destruct IH as [Hl Ho]; [now apply dict_set_Forall|].
        split; [constructor|]; assumption.
      * destruct IH as [He Hex]; [now apply dict_set_Forall|].
        split; [assumption|]. now apply Exists_cons_tl.
    + destruct Hk as [-> Hk]. split; [reflexivity|]. now apply Exists_cons_hd.
Qed.

(** X18. [identity_belief] unpacks each key of the dict into [key, value]:
    it returns only when every key has exactly two characters, and then
    every value of its result is 1; otherwise it raises [ValueError],
    as it does on the dict of every record.  The empty dict gives the
    empty dict. *)
Theorem identity_belief_unpacks_keys :
  (forall reference,
     match identity_belief reference with
     | Ok output =>
         Forall (fun kv => String.length (fst kv) = 2%nat) reference /\
         Forall (fun kv => snd kv = 1%Q) output
     | Raise e =>
         e = ValueError /\
         Exists (fun kv => String.length (fst kv) <> 2%nat) reference
     end) /\
  (forall record : Reference,
     identity_belief (to_dict record) = Raise ValueError) /\
  identity_belief [] = Ok [].
Proof.
  split; [|split; reflexivity].
  intros reference. apply identity_fold. constructor.
Qed.

(** *** The statements above at the records of the examples *)

Local Abbreviation calculate_belief0 :=
  (calculate_belief Examples.clean_text0 Examples.no_match Examples.no_match
     Examples.no_match Examples.no_match Examples.no_filters).

(** The volume of the first record of the tests holds no integer:
    [is_integer_like] gives 0, which the bound raises to 0.8. *)
Lemma likely_clamps_witness :
  likely is_integer_like (8 # 10) 1 (VStr "uuddlrlrba") = Ok (8 # 10)%Q.
Proof.
  pose proof (likely_clamps is_integer_like (8 # 10) 1 (VStr "uuddlrlrba")
                ltac:(discriminate)) as H.
  assert (is_integer_like (VStr "uuddlrlrba") = Ok 0%Q) as E
    by (vm_compute; reflexivity).
  rewrite E in H. destruct H as (y & Hy & _ & _ & Hlow & _).
  rewrite Hy, Hlow; reflexivity.
Defined.

(** One identifier, an ISBN of ten characters, where the pattern of
    ISBN-10 accepts the texts of ten characters. *)
Lemma valid_identifier_range_witness :
  valid_identifier Examples.ten_characters Examples.no_match (identifiers Examples.paged)
  = Ok 1%Q /\ (0 <= 1 <= 1)%Q.
Proof.
  assert (valid_identifier Examples.ten_characters Examples.no_match
            (identifiers Examples.paged) = Ok 1%Q) as H
    by (vm_compute; reflexivity).
  split; [exact H|].
  destruct (valid_identifier_range Examples.ten_characters Examples.no_match
              (identifiers Examples.paged) 1 H) as [Hq _].
  exact Hq.
Defined.

(** The volume of the first record of the tests. *)
Lemma volume_belief_floor_witness :
  exists output tr b,
    calculate_belief0 Examples.matthew = Ok (output, tr) /\
    dict_lookup "volume" output = Some b /\ (8 # 10 <= b <= 1)%Q.
Proof.
  apply (volume_belief_floor Examples.clean_text0 Examples.no_match
           Examples.no_match Examples.no_match Examples.no_match
           Examples.no_filters Examples.matthew).
  reflexivity.
Defined.

(** The year ['1997']. *)
Lemma year_digits_belief_witness :
  exists output tr b,
    calculate_belief0 Examples.paged = Ok (output, tr) /\
    dict_lookup "year" output = Some b /\ (b == 1)%Q.
Proof.
  apply (year_digits_belief Examples.clean_text0 Examples.no_match
           Examples.no_match Examples.no_match Examples.no_match
           Examples.no_filters Examples.paged "1997");
    [reflexivity | reflexivity | discriminate].
Defined.

(** The title ['bar'], of three characters, without word filters. *)
Lemma short_title_belief_witness :
  exists output tr b,
    calculate_belief0 (Examples.titled "bar") = Ok (output, tr) /\
    dict_lookup "title" output = Some b /\ (b == 1 # 2)%Q.
Proof.
  destruct (short_title_belief Examples.clean_text0 Examples.no_match
              Examples.no_match Examples.no_match Examples.no_match
              Examples.no_filters (Examples.titled "bar") "bar")
    as (output & tr & b & Hrun & Hb & _ & Hhalf);
    [reflexivity | cbn; lia |].
  exists output, tr, b. split; [exact Hrun|]. split; [exact Hb|].
  apply Hhalf. reflexivity.
Defined.

(** The DOI ['10.1000/182'] where no pattern accepts anything: three
    checks of four. *)
Lemma doi_belief_witness :
  exists output tr b,
    calculate_belief0 Examples.paged = Ok (output, tr) /\
    dict_lookup "doi" output = Some b /\ (b == 3 # 4)%Q.
Proof.
  destruct (doi_belief Examples.clean_text0 Examples.no_match
              Examples.no_match Examples.no_match Examples.no_match
              Examples.no_filters Examples.paged eq_refl)
    as (output & tr & b & Hrun & Hb & Hdoi).
  exists output, tr, b. split; [exact Hrun|]. split; [exact Hb|].
  cbv beta iota delta [doi Examples.paged] in Hdoi.
  destruct Hdoi as [Hval _]. rewrite Hval. vm_compute. reflexivity.
Defined.

End RangeFacts.

(* ================================================================== *)
(** ** The belief in a field of pages *)
(* ================================================================== *)

Module PagesFacts.
Import Py Re Domain Beliefs PyFacts ReFacts ScorerFacts NormalizeFacts RangeFacts.

(** *** The matches of [RE_INTEGER], attempt by attempt *)

(** A repetition takes the longest run when the continuation refuses
    every text that goes on within the class. *)
Lemma star_greedy {R : Type} (p : ascii -> bool) (k : cont R) :
  (forall pos c t caps, p c = true -> k pos (String c t) caps = None) ->
  forall s pos caps,
    star p pos s caps k = k (pos + run p s)%nat (drop (run p s) s) caps.
Proof.
  intros Hk. induction s as [|c t IH]; intros pos caps; cbn [star run drop].
  - now rewrite Nat.add_0_r.
  - destruct (p c) eqn:Hc; cbn [drop].
    + rewrite IH.
      replace (S pos + run p t)%nat with (pos + S (run p t))%nat by lia.
      destruct (k _ _ _); [reflexivity|]. now apply Hk.
    + now rewrite Nat.add_0_r.
Qed.

Lemma plus_greedy {R : Type} (p : ascii -> bool) (k : cont R) :
  (forall pos c t caps, p c = true -> k pos (String c t) caps = None) ->
  forall s pos caps,
    plus p pos s caps k =
    if (0 <? run p s)%nat
    then k (pos + run p s)%nat (drop (run p s) s) caps
    else None.
Proof.
  intros Hk [|c t] pos caps; cbn [plus run]; [reflexivity|].
  destruct (p c); [|reflexivity].
  rewrite (star_greedy p k Hk). cbn [Nat.ltb Nat.leb drop].
  now replace (S pos + run p t)%nat with (pos + S (run p t))%nat by lia.
Qed.

Local Abbreviation final :=
  (fun (pos' : nat) (_ : string) (caps : list string) => Some (pos', caps)).

(** The end of a match: the end of the subject, or a run of white
    space. *)
Lemma integer_tail pos s caps :
  m (Alt Eol (Plus is_space)) pos s caps final =
  if at_eol s then Some (pos, caps)
  else if (0 <? run is_space s)%nat
       then Some ((pos + run is_space s)%nat, caps)
       else None.
Proof.
  cbn [m]. destruct (at_eol s); [reflexivity|].
  destruct s as [|c t]; cbn [plus run]; [reflexivity|].
  destruct (is_space c); [|reflexivity].
  rewrite star_total by discriminate. cbn [Nat.ltb Nat.leb].
  now replace (S pos + run is_space t)%nat
    with (pos + S (run is_space t))%nat by lia.
Qed.

(** The digits of a match and its end. *)
Lemma integer_body pos s caps :
  m (Seq (Grp (Plus is_digit)) (Alt Eol (Plus is_space))) pos s caps final =
  if (0 <? run is_digit s)%nat
  then
    let rest := drop (run is_digit s) s in
    if at_eol rest
    then Some ((pos + run is_digit s)%nat,
               (caps ++ [take (run is_digit s) s])%list)
    else if (0 <? run is_space rest)%nat
         then Some ((pos + run is_digit s + run is_space rest)%nat,
                    (caps ++ [take (run is_digit s) s])%list)
         else None
  else None.
Proof.
  cbn [m]. rewrite plus_greedy.
  - destruct (0 <? run is_digit s)%nat; [|reflexivity].
    replace (pos + run is_digit s - pos)%nat with (run is_digit s) by lia.
    apply integer_tail.
  - intros pos' c t caps' Hc.
    destruct (at_eol (String c t)) eqn:E.
    + destruct t; [|discriminate]. cbn [at_eol] in E.
      apply Ascii.eqb_eq in E as ->. discriminate.
    + destruct (plus is_space pos' (String c t) _ _) eqn:Ep; [|reflexivity].
      cbn [plus] in Ep. now rewrite (digit_not_space c Hc) in Ep.
Qed.

Lemma integer_body_space pos c t caps :
  is_space c = true ->
  m (Seq (Grp (Plus is_digit)) (Alt Eol (Plus is_space))) pos (String c t)
    caps final = None.
Proof.
  intros Hc. rewrite integer_body. cbn [run].
  destruct (is_digit c) eqn:Hd; [|reflexivity].
  now rewrite (digit_not_space c Hd) in Hc.
Qed.

Local Abbreviation body pos s caps :=
  (m (Seq (Grp (Plus is_digit)) (Alt Eol (Plus is_space))) pos s caps final).

(** An attempt at an offset: the digits at once, which only the start
    of the subject allows, or after a run of white space. *)
Lemma match_at_integer pos s :
  match_at RE_INTEGER pos s =
  let after_space :=
    if (0 <? run is_space s)%nat
    then body (pos + run is_space s)%nat (drop (run is_space s) s) []
    else None in
  if (pos =? 0)%nat
  then match body pos s [] with
       | Some x => Some x
       | None => after_space
       end
  else after_space.
Proof.
  unfold match_at, RE_INTEGER.
  set (B := Seq (Grp (Plus is_digit)) (Alt Eol (Plus is_space))).
  change (m (Seq (Alt Bol (Plus is_space)) B) pos s [] final)
    with (match (if (pos =? 0)%nat then m B pos s [] final else None) with
          | Some x => Some x
          | None =>
              plus is_space pos s []
                (fun pos' s' caps' => m B pos' s' caps' final)
          end).
  rewrite (plus_greedy is_space)
    by (intros; now apply integer_body_space).
  cbv zeta. destruct (pos =? 0)%nat; reflexivity.
Qed.

(** Where a match ends, the subject is over, or goes on with a
    character that is not white space, or with a last newline. *)
Local Abbreviation stops rest :=
  (match rest with
   | EmptyString => True
   | String c t => is_space c = false \/ t = ""
   end).

Lemma body_end pos s caps e caps' :
  body pos s caps = Some (e, caps') ->
  exists n, e = (pos + n)%nat /\ (1 <= n <= String.length s)%nat /\
            stops (drop n s).
Proof.
  rewrite integer_body. pose proof (run_le is_digit s) as Hd.
  destruct (0 <? run is_digit s)%nat eqn:E; [|discriminate].
  apply Nat.ltb_lt in E. cbv zeta.
  set (rest := drop (run is_digit s) s).
  pose proof (run_le is_space rest) as Hs.
  assert (String.length rest = String.length s - run is_digit s)%nat
    as Hrest by apply length_drop.
  destruct (at_eol rest) eqn:Eol.
  - intros [= <- _]. exists (run is_digit s). split; [reflexivity|].
    split; [lia|]. fold rest.
    destruct rest as [|c [|c' t]]; try discriminate; auto.
  - destruct (0 <? run is_space rest)%nat eqn:E'; [|discriminate].
    apply Nat.ltb_lt in E'. intros [= <- _].
    exists (run is_digit s + run is_space rest)%nat.
    split; [lia|]. split; [lia|].
    rewrite <- drop_drop. fold rest. rewrite lstrip_by_run.
    pose proof (lstrip_by_head is_space rest) as Hh.
    destruct (lstrip_by is_space rest); auto.
Qed.

Lemma match_end pos s e caps :
  match_at RE_INTEGER pos s = Some (e, caps) ->
  exists n, e = (pos + n)%nat /\ (1 <= n <= String.length s)%nat /\
            stops (drop n s).
Proof.
  rewrite match_at_integer. cbv zeta.
  assert ((if (0 <? run is_space s)%nat
           then body (pos + run is_space s)%nat (drop (run is_space s) s) []
           else None) = Some (e, caps) ->
          exists n, e = (pos + n)%nat /\ (1 <= n <= String.length s)%nat /\
                    stops (drop n s)) as Hspace.
  { destruct (0 <? run is_space s)%nat; [|discriminate].
    intros H. apply body_end in H as (n & -> & Hn & Hstop).
    pose proof (run_le is_space s). rewrite length_drop in Hn.
    exists (run is_space s + n)%nat. split; [lia|]. split; [lia|].
    now rewrite <- drop_drop. }
  destruct (pos =? 0)%nat; [|exact Hspace].
  destruct (body pos s []) as [[e' caps']|] eqn:Eb; [|exact Hspace].
  intros [= <- <-]. now apply body_end in Eb.
Qed.

Lemma match_after_end pos s :
  (1 <= pos)%nat -> stops s -> match_at RE_INTEGER pos s = None.
Proof.
  intros Hpos Hstop. rewrite match_at_integer. cbv zeta.
  destruct (pos =? 0)%nat eqn:E; [apply Nat.eqb_eq in E; lia|].
  destruct s as [|c t]; [reflexivity|]. cbn [run].
  destruct (is_space c) eqn:Hc; [|reflexivity].
  destruct Hstop as [H | ->]; [discriminate|]. reflexivity.
Qed.

(** *** The text that the matches leave *)

Local Abbreviation widths l :=
  (list_sum (map (fun mt => (snd (fst mt) - fst (fst mt))%nat) l)).

Lemma scan_widths (r : re) (s : string) (pos skip : nat) :
  (skip <= String.length s)%nat ->
  (widths (scan r pos s skip) + skip <= String.length s)%nat.
Proof.
  intros H. pose proof (sub_scan_length r s pos skip H). lia.
Qed.

(** When the matches cover the subject, the first of them does. *)
Lemma covered_by_first (s : string) :
  matched_length s = String.length s -> s <> "" ->
  exists caps, match_at RE_INTEGER 0 s = Some (String.length s, caps).
Proof.
  unfold matched_length. intros Hcov Hne.
  destruct s as [|c t]; [congruence|]. cbn [scan] in Hcov.
  destruct (match_at RE_INTEGER 0 (String c t)) as [[e caps]|] eqn:E.
  - exists caps. f_equal. f_equal.
    destruct (match_end _ _ _ _ E) as (n & -> & Hn & Hstop).
    cbn [Nat.add] in *. cbn [map list_sum fst snd] in Hcov.
    destruct (Nat.eq_dec n (String.length (String c t))) as [|Hlt];
      [assumption|]. exfalso.
    cbn [String.length] in Hn, Hlt, Hcov.
    rewrite scan_skip in Hcov by lia.
    replace (1 + (n - 0 - 1))%nat with n in Hcov by lia.
    replace (drop (n - 0 - 1) t) with (drop n (String c t)) in Hcov
      by (destruct n; [lia | cbn [drop]; f_equal; lia]).
    pose proof (length_drop n (String c t)) as Hlen.
    cbn [String.length] in Hlen.
    destruct (drop n (String c t)) as [|c' t'] eqn:Ed;
      [cbn [String.length] in Hlen; lia|].
    cbn [scan] in Hcov.
    rewrite (match_after_end n (String c' t')) in Hcov by (lia || exact Hstop).
    pose proof (scan_widths RE_INTEGER t' (S n) 0 ltac:(lia)) as Hw.
    cbn [String.length] in Hlen.
    unfold list_sum in Hcov, Hw. cbn [fold_right] in Hcov. lia.
  - pose proof (scan_widths RE_INTEGER t 1 0 ltac:(lia)) as Hw.
    cbn [String.length] in Hcov. lia.
Qed.

Lemma run_all (p : ascii -> bool) (s : string) :
  run p s = String.length s -> all p s = true.
Proof.
  induction s as [|c t IH]; cbn [run all String.length]; [reflexivity|].
  destruct (p c); [|discriminate]. intros [= H]. now apply IH.
Qed.

Lemma all_run (p : ascii -> bool) (s : string) :
  all p s = true -> run p s = String.length s.
Proof.
  induction s as [|c t IH]; cbn [run all String.length]; [reflexivity|].
  destruct (p c); [|discriminate]. intros H. now rewrite IH.
Qed.

(** A subject that one match of [RE_INTEGER] covers is no page range. *)
Lemma whole_match_no_pages (s : string) (caps : list string) :
  match_at RE_INTEGER 0 s = Some (String.length s, caps) ->
  page_range s = None.
Proof.
  rewrite match_at_integer. cbn [Nat.eqb]. cbv zeta. unfold page_range.
  destruct (body 0 s []) as [[e caps']|] eqn:Eb.
  - intros [= -> _]. rewrite integer_body in Eb.
    destruct (0 <? run is_digit s)%nat eqn:Ed; [|discriminate].
    cbv zeta in Eb. cbn [Nat.add] in Eb.
    set (rest := drop (run is_digit s) s) in *.
    assert (String.length rest = String.length s - run is_digit s)%nat
      as Hrest by apply length_drop.
    pose proof (run_le is_digit s) as Hd.
    pose proof (run_le is_space rest) as Hs.
    assert (run is_page_sep rest = String.length rest
            /\ all is_space rest = true) as [Hsep Hall].
    { destruct (at_eol rest).
      - injection Eb as Eb _.
        destruct rest; [auto | cbn [String.length] in Hrest; lia].
      - destruct (0 <? run is_space rest)%nat; [|discriminate].
        injection Eb as Eb _.
        assert (all is_space rest = true) as Hall
          by (apply run_all; lia).
        split; [|exact Hall].
        apply all_run, (all_weaken is_space); [apply space_is_sep|exact Hall]. }
    rewrite Hsep, drop_length. cbn [run Nat.ltb Nat.leb].
    now rewrite !andb_false_r.
  - destruct (0 <? run is_space s)%nat eqn:Es; [|discriminate]. intros _.
    destruct s as [|c t]; [discriminate Es|]. cbn [run] in *.
    destruct (is_digit c) eqn:Hd; [|reflexivity].
    now rewrite (digit_not_space c Hd) in Es.
Qed.

(** On a string that the tokens cover, [is_pages] finds no range. *)
Lemma covered_no_pages (s : string) :
  matched_length s = String.length s -> s <> "" ->
  is_pages (VStr s) = Ok 0%Q.
Proof.
  intros Hcov Hne. destruct (covered_by_first s Hcov Hne) as (caps & H).
  unfold is_pages. cbn [match_v bind].
  now rewrite pages_match, (whole_match_no_pages s caps H).
Qed.

Lemma is_integer_like_uncovered (s : string) :
  matched_length s <> String.length s ->
  exists q, is_integer_like (VStr s) = Ok q /\ (q < 1)%Q.
Proof.
  intros Hcov. destruct (findall RE_INTEGER s) as [|tok toks] eqn:Ef.
  - exists 0%Q. split; [|reflexivity].
    unfold is_integer_like. cbn [is_none is_int has_len andb].
    rewrite Ef. now destruct (len_is (VStr s) 0).
  - destruct (is_integer_like_covered s) as (q & Hq & Heq); [congruence|].
    exists q. split; [exact Hq|]. rewrite Heq.
    pose proof (matched_length_le s) as Hle.
    apply Qlt_shift_div_r.
    + apply Qnat_pos. lia.
    + rewrite Qmult_1_l. unfold Qnat, Qlt. cbn. lia.
Qed.

Section Environment.

Variable clean_text : option bool -> obj -> result string.
Variables REGEX_DOI REGEX_ISBN_10 REGEX_ISBN_13 REGEX_ARXIV_STRICT
  : string -> bool.
Variable bloom_filters : option ((string -> bool) * (string -> bool)).

Local Abbreviation BELIEF_FUNCTIONS :=
  (BELIEF_FUNCTIONS clean_text REGEX_DOI REGEX_ISBN_10 REGEX_ISBN_13
     REGEX_ARXIV_STRICT bloom_filters).
Local Abbreviation calculate_belief :=
  (calculate_belief clean_text REGEX_DOI REGEX_ISBN_10 REGEX_ISBN_13
     REGEX_ARXIV_STRICT bloom_filters).

(** What the two functions of [pages] add for a value that is not
    blank: never 2. *)
Lemma pages_scores (value : obj) :
  truthy value = true ->
  (contribution value is_integer_like + contribution value is_pages < 2)%Q.
Proof.
  intros Ht. unfold contribution at 1.
  destruct (is_integer_like_total value) as (q & Hq & Hq0 & Hq1).
  rewrite Hq.
  assert (0 <= contribution value is_pages <= 1)%Q as [Hx0 Hx1].
  { unfold contribution. destruct (is_pages value) as [x|] eqn:E;
      [now apply (is_pages_unit value) | split; discriminate]. }
  assert ((q < 1)%Q \/ contribution value is_pages = 0%Q) as [Hlt | ->].
  { destruct value as [|n|y|s|l|d|neg|]; try (now right).
    destruct (Nat.eq_dec (matched_length s) (String.length s)) as [Hc|Hc].
    - right. unfold contribution. rewrite covered_no_pages; [reflexivity|exact Hc|].
      destruct s; [discriminate Ht | discriminate].
    - left. destruct (is_integer_like_uncovered s Hc) as (q' & Hq' & Hlt).
      rewrite Hq in Hq'. now injection Hq' as <-. }
  - change 2%Q with (1 + 1)%Q. now apply Qplus_lt_le_compat.
  - rewrite Qplus_0_r. apply (Qle_lt_trans _ 1); [exact Hq1 | reflexivity].
Qed.

(** X19. No value of [pages] that is not blank has a belief of 1: the
    tokens of [is_integer_like] are set off by white space, so a text
    that they cover holds no page range, and a text with a page range
    is not covered; and on a value that is not a string [is_pages]
    raises. *)
Theorem pages_belief_below_one (reference : Reference) :
  truthy (pages reference) = true ->
  exists output tr b,
    calculate_belief reference = Ok (output, tr) /\
    dict_lookup "pages" output = Some b /\
    (0 <= b < 1)%Q.
Proof.
  intros Ht.
  destruct (field_lookup clean_text REGEX_DOI REGEX_ISBN_10 REGEX_ISBN_13
              REGEX_ARXIV_STRICT bloom_filters reference "pages"
              (pages reference))
    as (output & tr & b & Hrun & Hb & Hmean); [cbn; auto 10 | exact Ht |].
  exists output, tr, b. split; [exact Hrun|]. split; [exact Hb|].
  rewrite Hmean. unfold Beliefs.mean_belief.
  change (dict_get BELIEF_FUNCTIONS "pages" [unity])
    with [is_integer_like; is_pages].
  cbn [map List.length]. rewrite !Qsum_cons.
  change (Qsum []) with 0%Q. rewrite Qplus_0_r.
  change (Qnat 2) with 2%Q.
  pose proof (pages_scores (pages reference) Ht) as Hlt.
  split.
  - apply Qle_shift_div_l; [reflexivity|]. rewrite Qmult_0_l.
    destruct (is_integer_like_total (pages reference)) as (q & Hq & Hq0 & _).
    unfold contribution at 1. rewrite Hq.
    rewrite <- (Qplus_0_r 0). apply Qplus_le_compat; [exact Hq0|].
    unfold contribution. destruct (is_pages (pages reference)) as [x|] eqn:E;
      [now apply (is_pages_unit (pages reference)) | discriminate].
  - apply Qlt_shift_div_r; [reflexivity|]. now rewrite Qmult_1_l.
Qed.

End Environment.

Local Abbreviation calculate_belief0 :=
  (calculate_belief Examples.clean_text0 Examples.no_match Examples.no_match
     Examples.no_match Examples.no_match Examples.no_filters).

(** The pages ['123-130']. *)
Lemma pages_belief_below_one_witness :
  exists output tr b,
    calculate_belief0 Examples.paged = Ok (output, tr) /\
    dict_lookup "pages" output = Some b /\ (0 <= b < 1)%Q.
Proof.
  apply (pages_belief_below_one Examples.clean_text0 Examples.no_match
           Examples.no_match Examples.no_match Examples.no_match
           Examples.no_filters Examples.paged).
  reflexivity.
Defined.

End PagesFacts.

(* ================================================================== *)
(** ** What the normalizers keep *)
(* ================================================================== *)

Module ShapeFacts.
Import Py Re Domain Normalize PyFacts ReFacts NormalizeFacts.

(** *** The ends of a stripped text *)

Lemma take_drop (n : nat) (s : string) : s = take n s ++ drop n s.
Proof.
  revert s. induction n as [|n IH]; intros [|c t]; cbn [take drop];
    try reflexivity.
  rewrite append_cons. now rewrite <- IH.
Qed.

Section Ends.
Variable p : ascii -> bool.

Lemma lstrip_by_split (s : string) :
  exists pre, s = pre ++ lstrip_by p s /\ all p pre = true.
Proof.
  exists (take (run p s) s). split; [|apply all_take_run].
  rewrite <- lstrip_by_run. apply take_drop.
Qed.

Lemma rstrip_by_split (s : string) :
  exists post, s = rstrip_by p s ++ post /\ all p post = true.
Proof.
  induction s as [|c t (post & Ht & Hpost)]; cbn [rstrip_by].
  - exists "". split; reflexivity.
  - destruct (rstrip_by p t) as [|c' t'] eqn:E.
    + destruct (p c) eqn:Hc.
      * exists (String c t). split; [reflexivity|]. cbn [all].
        rewrite Hc. apply (rstrip_by_empty p t), E.
      * exists t. split; [reflexivity|]. apply (rstrip_by_empty p t), E.
    + exists post. split; [|exact Hpost]. rewrite append_cons. now f_equal.
Qed.

Lemma rstrip_by_last (s : string) :
  rstrip_by p s = "" \/
  exists u d, rstrip_by p s = u ++ String d "" /\ p d = false.
Proof.
  induction s as [|c t IH]; cbn [rstrip_by]; [now left|].
  destruct (rstrip_by p t) as [|c' t'] eqn:E.
  - destruct (p c) eqn:Hc; [now left|]. right. exists "", c. auto.
  - right. destruct IH as [IH|(u & d & Hu & Hd)]; [discriminate|].
    exists (String c u), d. rewrite append_cons, <- Hu. auto.
Qed.

End Ends.

(** *** The texts that the normalizers return *)


(** X21. [_remove_leading_trailing_nonalpha] cuts a run of characters that
    are not alphanumeric off each end and keeps what lies between: the
    result is empty, or begins and ends with a letter or a digit. *)
Theorem remove_leading_trailing_shape (s : string) :
  exists t pre post,
    _remove_leading_trailing_nonalpha (VStr s) = Ok (VStr t) /\
    s = pre ++ t ++ post /\
    all is_nonalnum pre = true /\ all is_nonalnum post = true /\
    (t = "" \/
     exists c u u' d,
       t = String c u /\ is_nonalnum c = false /\
       t = u' ++ String d "" /\ is_nonalnum d = false).
Proof.
  unfold _remove_leading_trailing_nonalpha. cbn [sub_v bind].
  rewrite sub_leading, sub_trailing.
  destruct (lstrip_by_split is_nonalnum s) as (pre & Hpre & Apre).
  destruct (rstrip_by_split is_nonalnum (lstrip_by is_nonalnum s))
    as (post & Hpost & Apost).
  exists (rstrip_by is_nonalnum (lstrip_by is_nonalnum s)), pre, post.
  split; [reflexivity|]. split; [now rewrite <- Hpost|].
  split; [exact Apre|]. split; [exact Apost|].
  pose proof (lstrip_by_head is_nonalnum s) as Hhead.
  destruct (lstrip_by is_nonalnum s) as [|c t0]; [now left|]. right.
  destruct (rstrip_by_keeps_head is_nonalnum c t0 Hhead) as (u & Hu).
  destruct (rstrip_by_last is_nonalnum (String c t0))
    as [E | (u' & d & Hu' & Hd)]; [congruence|].
  exists c, u, u', d. auto.
Qed.

(** *** The names of an author *)

Lemma dict_set_keys_present {A : Type} (k : string) (v x : A) d :
  dict_lookup k d = Some x -> map fst (dict_set k v d) = map fst d.
Proof.
  induction d as [|[k' v'] d IH]; cbn [dict_lookup dict_set map fst];
    [discriminate|].
  destruct (String.eqb k k') eqn:E.
  - apply String.eqb_eq in E as ->. reflexivity.
  - intros H. cbn [map fst]. now rewrite IH.
Qed.

Lemma clean_name_frame (k : string) (d : list (string * obj)) :
  map fst (clean_name k d) = map fst d /\
  (forall k', k' <> k -> dict_lookup k' (clean_name k d) = dict_lookup k' d) /\
  (forall s, dict_lookup k d = Some (VStr s) ->
     dict_lookup k (clean_name k d) = Some (VStr (dots_title s))) /\
  (dict_lookup k d = None -> dict_lookup k (clean_name k d) = None).
Proof.
  unfold clean_name, dict_get.
  destruct (dict_lookup k d) as [[| | |s| | | |]|] eqn:E;
    try (repeat split; [congruence | congruence]).
  split; [now apply (dict_set_keys_present k _ (VStr s))|].
  split; [intros k' Hk'; now apply dict_lookup_set_other|].
  split; [|discriminate].
  intros s' [= <-]. apply dict_lookup_set_same.
Qed.

(** X22. [_remove_dots_from_author_names] rewrites the given names and the
    full name of an author, when they are there, and nothing else: the
    dict keeps its keys in their order, every other entry, the surname
    among them, keeps its value, and no key is added. *)
Theorem author_names_frame (d : list (string * obj)) :
  author_ok (VDict d) = true ->
  exists d',
    _remove_dots_from_author_names (VDict d) = Ok (VDict d') /\
    map fst d' = map fst d /\
    (forall k, k <> "givennames" -> k <> "fullname" ->
       dict_lookup k d' = dict_lookup k d) /\
    (forall k s, k = "givennames" \/ k = "fullname" ->
       dict_lookup k d = Some (VStr s) ->
       dict_lookup k d' = Some (VStr (dots_title s))) /\
    (forall k, dict_lookup k d = None -> dict_lookup k d' = None).
Proof.
  intros Hok.
  exists (clean_name "fullname" (clean_name "givennames" d)).
  split; [now rewrite (author_names d Hok)|].
  destruct (clean_name_frame "givennames" d) as (K1 & O1 & S1 & N1).
  destruct (clean_name_frame "fullname" (clean_name "givennames" d))
    as (K2 & O2 & S2 & N2).
  split; [now rewrite K2|]. split; [|split].
  - intros k Hg Hf. now rewrite O2, O1.
  - intros k s [-> | ->] Hs.
    + rewrite O2 by discriminate. now apply S1.
    + apply S2. now rewrite O1 by discriminate.
  - intros k Hk.
    destruct (String.eqb k "fullname") eqn:Ef.
    + apply String.eqb_eq in Ef as ->. apply N2.
      now rewrite O1 by discriminate.
    + apply String.eqb_neq in Ef. rewrite O2 by exact Ef.
      destruct (String.eqb k "givennames") eqn:Eg.
      * apply String.eqb_eq in Eg as ->. now apply N1.
      * apply String.eqb_neq in Eg. now rewrite O1.
Qed.

(** X23. The normalizer of the title undoes nothing of its own work:
    applied to its result, it returns it.  So do the normalizer of the
    source on an ASCII text and the normalizer of the authors on an
    author whose given names and full name are ASCII texts, and their
    results are ASCII again. *)
Theorem text_normalizers_idempotent :
  (forall s,
     exists t,
       _remove_leading_trailing_nonalpha (VStr s) = Ok (VStr t) /\
       _remove_leading_trailing_nonalpha (VStr t) = Ok (VStr t)) /\
  (forall s,
     isascii s = true ->
     exists t,
       (u <- _remove_dots (VStr s) ;; Ok (VStr (Py.title u))) = Ok (VStr t) /\
       (u <- _remove_dots (VStr t) ;; Ok (VStr (Py.title u))) = Ok (VStr t) /\
       isascii t = true) /\
  (forall author,
     author_ok author = true ->
     ascii_author author = true ->
     exists author',
       _remove_dots_from_author_names author = Ok author' /\
       _remove_dots_from_author_names author' = Ok author' /\
       ascii_author author' = true).
Proof.
  split; [|split].
  - intros s. exists (trim s). split; [reflexivity|].
    unfold _remove_leading_trailing_nonalpha. cbn [sub_v bind].
    fold (trim (trim s)). now rewrite trim_twice.
  - intros s Hs. exists (dots_title s). split; [reflexivity|].
    split; [|now apply isascii_dots_title].
    unfold _remove_dots. cbn [sub_v bind].
    fold (dots_title (dots_title s)). now rewrite dots_title_twice.
  - intros author Hok Hascii.
    destruct (author_ascii author Hok Hascii) as (author' & H1 & H2 & _ & H3).
    eauto.
Qed.

(** *** The repair of identifiers *)

Section Registry.
Variable ARCHIVES : list string.

Lemma fix_str_length (s : string) :
  (String.length s <= String.length (fix_str ARCHIVES s))%nat.
Proof.
  unfold fix_str. destruct (first_code ARCHIVES s) as [c|]; [|lia].
  destruct (in_str "-" c) eqn:H.
  - pose proof (typo_shorter c H) as Ht.
    unfold replace at 1. destruct (replace "-" "" c) as [|a t] eqn:Et.
    + rewrite length_intersperse. lia.
    + destruct (replace_from_length (String a t) c ltac:(discriminate)
                  (String.length s) s ltac:(lia)) as [Hl _].
      now destruct (Hl Ht).
  - rewrite (replace_no_hyphen c H), replace_same. lia.
Qed.

Lemma fix_arxiv_id_texts (texts : list string) :
  _fix_arxiv_id ARCHIVES (VList (map VStr texts))
  = Ok (VList (map (fun s => VStr (fix_str ARCHIVES s)) texts)).
Proof.
  cbn [_fix_arxiv_id].
  assert (mapM (_fix_arxiv_id ARCHIVES) (map VStr texts)
          = Ok (map (fun s => VStr (fix_str ARCHIVES s)) texts)) as ->;
    [|reflexivity].
  induction texts as [|s texts IH]; [reflexivity|].
  cbn [map mapM]. rewrite fix_arxiv_id_str, IH. reflexivity.
Qed.

(** X24. [_fix_arxiv_id] never raises on a text and never shortens it, and
    it leaves the text as it is exactly when no category of the
    registry occurs in it without its hyphens, or the first one that
    does has no hyphen.  A list of texts is repaired text by text.  A
    number is not searchable: with a category in the registry the
    repair raises [TypeError]. *)
Theorem fix_arxiv_id_shape :
  (forall s,
     exists s',
       _fix_arxiv_id ARCHIVES (VStr s) = Ok (VStr s') /\
       (String.length s <= String.length s')%nat /\
       (s' = s <-> settled ARCHIVES s = true)) /\
  (forall texts,
     _fix_arxiv_id ARCHIVES (VList (map VStr texts))
     = Ok (VList (map (fun s => VStr (fix_str ARCHIVES s)) texts))) /\
  (forall n,
     _fix_arxiv_id ARCHIVES (VInt n)
     = match ARCHIVES with [] => Ok (VInt n) | _ => Raise TypeError end).
Proof.
  split; [|split; [exact fix_arxiv_id_texts|]].
  - intros s. exists (fix_str ARCHIVES s).
    split; [apply fix_arxiv_id_str|]. split; [apply fix_str_length|].
    split; [|apply fix_str_settled].
    intros H. destruct (settled ARCHIVES s) eqn:E; [reflexivity|].
    now apply fix_str_unsettled in E.
  - intros n. now destruct ARCHIVES.
Qed.

(** *** The fields that [normalize_record] leaves alone *)

Lemma setattr_getattr (r : Reference) (field : string) :
  setattr r field (getattr r field) = r.
Proof.
  unfold setattr.
  repeat
    match goal with
    | |- context [String.eqb field ?k] =>
        destruct (String.eqb field k) eqn:?E;
        [apply String.eqb_eq in E; subst field; now destruct r|clear E]
    end.
  reflexivity.
Qed.

Lemma mapM_length {A B : Type} (f : A -> result B) (l : list A) :
  forall l', mapM f l = Ok l' -> List.length l' = List.length l.
Proof.
  induction l as [|x l IH]; cbn [mapM]; intros l'.
  - now intros [= <-].
  - destruct (f x) as [y|]; cbn [bind]; [|discriminate].
    destruct (mapM f l) as [ys|]; cbn [bind]; [|discriminate].
    intros [= <-]. cbn [List.length]. now rewrite (IH ys).
Qed.

Lemma normalize_field_writes (r r' : Reference) (field : string)
  (normalizer : obj -> result obj) :
  normalize_field r (field, normalizer) = Ok r' ->
  exists v,
    r' = setattr r field v /\
    (getattr r field = VNone -> v = VNone) /\
    (forall l, getattr r field = VList l ->
       exists l', v = VList l' /\ List.length l' = List.length l).
Proof.
  unfold normalize_field.
  destruct (getattr r field) as [|n|q|s|l|d|neg|] eqn:E; cbn [is_none].
  - intros [= <-]. exists VNone. rewrite <- E at 1.
    rewrite setattr_getattr. repeat split; [discriminate].
  - destruct (normalizer (VInt n)) as [v|]; cbn [bind]; [|discriminate].
    intros [= <-]. exists v. repeat split; discriminate.
  - destruct (normalizer (VFloat q)) as [v|]; cbn [bind]; [|discriminate].
    intros [= <-]. exists v. repeat split; discriminate.
  - destruct (normalizer (VStr s)) as [v|]; cbn [bind]; [|discriminate].
    intros [= <-]. exists v. repeat split; discriminate.
  - destruct (mapM normalizer l) as [l'|] eqn:El; cbn [bind]; [|discriminate].
    intros [= <-]. exists (VList l'). split; [reflexivity|].
    split; [discriminate|]. intros l0 [= <-]. exists l'.
    split; [reflexivity|]. now apply mapM_length in El.
  - destruct (normalizer (VDict d)) as [v|]; cbn [bind]; [|discriminate].
    intros [= <-]. exists v. repeat split; discriminate.
  - destruct (normalizer (VInf neg)) as [v|]; cbn [bind]; [|discriminate].
    intros [= <-]. exists v. repeat split; discriminate.
  - destruct (normalizer VNan) as [v|]; cbn [bind]; [|discriminate].
    intros [= <-]. exists v. repeat split; discriminate.
Qed.

(** X25. [normalize_record] writes the authors, the title, the source and
    the arXiv identifier, and no other field of the record.  A field of
    the four that is absent stays absent, and one that holds a list
    keeps the length of the list. *)
Theorem normalize_record_frame (r r' : Reference) :
  normalize_record ARCHIVES r = Ok r' ->
  (raw r' = raw r /\ year r' = year r /\ volume r' = volume r /\
   pages r' = pages r /\ issue r' = issue r /\
   identifiers r' = identifiers r /\ doi r' = doi r /\
   reftype r' = reftype r /\ score r' = score r) /\
  (forall field,
     In field ["authors"; "title"; "source"; "arxiv_id"] ->
     (getattr r field = VNone -> getattr r' field = VNone) /\
     (forall l, getattr r field = VList l ->
        exists l', getattr r' field = VList l' /\
                   List.length l' = List.length l)).
Proof.
  unfold normalize_record, NORMALIZERS. cbn [foldM].
  destruct (normalize_field r _) as [r1|] eqn:E1; cbn [bind]; [|discriminate].
  destruct (normalize_field r1 _) as [r2|] eqn:E2; cbn [bind]; [|discriminate].
  destruct (normalize_field r2 _) as [r3|] eqn:E3; cbn [bind]; [|discriminate].
  destruct (normalize_field r3 _) as [r4|] eqn:E4; cbn [bind]; [|discriminate].
  intros [= <-].
  apply normalize_field_writes in E1 as (a & -> & Na & La).
  apply normalize_field_writes in E2 as (t & -> & Nt & Lt).
  apply normalize_field_writes in E3 as (s & -> & Ns & Ls).
  apply normalize_field_writes in E4 as (x & -> & Nx & Lx).
  destruct r. cbn in *.
  split; [repeat split|].
  intros field [<- | [<- | [<- | [<- | []]]]]; cbn; auto.
Qed.

(** *** Records on which the normalizers do not raise *)

Lemma authors_total (v : obj) :
  authors_field v = true ->
  exists a, normalize_value _remove_dots_from_author_names v = Ok a.
Proof.
  intros H. unfold normalize_value.
  destruct v as [|n|q|s|l|d|neg|]; cbn [is_none]; try discriminate.
  - eauto.
  - cbn [authors_field] in H.
    destruct (RangeFacts.mapM_Forall _remove_dots_from_author_names
                (fun _ => True) l) as (l' & -> & _); [|cbn [bind]; eauto].
    apply List.Forall_forall. intros x Hx.
    rewrite forallb_forall in H.
    destruct (author_twice x (H x Hx)) as (x' & Hx' & _). eauto.
  - destruct (author_twice (VDict d) H) as (x' & Hx' & _). eauto.
Qed.

Lemma text_total (normalizer : obj -> result obj) (v : obj) :
  (forall u, exists w, normalizer (VStr u) = Ok w) ->
  text_field v = true ->
  exists t, normalize_value normalizer v = Ok t.
Proof.
  intros HN H. unfold normalize_value.
  destruct v as [|n|q|s|l|d|neg|]; cbn [is_none]; try discriminate.
  - eauto.
  - apply HN.
  - cbn [text_field] in H.
    destruct (RangeFacts.mapM_Forall normalizer (fun _ => True) l)
      as (l' & -> & _); [|cbn [bind]; eauto].
    apply List.Forall_forall. intros x Hx. rewrite forallb_forall in H.
    specialize (H x Hx). destruct x; try discriminate.
    destruct (HN s) as (w & Hw). eauto.
Qed.

Lemma normalize_record_total (r : Reference) :
  well_formed r = true -> exists r', normalize_record ARCHIVES r = Ok r'.
Proof.
  unfold well_formed. intros H.
  apply andb_true_iff in H as [H Hx]. apply andb_true_iff in H as [H Hs].
  apply andb_true_iff in H as [Ha Ht].
  destruct (authors_total _ Ha) as (a & Ea).
  destruct (text_total _remove_leading_trailing_nonalpha _
              ltac:(intros u; eexists; reflexivity) Ht) as (t & Et).
  destruct (text_total
              (fun text => s <- _remove_dots text ;; Ok (VStr (Py.title s))) _
              ltac:(intros u; eexists; reflexivity) Hs) as (s & Es).
  destruct (text_total (_fix_arxiv_id ARCHIVES) _
              ltac:(intros u; eexists; apply fix_arxiv_id_str) Hx)
    as (x & Ex).
  eexists. now apply (normalize_record_fields ARCHIVES r a t s x).
Qed.

(** X26. [normalize_records] does not raise on well-formed records, and
    returns their normalized forms one for one, in the order of the
    input. *)
Theorem normalize_records_total (records : list Reference) :
  Forall (fun r => well_formed r = true) records ->
  exists records',
    normalize_records ARCHIVES records = Ok records' /\
    Forall2 (fun r r' => normalize_record ARCHIVES r = Ok r') records records' /\
    List.length records' = List.length records.
Proof.
  intros H. unfold normalize_records.
  destruct (RangeFacts.mapM_Forall2 (normalize_record ARCHIVES)
              (fun r r' => normalize_record ARCHIVES r = Ok r') records)
    as (records' & Hrun & HR).
  - eapply List.Forall_impl; [|exact H]. intros r Hr.
    destruct (normalize_record_total r Hr) as (r' & Hr'). eauto.
  - exists records'. split; [exact Hrun|]. split; [exact HR|].
    symmetry. eapply List.Forall2_length, HR.
Qed.

End Registry.

(** *** The statements above at the records of the examples *)

(** An author with given names and a surname. *)
Lemma author_names_frame_witness :
  exists d',
    _remove_dots_from_author_names
      (VDict [("givennames", VStr "j. r."); ("surname", VStr "doe")])
    = Ok (VDict d') /\
    map fst d' = ["givennames"; "surname"] /\
    dict_lookup "surname" d' = Some (VStr "doe").
Proof.
  destruct (author_names_frame
              [("givennames", VStr "j. r."); ("surname", VStr "doe")])
    as (d' & Hrun & Hkeys & Hother & _); [reflexivity|].
  exists d'. split; [exact Hrun|]. split; [exact Hkeys|].
  rewrite Hother; [reflexivity | discriminate | discriminate].
Defined.

(** The record with one identifier keeps its year and its raw text. *)
Lemma normalize_record_frame_witness :
  exists r',
    normalize_record Examples.ARCHIVES Examples.one_identifier = Ok r' /\
    year r' = VStr "1997" /\ raw r' = VStr "".
Proof.
  destruct (normalize_record Examples.ARCHIVES Examples.one_identifier)
    as [r'|e] eqn:E; [|vm_compute in E; discriminate E].
  exists r'. split; [reflexivity|].
  destruct (normalize_record_frame Examples.ARCHIVES Examples.one_identifier
              r' E) as ((Hraw & Hyear & _) & _).
  now rewrite Hraw, Hyear.
Defined.

(** Two well-formed records. *)
Lemma normalize_records_total_witness :
  exists records',
    normalize_records Examples.ARCHIVES
      [Examples.one_identifier; Examples.two_identifiers] = Ok records' /\
    List.length records' = 2%nat.
Proof.
  destruct (normalize_records_total Examples.ARCHIVES
              [Examples.one_identifier; Examples.two_identifiers])
    as (records' & Hrun & _ & Hlen).
  - repeat constructor.
  - exists records'. split; [exact Hrun | exact Hlen].
Defined.

End ShapeFacts.

(* ================================================================== *)
(** ** Bounds of the filter *)
(* ================================================================== *)

Module FilterBounds.
Import Py Domain Normalize PyFacts FilterFacts.

(** *** What [filter_records] returns *)

Lemma filter_records_result (records : list (nat * Q)) (threshold : Q)
  (h : store) :
  exists composite,
    filter_records records threshold h
    = (Ok (map fst (retained threshold records), composite),
       fold_left assign records h) /\
    (retained threshold records = [] -> composite = 0%Q) /\
    (retained threshold records <> [] ->
     (composite == Qsum (map snd (retained threshold records))
                   / Qnat (List.length (map snd (retained threshold records))))%Q).
Proof.
  unfold filter_records. rewrite filter_loop_spec. cbn [app].
  destruct (retained threshold records) as [|p kept];
    cbn [List.length Nat.eqb].
  - eexists. split; [reflexivity|]. split; [reflexivity|]. intros H. now elim H.
  - cbn [mean map bind]. eexists. split; [reflexivity|].
    split; [discriminate|]. reflexivity.
Qed.

(** *** The threshold *)

Lemma retained_sublist (records : list (nat * Q)) (t1 t2 : Q) :
  (t1 <= t2)%Q ->
  map fst (retained t2 records) `sublist_of` map fst (retained t1 records).
Proof.
  intros Ht. unfold retained.
  induction records as [|[ref sc] records IH]; cbn [List.filter snd];
    [constructor|].
  destruct (Qle_bool t2 sc) eqn:E2.
  - assert (Qle_bool t1 sc = true) as ->.
    { apply Qle_bool_iff. apply Qle_bool_iff in E2.
      now apply (Qle_trans _ t2). }
    cbn [map fst]. now constructor.
  - destruct (Qle_bool t1 sc); [|exact IH].
    cbn [map fst]. now constructor.
Qed.

(** X27. Raising the threshold never adds a record: what [filter_records]
    keeps at the higher threshold is a sublist of what it keeps at the
    lower, the order of the input left as it is. *)
Theorem filter_records_monotone (records : list (nat * Q)) (t1 t2 : Q)
  (h1 h2 : store) :
  (t1 <= t2)%Q ->
  exists kept1 composite1 kept2 composite2,
    fst (filter_records records t1 h1) = Ok (kept1, composite1) /\
    fst (filter_records records t2 h2) = Ok (kept2, composite2) /\
    kept2 `sublist_of` kept1 /\
    kept1 `sublist_of` map fst records /\
    (List.length kept2 <= List.length kept1 <= List.length records)%nat.
Proof.
  intros Ht.
  destruct (filter_records_result records t1 h1) as (c1 & -> & _).
  destruct (filter_records_result records t2 h2) as (c2 & -> & _).
  pose proof (retained_sublist records t1 t2 Ht) as Hsub.
  assert (map fst (retained t1 records) `sublist_of` map fst records)
    as Hall.
  { clear. unfold retained.
    induction records as [|[ref sc] records IH]; cbn [List.filter snd];
      [constructor|].
    destruct (Qle_bool t1 sc); cbn [map fst]; now constructor. }
  do 4 eexists. split; [reflexivity|]. split; [reflexivity|].
  split; [exact Hsub|]. split; [exact Hall|].
  apply sublist_length in Hsub, Hall.
  rewrite (List.length_map fst records) in Hall. lia.
Qed.

(** *** The composite score *)

Lemma Qsum_lower (lo : Q) (l : list Q) :
  Forall (fun x => lo <= x)%Q l -> (lo * Qnat (List.length l) <= Qsum l)%Q.
Proof.
  induction 1 as [|x l Hlo _ IH].
  - unfold Qnat, Qsum. cbn [List.length Z.of_nat inject_Z fold_left].
    rewrite Qmult_0_r. apply Qle_refl.
  - cbn [List.length]. rewrite Qsum_cons, Qnat_S, Qmult_plus_distr_r,
      Qmult_1_r.
    now apply Qplus_le_compat.
Qed.

Lemma Qsum_upper (hi : Q) (l : list Q) :
  Forall (fun x => x <= hi)%Q l -> (Qsum l <= hi * Qnat (List.length l))%Q.
Proof.
  induction 1 as [|x l Hhi _ IH].
  - unfold Qnat, Qsum. cbn [List.length Z.of_nat inject_Z fold_left].
    rewrite Qmult_0_r. apply Qle_refl.
  - cbn [List.length]. rewrite Qsum_cons, Qnat_S, Qmult_plus_distr_r,
      Qmult_1_r.
    now apply Qplus_le_compat.
Qed.

Lemma mean_lower (lo : Q) (l : list Q) :
  l <> [] -> Forall (fun x => lo <= x)%Q l ->
  (lo <= Qsum l / Qnat (List.length l))%Q.
Proof.
  intros Hne Hl. apply Qle_shift_div_l; [|now apply Qsum_lower].
  apply RangeFacts.Qnat_pos. destruct l; [congruence | cbn; lia].
Qed.

Lemma mean_upper (hi : Q) (l : list Q) :
  l <> [] -> Forall (fun x => x <= hi)%Q l ->
  (Qsum l / Qnat (List.length l) <= hi)%Q.
Proof.
  intros Hne Hl. apply Qle_shift_div_r; [|now apply Qsum_upper].
  apply RangeFacts.Qnat_pos. destruct l; [congruence | cbn; lia].
Qed.

Lemma retained_scores (P : Q -> Prop) (records : list (nat * Q))
  (threshold : Q) :
  (forall p, In p records -> (threshold <= snd p)%Q -> P (snd p)) ->
  Forall P (map snd (retained threshold records)).
Proof.
  intros H. apply List.Forall_forall. intros x Hx.
  apply in_map_iff in Hx as (p & <- & Hp).
  apply filter_In in Hp as [Hin Hle]. apply H; [exact Hin|].
  now apply Qle_bool_iff.
Qed.

(** X28. The composite score of [filter_records] is the mean of scores that
    reach the threshold: when a record is kept it is at least the
    threshold and at most any bound on the scores, and when the scores
    are probabilities it is a probability, also when nothing is kept. *)
Theorem filter_records_composite_bounds (records : list (nat * Q))
  (threshold : Q) (h : store) :
  exists kept composite,
    fst (filter_records records threshold h) = Ok (kept, composite) /\
    (kept <> [] ->
     (threshold <= composite)%Q /\
     forall hi,
       (forall p, In p records -> (snd p <= hi)%Q) -> (composite <= hi)%Q) /\
    ((forall p, In p records -> (0 <= snd p <= 1)%Q) ->
     (0 <= composite <= 1)%Q).
Proof.
  destruct (filter_records_result records threshold h)
    as (c & -> & Hzero & Hc).
  exists (map fst (retained threshold records)), c.
  split; [reflexivity|].
  destruct (retained threshold records) as [|p kept] eqn:E.
  - rewrite Hzero by reflexivity. split; [intros H; now elim H|].
    intros _. split; discriminate.
  - assert (map snd (p :: kept) <> []) as Hne by discriminate.
    specialize (Hc ltac:(discriminate)). rewrite <- E in Hne, Hc.
    split.
    + intros _. split.
      * rewrite Hc. apply mean_lower; [exact Hne|].
        apply retained_scores. auto.
      * intros hi Hhi. rewrite Hc. apply mean_upper; [exact Hne|].
        apply retained_scores. auto.
    + intros Hunit. rewrite Hc. split.
      * apply mean_lower; [exact Hne|]. apply retained_scores.
        intros q Hq _. now apply Hunit.
      * apply mean_upper; [exact Hne|]. apply retained_scores.
        intros q Hq _. now apply Hunit.
Qed.

(** X29. A threshold that every score reaches keeps every record, in the
    order of the input, and the composite score is the mean of all the
    scores. *)
Theorem filter_records_keeps_all (records : list (nat * Q)) (threshold : Q)
  (h : store) :
  (forall p, In p records -> (threshold <= snd p)%Q) ->
  exists composite,
    fst (filter_records records threshold h)
    = Ok (map fst records, composite) /\
    (records <> [] ->
     (composite == Qsum (map snd records) / Qnat (List.length records))%Q).
Proof.
  intros Hall.
  assert (retained threshold records = records) as E.
  { unfold retained. induction records as [|p records IH];
      cbn [List.filter]; [reflexivity|].
    assert (Qle_bool threshold (snd p) = true) as ->.
    { apply Qle_bool_iff, Hall. now left. }
    rewrite IH; [reflexivity|]. intros q Hq. apply Hall. now right. }
  destruct (filter_records_result records threshold h) as (c & -> & _ & Hc).
  rewrite E in *. exists c. split; [reflexivity|].
  intros Hne. rewrite (Hc Hne). now rewrite List.length_map.
Qed.

(** *** The store *)

(** X30. [filter_records] changes nothing but scores: a record outside its
    input is left as it is, a record of the store keeps every field but
    its score, and no record is added to the store. *)
Theorem filter_records_frame (records : list (nat * Q)) (threshold : Q)
  (h : store) :
  let h' := snd (filter_records records threshold h) in
  (forall ref, ~ In ref (map fst records) -> h' !! ref = h !! ref) /\
  (forall ref r,
     h !! ref = Some r ->
     exists r', h' !! ref = Some r' /\ forall v, set_score v r' = set_score v r) /\
  (forall ref, h !! ref = None -> h' !! ref = None).
Proof.
  destruct (filter_records_result records threshold h) as (c & -> & _).
  cbn [snd]. split; [|split].
  - intros ref. apply assign_all_other.
  - intros ref r. apply assign_all_lookup.
  - revert h. induction records as [|[ref0 sc] records IH]; intros h ref Hr;
      cbn [fold_left]; [exact Hr|].
    apply IH. unfold assign. cbn [fst snd]. rewrite lookup_alter.
    case_decide; [subst; now rewrite Hr | exact Hr].
Qed.

(** *** The statements above at the records of the tests *)

(** The thresholds 0.2 and 0.5. *)
Lemma filter_records_monotone_witness :
  exists kept1 composite1 kept2 composite2,
    fst (filter_records Examples.test_records (2 # 10) Examples.test_store)
    = Ok (kept1, composite1) /\
    fst (filter_records Examples.test_records (5 # 10) Examples.test_store)
    = Ok (kept2, composite2) /\
    kept2 `sublist_of` kept1.
Proof.
  destruct (filter_records_monotone Examples.test_records (2 # 10) (5 # 10)
              Examples.test_store Examples.test_store)
    as (k1 & c1 & k2 & c2 & H1 & H2 & Hsub & _); [discriminate|].
  exists k1, c1, k2, c2. auto.
Defined.

(** The threshold 0.1, which every score of the tests reaches. *)
Lemma filter_records_keeps_all_witness :
  exists composite,
    fst (filter_records Examples.test_records (1 # 10) Examples.test_store)
    = Ok ([0; 1; 2]%nat, composite) /\
    (composite == 14 # 30)%Q.
Proof.
  destruct (filter_records_keeps_all Examples.test_records (1 # 10)
              Examples.test_store) as (c & Hrun & Hmean).
  - intros p [<- | [<- | [<- | []]]]; discriminate.
  - exists c. split; [exact Hrun|].
    rewrite Hmean; [vm_compute; reflexivity | discriminate].
Defined.

End FilterBounds.
